(** * cdxbasics: the disk-backed memoization of [SubDir.cache]

    A shallow embedding of the parts of [cdxbasics/util.py] and
    [cdxbasics/subdir.py] that make up the caching engine:

    - [Hashlib]: the two digests of Python's [hashlib] that [uniqueHashExt]
      instantiates, MD5 (RFC 1321) and SHAKE128 (FIPS 202), over byte strings;
    - [Py]: the Python values the hasher walks, exceptions, [repr], slices,
      [sorted], [dict] updates and the functions of [os.path];
    - [Util]: [plain], [_compress_function_code], [uniqueHashExt] with its
      [visit], [uniqueHash], [uniqueHash32], the class [CacheMode], [bind],
      [fmt_seconds] and [fmt_list];
    - [Subdir]: the file-backed store of [SubDir] (its constructor,
      [fullKeyName], [_read], [read], [_write], [write], [keys], [delete],
      [deleteAllKeys], [exists], [__call__]) and the wrapper that
      [SubDir.cache] returns.

    What the model takes for granted:
    - text is 7-bit, so [repr] and [lower] are those of ASCII and UTF-8
      encoding changes nothing;
    - a mapping has [str] and [int] keys;
    - [pickle.load] gives back what [pickle.dump] wrote; [pickle.dump]
      refuses some values, which ones is a datum of the process, and leaves
      the file it was given as it was opened; on a file that is no complete
      pickle [pickle.load] raises [EOFError] or another error;
    - the file system is a finite map from full paths, as they are written,
      to files and directories; a file needs no entry for the directory it
      lies in, the constructor of [SubDir] makes that directory and no
      statement of the model removes one;
    - a wrapped function is a function from its arguments to a value or an
      exception, and every run of it is counted;
    - [cdxbasics/logger.py] is not part of the sources: [verify] raises when
      its condition is false and [warning] records its text.

    Definitions come first, statements about them afterwards. *)

From Stdlib Require Import ZArith List Ascii String DecimalString Permutation Lia.
From stdpp Require Import gmap strings list fin_maps.

Import ListNotations.
Set Warnings "-register-all".

Local Open Scope string_scope.

(* ===================================================================== *)
(** * hashlib: MD5 and SHAKE128 *)
(* ===================================================================== *)

Module Hashlib.

Local Open Scope Z_scope.

(** Bytes are integers in [0, 256); a Python [bytes] object is a [string]
    whose characters are its bytes. *)
Definition bytes_of_string (s : string) : list Z :=
  map (fun c => Z.of_nat (nat_of_ascii c)) (list_ascii_of_string s).

Definition hex_digit (n : Z) : ascii :=
  nth (Z.to_nat n) (list_ascii_of_string "0123456789abcdef") "0"%char.

Definition hex_of_byte (b : Z) : list ascii :=
  [hex_digit (b / 16 mod 16); hex_digit (b mod 16)].

Definition hex_of_bytes (bs : list Z) : string :=
  string_of_list_ascii (flat_map hex_of_byte bs).

(** Little-endian bytes of the [n] low bytes of [x]. *)
Fixpoint le_bytes (n : nat) (x : Z) : list Z :=
  match n with
  | O => []
  | S n' => x mod 256 :: le_bytes n' (x / 256)
  end.

Fixpoint of_le_bytes (bs : list Z) : Z :=
  match bs with
  | [] => 0
  | b :: bs' => b + 256 * of_le_bytes bs'
  end.

(** [chunks n fuel l]: consecutive slices of [n] elements each. *)
Fixpoint chunks {A} (n : nat) (fuel : nat) (l : list A) : list (list A) :=
  match fuel with
  | O => []
  | S fuel' =>
      match l with
      | [] => []
      | _ => firstn n l :: chunks n fuel' (skipn n l)
      end
  end.

(** ** MD5 *)

Definition w32 (x : Z) : Z := x mod 2 ^ 32.
Definition rotl32 (x s : Z) : Z :=
  w32 (Z.lor (Z.shiftl x s) (Z.shiftr x (32 - s))).
Definition not32 (x : Z) : Z := Z.lxor x 0xffffffff.

Definition md5_K : list Z :=
  [ 0xd76aa478; 0xe8c7b756; 0x242070db; 0xc1bdceee; 0xf57c0faf; 0x4787c62a;
    0xa8304613; 0xfd469501; 0x698098d8; 0x8b44f7af; 0xffff5bb1; 0x895cd7be;
    0x6b901122; 0xfd987193; 0xa679438e; 0x49b40821; 0xf61e2562; 0xc040b340;
    0x265e5a51; 0xe9b6c7aa; 0xd62f105d; 0x02441453; 0xd8a1e681; 0xe7d3fbc8;
    0x21e1cde6; 0xc33707d6; 0xf4d50d87; 0x455a14ed; 0xa9e3e905; 0xfcefa3f8;
    0x676f02d9; 0x8d2a4c8a; 0xfffa3942; 0x8771f681; 0x6d9d6122; 0xfde5380c;
    0xa4beea44; 0x4bdecfa9; 0xf6bb4b60; 0xbebfbc70; 0x289b7ec6; 0xeaa127fa;
    0xd4ef3085; 0x04881d05; 0xd9d4d039; 0xe6db99e5; 0x1fa27cf8; 0xc4ac5665;
    0xf4292244; 0x432aff97; 0xab9423a7; 0xfc93a039; 0x655b59c3; 0x8f0ccc92;
    0xffeff47d; 0x85845dd1; 0x6fa87e4f; 0xfe2ce6e0; 0xa3014314; 0x4e0811a1;
    0xf7537e82; 0xbd3af235; 0x2ad7d2bb; 0xeb86d391 ].

Definition md5_S : list Z :=
  [ 7; 12; 17; 22; 7; 12; 17; 22; 7; 12; 17; 22; 7; 12; 17; 22;
    5; 9; 14; 20; 5; 9; 14; 20; 5; 9; 14; 20; 5; 9; 14; 20;
    4; 11; 16; 23; 4; 11; 16; 23; 4; 11; 16; 23; 4; 11; 16; 23;
    6; 10; 15; 21; 6; 10; 15; 21; 6; 10; 15; 21; 6; 10; 15; 21 ].

(** The chaining value: the four 32-bit words A, B, C, D. *)
Record md5_state := Md5 { md5_a : Z; md5_b : Z; md5_c : Z; md5_d : Z }.

Definition md5_init : md5_state :=
  Md5 0x67452301 0xefcdab89 0x98badcfe 0x10325476.

Definition md5_step (M : list Z) (st : md5_state) (i : nat) : md5_state :=
  let '(Md5 a b c d) := st in
  let iz := Z.of_nat i in
  let '(F, g) :=
    if iz <? 16 then (Z.lor (Z.land b c) (Z.land (not32 b) d), iz)
    else if iz <? 32 then
      (Z.lor (Z.land d b) (Z.land (not32 d) c), (5 * iz + 1) mod 16)
    else if iz <? 48 then (Z.lxor b (Z.lxor c d), (3 * iz + 5) mod 16)
    else (Z.lxor c (Z.lor b (not32 d)), (7 * iz) mod 16) in
  let F' := w32 (F + a + nth i md5_K 0 + nth (Z.to_nat g) M 0) in
  Md5 d (w32 (b + rotl32 F' (nth i md5_S 0))) b c.

Definition md5_block (st : md5_state) (block : list Z) : md5_state :=
  let M := map of_le_bytes (chunks 4 16 block) in
  let '(Md5 a b c d) := fold_left (md5_step M) (seq 0 64) st in
  Md5 (w32 (md5_a st + a)) (w32 (md5_b st + b))
      (w32 (md5_c st + c)) (w32 (md5_d st + d)).

Definition md5_pad (msg : list Z) : list Z :=
  let len := Z.of_nat (length msg) in
  msg ++ [0x80] ++ repeat 0 (Z.to_nat ((55 - len) mod 64))
      ++ le_bytes 8 (8 * len).

Definition md5_digest (msg : list Z) : list Z :=
  let padded := md5_pad msg in
  let '(Md5 a b c d) :=
    fold_left md5_block (chunks 64 (length padded) padded) md5_init in
  flat_map (le_bytes 4) [a; b; c; d].

(** [hashlib.md5(); m.update(msg); m.hexdigest()]. *)
Definition md5 (msg : string) : string :=
  hex_of_bytes (md5_digest (bytes_of_string msg)).

(** ** SHAKE128 *)

Definition w64 (x : Z) : Z := x mod 2 ^ 64.
Definition rotl64 (x s : Z) : Z :=
  w64 (Z.lor (Z.shiftl x s) (Z.shiftr x (64 - s))).
Definition not64 (x : Z) : Z := Z.lxor x 0xffffffffffffffff.

Definition keccak_RC : list Z :=
  [ 0x1; 0x8082; 0x800000000000808a; 0x8000000080008000; 0x808b;
    0x80000001; 0x8000000080008081; 0x8000000000008009; 0x8a; 0x88;
    0x80008009; 0x8000000a; 0x8000808b; 0x800000000000008b;
    0x8000000000008089; 0x8000000000008003; 0x8000000000008002;
    0x8000000000000080; 0x800a; 0x800000008000000a; 0x8000000080008081;
    0x8000000000008080; 0x80000001; 0x8000000080008008 ].

(** Rotation offsets, lane [(x, y)] at index [x + 5 * y]. *)
Definition keccak_rot : list Z :=
  [ 0; 1; 62; 28; 27; 36; 44; 6; 55; 20; 3; 10; 43; 25; 39; 41; 45; 15;
    21; 8; 18; 2; 61; 56; 14 ].

(** The state: 25 lanes of 64 bits, lane [(x, y)] at index [x + 5 * y]. *)
Definition lane (st : list Z) (x y : nat) : Z :=
  nth (x mod 5 + 5 * (y mod 5))%nat st 0.

Definition lanes (f : nat -> nat -> Z) : list Z :=
  map (fun i => f (i mod 5)%nat (i / 5)%nat) (seq 0 25).

Definition keccak_round (st : list Z) (rc : Z) : list Z :=
  let C x :=
    Z.lxor (lane st x 0) (Z.lxor (lane st x 1) (Z.lxor (lane st x 2)
           (Z.lxor (lane st x 3) (lane st x 4)))) in
  let D x := Z.lxor (C ((x + 4) mod 5)%nat) (rotl64 (C ((x + 1) mod 5)%nat) 1) in
  let theta := lanes (fun x y => Z.lxor (lane st x y) (D x)) in
  let B x y :=
    let x0 := ((x + 3 * y) mod 5)%nat in
    rotl64 (lane theta x0 x) (nth (x0 + 5 * x)%nat keccak_rot 0) in
  let chi :=
    lanes (fun x y =>
      Z.lxor (B x y) (Z.land (not64 (B ((x + 1) mod 5)%nat y))
                             (B ((x + 2) mod 5)%nat y))) in
  match chi with
  | a :: rest => Z.lxor a rc :: rest
  | [] => []
  end.

Definition keccak_f (st : list Z) : list Z := fold_left keccak_round keccak_RC st.

(** SHAKE128 absorbs 168 bytes (21 lanes) at a time. *)
Definition shake128_rate : nat := 168.

Definition shake128_pad (msg : list Z) : list Z :=
  let q := (shake128_rate - length msg mod shake128_rate)%nat in
  if (q =? 1)%nat then msg ++ [0x9f]
  else msg ++ [0x1f] ++ repeat 0 (q - 2) ++ [0x80].

Definition shake128_absorb (st : list Z) (block : list Z) : list Z :=
  let ws := map of_le_bytes (chunks 8 21 block) in
  keccak_f (map (fun i => Z.lxor (nth i st 0) (nth i ws 0)) (seq 0 25)).

Definition shake128_out (st : list Z) : list Z :=
  flat_map (fun i => le_bytes 8 (nth i st 0)) (seq 0 21).

Fixpoint shake128_squeeze (blocks : nat) (st : list Z) : list Z :=
  match blocks with
  | O => []
  | S n => shake128_out st ++ shake128_squeeze n (keccak_f st)
  end.

Definition shake128_digest (msg : list Z) (n : nat) : list Z :=
  let padded := shake128_pad msg in
  let st :=
    fold_left shake128_absorb
              (chunks shake128_rate (length padded) padded) (repeat 0 25) in
  firstn n (shake128_squeeze (S (n / shake128_rate)) st).

(** [hashlib.shake_128(); m.update(msg); m.hexdigest(n)]: [n] bytes of
    output, written as [2 * n] hexadecimal characters. *)
Definition shake_128 (msg : string) (n : nat) : string :=
  hex_of_bytes (shake128_digest (bytes_of_string msg) n).

End Hashlib.

(* ===================================================================== *)
(** * Python values, exceptions and builtins *)
(* ===================================================================== *)

Module Py.

(** Exceptions, by class. [TypeError] keeps its message, [KeyError] its key.
    [OSError] stands for every [OSError] but [FileExistsError], which
    [os.makedirs] tells apart. [LogException] is what the project's [Logger]
    raises. *)
Inductive exn : Type :=
| TypeError (msg : string)
| KeyError (key : string)
| AttributeError
| AssertionError
| OSError
| FileExistsError
| EOFError
| PicklingError
| UnpicklingError
| LogException (msg : string).

(** The outcome of an expression: a value, or an exception on its way up. *)
Inductive result (A : Type) : Type :=
| Ok (a : A)
| Raise (e : exn).
Arguments Ok {A} a.
Arguments Raise {A} e.

#[global] Instance result_ret : MRet result := fun _ a => Ok a.
#[global] Instance result_bind : MBind result := fun _ _ f r =>
  match r with
  | Ok a => f a
  | Raise e => Raise e
  end.

(** Keys of a mapping: strings and integers. *)
Inductive key : Type :=
| KStr (s : string)
| KInt (z : Z).

(** The values the hasher distinguishes, one constructor per branch of
    [visit]:
    - [VNone]: [None];
    - [VFunction plain src]: a function in the sense of [isFunction], or a
      [property]; [plain] says whether it is a [types.LambdaType] (a plain
      Python function, [def] or [lambda]); [src] is what
      [inspect.getsourcelines] gives for it: the lines, or the exception it
      raises ([OSError] when the source cannot be found, [TypeError] for a
      builtin or a property);
    - [VStr], [VInt], [VBool]: values whose exact type is [str], [int], [bool];
    - [VRepr r]: any other value that is fed through [repr] as it is (a
      [float], a date, a time, a numpy scalar or array, a pandas DataFrame),
      given by its [repr] text [r], which is all the hasher reads of it;
    - [VMapping items]: a [Mapping], its items in insertion order;
    - [VCollection items]: any other [Collection], its elements in iteration
      order;
    - [VObject type_repr dict]: any other object [o], with the text of
      [type(o)] (as in ["<class 'object'>"]) and the value of
      [getattr(o, "__dict__", None)]. *)
Inductive value : Type :=
| VNone
| VFunction (plain : bool) (src : result (list string))
| VStr (s : string)
| VInt (z : Z)
| VBool (b : bool)
| VRepr (r : string)
| VMapping (items : list (key * value))
| VCollection (items : list value)
| VObject (type_repr : string) (dict : option value).

(** ** Strings *)

Definition dquote : ascii := ascii_of_nat 34.
Definition squote : ascii := ascii_of_nat 39.
Definition backslash : ascii := ascii_of_nat 92.
Definition slash : ascii := ascii_of_nat 47.
Definition underscore : ascii := ascii_of_nat 95.

Definition chars (s : string) : list ascii := list_ascii_of_string s.
Definition str (l : list ascii) : string := string_of_list_ascii l.

(** [s[:n]] and [s[n:]] for [0 <= n]. *)
Definition slice_to (n : nat) (s : string) : string := str (firstn n (chars s)).
Definition slice_from (n : nat) (s : string) : string := str (skipn n (chars s)).

(** [s[-n:]] for [0 < n]: the last [n] characters, all of [s] when it is
    shorter. *)
Definition slice_last (n : nat) (s : string) : string :=
  slice_from (String.length s - n) s.

(** [s[:-n]] for [0 < n]. *)
Definition slice_drop_last (n : nat) (s : string) : string :=
  slice_to (String.length s - n) s.

(** [s[-n-1:-1]] for [0 <= n]: the [n] characters before the last one. *)
Definition slice_before_last (n : nat) (s : string) : string :=
  let l := chars s in
  str (skipn (List.length l - (n + 1)) (firstn (List.length l - 1) l)).

(** [s[-1]] when [s] is not empty. *)
Definition last_char (s : string) : option ascii :=
  List.last (map Some (chars s)) None.

(** [s.lower()], on 7-bit text. *)
Definition lower_char (c : ascii) : ascii :=
  let n := nat_of_ascii c in
  if (65 <=? n)%nat && (n <=? 90)%nat then ascii_of_nat (n + 32) else c.
Definition lower (s : string) : string := str (map lower_char (chars s)).

(** [s.find(sub)]: the first index of [sub] in [s], or [-1]. *)
Definition find (sub s : string) : Z :=
  match String.index 0 sub s with
  | Some i => Z.of_nat i
  | None => (-1)%Z
  end.

(** [s.replace(old, "")] and [s.replace(old, new)] for single characters. *)
Definition remove_char (old : ascii) (s : string) : string :=
  str (List.filter (fun c => negb (Ascii.eqb c old)) (chars s)).
Definition replace_char (old new : ascii) (s : string) : string :=
  str (map (fun c => if Ascii.eqb c old then new else c) (chars s)).

(** [sep.join(l)]. *)
Definition join (sep : string) (l : list string) : string := String.concat sep l.

(** ** repr *)

Definition hex2 (n : nat) : string :=
  str (Hashlib.hex_of_byte (Z.of_nat n)).

(** One character of [repr(s)] inside the quotes [q]. Text is 7-bit: a
    character from 127 up is written as a [\x] escape, as Python writes the
    unprintable ones. *)
Definition repr_char (q : ascii) (c : ascii) : string :=
  let n := nat_of_ascii c in
  if Ascii.eqb c q || Ascii.eqb c backslash then str [backslash; c]
  else if (n =? 9)%nat then str [backslash; "t"%char]
  else if (n =? 10)%nat then str [backslash; "n"%char]
  else if (n =? 13)%nat then str [backslash; "r"%char]
  else if (n <? 32)%nat || (126 <? n)%nat then str [backslash; "x"%char] ++ hex2 n
  else str [c].

(** [repr(s)] for a [str]: single quotes, unless [s] holds a single quote and
    no double quote. *)
Definition repr_str (s : string) : string :=
  let has c := existsb (Ascii.eqb c) (chars s) in
  let q := if has squote && negb (has dquote) then dquote else squote in
  str [q] ++ String.concat "" (map (repr_char q) (chars s)) ++ str [q].

Definition repr_int (z : Z) : string :=
  DecimalString.NilZero.string_of_int (Z.to_int z).

Definition repr_bool (b : bool) : string := if b then "True" else "False".

(** [repr(l)] for a list of [str]. *)
Definition repr_list (l : list string) : string :=
  "[" ++ join ", " (map repr_str l) ++ "]".

Definition repr_key (k : key) : string :=
  match k with
  | KStr s => repr_str s
  | KInt z => repr_int z
  end.

(** ** Mapping keys: slicing, comparison, sorting *)

(** [k[:1] == '_'], the test both loops of [visit] use. An [int] cannot be
    sliced. *)
Definition starts_with_underscore (s : string) : bool :=
  String.eqb (slice_to 1 s) (str [underscore]).

Definition key_is_private (k : key) : result bool :=
  match k with
  | KStr s => Ok (starts_with_underscore s)
  | KInt _ => Raise (TypeError "'int' object is not subscriptable")
  end.

(** [a < b]: strings by code point, integers by value; a string and an
    integer do not compare (the message names the two types, here always in
    the same order). *)
Definition key_lt (a b : key) : result bool :=
  match a, b with
  | KStr s, KStr t => Ok (String.ltb s t)
  | KInt x, KInt y => Ok (Z.ltb x y)
  | _, _ =>
      Raise (TypeError "'<' not supported between instances of 'str' and 'int'")
  end.

Definition key_eqb (a b : key) : bool :=
  match a, b with
  | KStr s, KStr t => String.eqb s t
  | KInt x, KInt y => Z.eqb x y
  | _, _ => false
  end.

(** [sorted(keys)]: a stable sort that only asks [<]. [insort x l] puts [x]
    in front of the first element that is not below it. *)
Fixpoint insort (x : key) (l : list key) : result (list key) :=
  match l with
  | [] => Ok [x]
  | y :: l' =>
      below ← key_lt y x;
      if below : bool then l'' ← insort x l'; Ok (y :: l'') else Ok (x :: l)
  end.

Fixpoint sorted (l : list key) : result (list key) :=
  match l with
  | [] => Ok []
  | x :: l' => s ← sorted l'; insort x s
  end.

(** ** dict with [str] keys *)

(** [k in d], [d.get(k)] as an option, [d[k] = v] (a new key goes last) and
    [d.update(other)], on the items in insertion order. *)
Definition dict_get (k : string) (d : list (string * value)) : option value :=
  snd <$> List.find (fun kv => String.eqb kv.1 k) d.

Fixpoint dict_setitem (k : string) (v : value) (d : list (string * value))
  : list (string * value) :=
  match d with
  | [] => [(k, v)]
  | (k', v') :: d' =>
      if String.eqb k' k then (k', v) :: d' else (k', v') :: dict_setitem k v d'
  end.

Definition dict_update (d other : list (string * value))
  : list (string * value) :=
  fold_left (fun d kv => dict_setitem kv.1 kv.2 d) other d.

(** ** Formatting integers *)

(** ["%ld" % n] and ["%02ld" % n]: decimal digits, padded with a zero to two
    characters. *)
Definition fmt_ld (n : Z) : string := repr_int n.

Definition fmt_02ld (n : Z) : string :=
  let digits := repr_int n in
  if (String.length digits <? 2)%nat then "0" ++ digits else digits.

(** ** os.path.split (posixpath) *)

Fixpoint take_while {A} (p : A -> bool) (l : list A) : list A :=
  match l with
  | [] => []
  | x :: l' => if p x then x :: take_while p l' else []
  end.

Fixpoint drop_while {A} (p : A -> bool) (l : list A) : list A :=
  match l with
  | [] => []
  | x :: l' => if p x then drop_while p l' else l
  end.

(** [i = p.rfind('/') + 1; head, tail = p[:i], p[i:]]; the slashes that end
    [head] are stripped unless it is made of slashes only. *)
Definition os_path_split (p : string) : string * string :=
  let r := rev (chars p) in
  let tail := rev (take_while (fun c => negb (Ascii.eqb c slash)) r) in
  let head := rev (drop_while (fun c => negb (Ascii.eqb c slash)) r) in
  let head' :=
    if forallb (Ascii.eqb slash) head then head
    else rev (drop_while (Ascii.eqb slash) (rev head)) in
  (str head', str tail).

(** ** os.path.normpath, os.path.join and os.path.abspath (posixpath) *)

(** [s.split(sep)] for a single character. *)
Fixpoint split_chars (sep : ascii) (l : list ascii) : list (list ascii) :=
  match l with
  | [] => [[]]
  | c :: l' =>
      if Ascii.eqb c sep then [] :: split_chars sep l'
      else match split_chars sep l' with
           | [] => [[c]]
           | w :: ws => (c :: w) :: ws
           end
  end.

Definition split (sep : ascii) (s : string) : list string :=
  map str (split_chars sep (chars s)).

Definition startswith (prefix s : string) : bool := String.prefix prefix s.

Definition is_nil {A} (l : list A) : bool :=
  match l with
  | [] => true
  | _ :: _ => false
  end.

(** One turn of the loop of [normpath] over the components. *)
Definition normpath_step (initial_slashes : nat) (new_comps : list string)
    (comp : string) : list string :=
  if String.eqb comp "" || String.eqb comp "." then new_comps
  else if negb (String.eqb comp "..")
          || ((initial_slashes =? 0)%nat && is_nil new_comps)
          || (negb (is_nil new_comps)
              && String.eqb (List.last new_comps "") "..")
  then new_comps ++ [comp]
  else removelast new_comps.

(** [os.path.normpath(path)]: empty and [.] components go, [..] takes the
    component before it away; one or two slashes at the start are kept, three
    or more are one. *)
Definition os_path_normpath (path : string) : string :=
  if String.eqb path "" then "."
  else
    let initial_slashes :=
      if startswith "/" path then
        if startswith "//" path && negb (startswith "///" path) then 2 else 1
      else 0 in
    let comps :=
      fold_left (normpath_step initial_slashes) (split slash path) [] in
    let path := str (repeat slash initial_slashes) ++ join "/" comps in
    if String.eqb path "" then "." else path.

Definition os_path_isabs (s : string) : bool := startswith "/" s.

(** [os.path.join(a, b)]. *)
Definition os_path_join (a b : string) : string :=
  if startswith "/" b then b
  else if String.eqb a "" || bool_decide (last_char a = Some slash) then a ++ b
  else a ++ "/" ++ b.

(** [os.path.abspath(path)] in the working directory [cwd]. *)
Definition os_path_abspath (cwd path : string) : string :=
  os_path_normpath (if os_path_isabs path then path else os_path_join cwd path).

End Py.

(* ===================================================================== *)
(** * util.py: the hasher and the cache modes *)
(* ===================================================================== *)

Module Util.
Import Py.

(** [_compress_function_code(f)]. [types.LambdaType] is [types.FunctionType],
    so the first line of every plain function is cut after the first
    ["lambda "], or after six characters when there is none ([find] returns
    [-1]). *)
Definition _compress_function_code (plain : bool)
    (src : result (list string)) : result (list string) :=
  src ← src;
  src ← (if plain then
           match src with
           | [] => Raise AssertionError
           | l :: rest =>
               let i := find "lambda " (lower l) in
               Ok (slice_from (Z.to_nat (i + 7)) l :: rest)
           end
         else Ok src);
  Ok (map (fun l => remove_char (ascii_of_nat 10)
                      (remove_char " "%char
                         (replace_char (ascii_of_nat 9) " "%char l))) src).

(** The digest object [m] is the byte string fed so far:
    [update(s)] is [m.update(repr(s).encode('utf-8'))], and the text of
    [repr] is 7-bit, so its encoding is the text itself. *)
Definition update (repr_s : string) (m : string) : string := m ++ repr_s.

(** [inn[k]]. *)
Fixpoint getitem {V} (inn : list (key * V)) (k : key) : result V :=
  match inn with
  | [] => Raise (KeyError (repr_key k))
  | (k', v) :: inn' => if key_eqb k' k then Ok v else getitem inn' k
  end.

(** What [visit(x)] does to the digest object, for a given [x]. *)
Definition traversal : Type := string -> result string.

(** The loop of the mapping branch over the sorted keys [inn_]; every value
    of [inn] comes with its own traversal, [visit(inn[k])]. *)
Fixpoint visit_keys (inn : list (key * traversal))
    (inn_ : list key) (m : string) : result string :=
  match inn_ with
  | [] => Ok m
  | k :: rest =>
      private ← key_is_private k;
      if private : bool then visit_keys inn rest m
      else
        visit_value ← getitem inn k;
        m ← visit_value (update (repr_key k) m);
        visit_keys inn rest m
  end.

Definition visit_mapping (inn : list (key * traversal))
    (m : string) : result string :=
  inn_ ← sorted (map fst inn);
  visit_keys inn inn_ m.

(** [isinstance(k, str) and k[:1] == "_"]. *)
Definition element_is_private (k : value) : bool :=
  match k with
  | VStr s => starts_with_underscore s
  | _ => false
  end.

(** The loop of the collection branch; every element comes with its own
    traversal, [visit(k)]. *)
Fixpoint visit_elements (inn : list (value * traversal))
    (m : string) : result string :=
  match inn with
  | [] => Ok m
  | (k, visit_k) :: rest =>
      if element_is_private k then visit_elements rest m
      else m ← visit_k m; visit_elements rest m
  end.

(** [visit(inn)] of [unique_hash], threading the digest object. *)
Fixpoint visit (parse_functions : bool) (inn : value) (m : string) {struct inn}
  : result string :=
  match inn with
  (* basics *)
  | VNone => Ok m
  (* by default do not handle functions *)
  | VFunction plain src =>
      if parse_functions then
        code ← _compress_function_code plain src;
        Ok (update (repr_list code) m)
      else Ok m
  (* basic elements; some standard types; numpy; pandas *)
  | VStr s => Ok (update (repr_str s) m)
  | VInt z => Ok (update (repr_int z) m)
  | VBool b => Ok (update (repr_bool b) m)
  | VRepr r => Ok (update r m)
  (* dictionaries, and similar *)
  | VMapping items =>
      visit_mapping
        (map (fun kv => let '(k, v) := kv in (k, visit parse_functions v)) items) m
  (* lists, tuples and everything which looks like it *)
  | VCollection items =>
      visit_elements (map (fun k => (k, visit parse_functions k)) items) m
  (* objects: treat like dictionaries *)
  | VObject type_repr dict =>
      match dict with
      | None | Some VNone =>
          Raise (TypeError ("Cannot handle type " ++ type_repr))
      | Some inn_ =>
          match inn_ with
          | VMapping _ => visit parse_functions inn_ m
          | _ => Raise AssertionError
          end
      end
  end.

(** A [dict] with [str] keys, its items in insertion order; keyword
    arguments are one, in the order of the call. *)
Definition str_dict (items : list (string * value)) : value :=
  VMapping (map (fun kv => (KStr kv.1, kv.2)) items).

(** The function [unique_hash] that [uniqueHashExt(length, parse_functions)]
    returns, applied to positional arguments [args] and keyword arguments
    [kwargs]. *)
Definition uniqueHashExt (length : option nat) (parse_functions : bool)
    (args : list value) (kwargs : list (string * value)) : result string :=
  m ← visit parse_functions (VCollection args) "";
  m ← visit parse_functions (str_dict kwargs) m;
  Ok (match length with
      | None => Hashlib.md5 m
      | Some length => Hashlib.shake_128 m (length / 2)
      end).

Definition uniqueHash := uniqueHashExt None false.
Definition uniqueHash32 := uniqueHashExt (Some 32) false.
Definition uniqueHash48 := uniqueHashExt (Some 48) false.
Definition uniqueHash64 := uniqueHashExt (Some 64) false.

(** ** Conversion into plain structures *)

(** The objects [plain] tells apart, one constructor per branch:
    - [ONone]: [None];
    - [OAsIs r]: a value returned as it is (atomic in the sense of
      [isAtomic], a date, time or datetime, a numpy array), given by its
      [repr];
    - [OFunction]: a function in the sense of [isFunction];
    - [OProperty]: a [property];
    - [ODict items]: a [dict], its items in insertion order;
    - [ODataFrame columns index]: a pandas DataFrame with its [columns] and
      its [index];
    - [OIterable items]: any other object with [__iter__] (a list, a tuple,
      a set), its elements in iteration order;
    - [OObject type_repr dict]: any other object [o], with the text of
      [type(o)] and the items of its [__dict__], [None] when it has none. *)
Inductive pyobj : Type :=
| ONone
| OAsIs (r : string)
| OFunction
| OProperty
| ODict (items : list (key * pyobj))
| ODataFrame (columns index : pyobj)
| OIterable (items : list pyobj)
| OObject (type_repr : string) (dict : option (list (string * pyobj))).

(** [[f(x) for x in l if p(x)]], stopping at the first exception. *)
Definition comprehension_if {A B} (p : A -> bool) (f : A -> result B)
  : list A -> result (list B) :=
  fix go l :=
    match l with
    | [] => Ok []
    | x :: l' => if p x then y ← f x; ys ← go l'; Ok (y :: ys) else go l'
    end.

(** [[f(x) for x in l]]. *)
Definition comprehension {A B} (f : A -> result B) : list A -> result (list B) :=
  comprehension_if (fun _ => true) f.

(** [isFunction(x)] on the objects of [plain]. *)
Definition is_function (x : pyobj) : bool :=
  match x with
  | OFunction => true
  | _ => false
  end.

(** [plain(inn)]. For a DataFrame the three recursive calls are made (the one
    on [to_numpy()] returns the array as it is) and nothing is returned. *)
Fixpoint plain (inn : pyobj) : result pyobj :=
  match inn with
  (* basics *)
  | ONone | OAsIs _ => Ok inn
  (* can't handle functions --> return None *)
  | OFunction | OProperty => Ok ONone
  (* dictionaries *)
  | ODict items =>
      out ← comprehension
              (fun kv => let '(k, x) := kv in x' ← plain x; Ok (k, x')) items;
      Ok (ODict out)
  (* pandas *)
  | ODataFrame columns index =>
      _ ← plain columns;
      _ ← plain index;
      Ok ONone
  (* lists, tuples and everything which looks like it --> lists *)
  | OIterable items =>
      out ← comprehension plain items;
      Ok (OIterable out)
  (* handle objects as dictionaries, removing all functions *)
  | OObject _ (Some dict) =>
      out ← comprehension_if (fun kv => negb (is_function kv.2))
              (fun kv => let '(k, x) := kv in x' ← plain x; Ok (KStr k, x'))
              dict;
      Ok (ODict out)
  (* nothing we can do *)
  | OObject type_repr None =>
      Raise (TypeError ("Cannot handle type " ++ type_repr))
  end.

(** ** Functional programming *)

(** [bind(F, **kwargs)], then a call of the [binder] it returns. *)
Definition bind {A} (F : list value -> list (string * value) -> A)
    (kwargs : list (string * value))
    (liveargs : list value) (livekwargs : list (string * value)) : A :=
  let kwargs_ := kwargs in
  let k := livekwargs in
  let k := dict_update k kwargs_ in
  F liveargs k.

(** ** Some formatting *)

(** [fmt_seconds(seconds)]. *)
Definition fmt_seconds (seconds : Z) : string :=
  if (seconds <? 60)%Z then fmt_ld seconds ++ "s"
  else if (seconds <? 60 * 60)%Z then
    fmt_ld (seconds / 60) ++ ":" ++ fmt_02ld (seconds mod 60)
  else
    fmt_ld (seconds / 60 / 60) ++ ":" ++ fmt_02ld ((seconds / 60) mod 60)
      ++ ":" ++ fmt_02ld (seconds mod 60).

(** [fmt_list(lst, none)], for a list given by the [str()] of its elements. *)
Definition fmt_list (lst : option (list string)) (none : string) : string :=
  match lst with
  | None => none
  | Some lst =>
      match lst with
      | [] => none
      | [x] => x
      | [x; y] => x ++ " and " ++ y
      | _ =>
          let s := fold_left (fun s k => s ++ k ++ ", ") (removelast lst) "" in
          slice_drop_last 2 s ++ " and " ++ List.last lst ""
      end
  end.

(** ** class CacheMode *)

Module CacheMode.

Definition ON := "on".
Definition GEN := "gen".
Definition OFF := "off".
Definition UPDATE := "update".
Definition CLEAR := "clear".
Definition READONLY := "readonly".

Definition MODES : list string := [ON; GEN; OFF; UPDATE; CLEAR; READONLY].

Record t : Type := Build
  { mode : string; _read : bool; _write : bool; _delete : bool; _del_in : bool }.

(** [x in l] for strings. *)
Definition str_in (x : string) (l : list string) : bool :=
  existsb (String.eqb x) l.

(** The argument of the constructor: another [CacheMode], or a value given
    by its [str()]. *)
Inductive arg : Type :=
| OfMode (m : t)
| OfStr (s : string).

Definition __init__ (mode : option arg) : result t :=
  let mode := match mode with None => OfStr ON | Some mode => mode end in
  let self_mode :=
    match mode with OfMode m => m.(CacheMode.mode) | OfStr s => s end in
  if negb (str_in self_mode MODES) then Raise (KeyError self_mode)
  else Ok {| mode := self_mode;
             _read := str_in self_mode [ON; READONLY; GEN];
             _write := str_in self_mode [ON; UPDATE; GEN];
             _delete := str_in self_mode [UPDATE; CLEAR];
             _del_in := str_in self_mode [UPDATE; CLEAR; ON] |}.

(** The properties. *)
Definition read (self : t) : bool := self.(_read).
Definition write (self : t) : bool := self.(_write).
Definition delete (self : t) : bool := self.(_delete).
Definition del_incomp (self : t) : bool := self.(_del_in).
Definition is_off (self : t) : bool := String.eqb self.(mode) OFF.
Definition is_on (self : t) : bool := String.eqb self.(mode) ON.
Definition is_gen (self : t) : bool := String.eqb self.(mode) GEN.
Definition is_update (self : t) : bool := String.eqb self.(mode) UPDATE.
Definition is_clear (self : t) : bool := String.eqb self.(mode) CLEAR.
Definition is_readonly (self : t) : bool := String.eqb self.(mode) READONLY.

End CacheMode.

End Util.

(* ===================================================================== *)
(** * subdir.py: the file-backed store and the caching wrapper *)
(* ===================================================================== *)

Module Subdir.
Import Py.

(** ** The world *)

(** What a file holds, as [pickle.load] sees it: the pickle of a value
    ([pickle.dump] followed by [pickle.load] gives the value back), a file on
    which [pickle.load] raises [EOFError] (an empty file, for one), or a file
    on which it raises another error ([UnpicklingError]). *)
Inductive content : Type :=
| Pickled (v : value)
| Truncated
| Garbled.

Inductive node : Type :=
| Dir
| File (c : content).

(** The file system by full path, the warnings logged so far, the three
    attributes the wrapper sets on itself ([None] while unset), and the number
    of times the body of the wrapped function has run; then two things no
    statement changes: the exception [pickle.dump] raises on a value, [None]
    for a value it can serialize (functions and classes are pickled by name,
    so this depends on what the process can import), and the working
    directory. *)
Record state : Type := State
  { fs : gmap string node;
    warnings : list string;
    cached : option value;
    cacheArgKey : option value;
    cacheFullKey : option value;
    calls : nat;
    pickle_error : value -> option exn;
    cwd : string }.

Definition set_fs (f : gmap string node -> gmap string node) (s : state)
  : state :=
  State (f s.(fs)) s.(warnings) s.(cached) s.(cacheArgKey) s.(cacheFullKey)
        s.(calls) s.(pickle_error) s.(cwd).
Definition add_warning (w : string) (s : state) : state :=
  State s.(fs) (s.(warnings) ++ [w]) s.(cached) s.(cacheArgKey)
        s.(cacheFullKey) s.(calls) s.(pickle_error) s.(cwd).
Definition set_cached (v : value) (s : state) : state :=
  State s.(fs) s.(warnings) (Some v) s.(cacheArgKey) s.(cacheFullKey) s.(calls)
        s.(pickle_error) s.(cwd).
Definition set_cacheArgKey (v : value) (s : state) : state :=
  State s.(fs) s.(warnings) s.(cached) (Some v) s.(cacheFullKey) s.(calls)
        s.(pickle_error) s.(cwd).
Definition set_cacheFullKey (v : value) (s : state) : state :=
  State s.(fs) s.(warnings) s.(cached) s.(cacheArgKey) (Some v) s.(calls)
        s.(pickle_error) s.(cwd).
Definition count_call (s : state) : state :=
  State s.(fs) s.(warnings) s.(cached) s.(cacheArgKey) s.(cacheFullKey)
        (S s.(calls)) s.(pickle_error) s.(cwd).

(** Statements run in a state and end with a value or an exception; what
    was done before an exception stays done. *)
Definition M (A : Type) : Type := state -> result A * state.

#[global] Instance M_ret : MRet M := fun _ a s => (Ok a, s).
#[global] Instance M_bind : MBind M := fun _ _ f m s =>
  match m s with
  | (Ok a, s') => f a s'
  | (Raise e, s') => (Raise e, s')
  end.

Definition raise {A} (e : exn) : M A := fun s => (Raise e, s).
Definition lift {A} (r : result A) : M A := fun s => (r, s).
Definition get : M state := fun s => (Ok s, s).
Definition modify (f : state -> state) : M unit := fun s => (Ok tt, f s).

(** [try: body except EOFError: handler],
    [try: body except FileExistsError: handler] and
    [try: body except Exception: handler]. *)
Definition except_EOFError {A} (body handler : M A) : M A := fun s =>
  match body s with
  | (Raise EOFError, s') => handler s'
  | returned_or_raised => returned_or_raised
  end.

Definition except_FileExistsError {A} (body handler : M A) : M A := fun s =>
  match body s with
  | (Raise FileExistsError, s') => handler s'
  | returned_or_raised => returned_or_raised
  end.

Definition except_Exception {A} (body handler : M A) : M A := fun s =>
  match body s with
  | (Raise _, s') => handler s'
  | returned => returned
  end.

(** Modelled from the spec: the project's [Logger] ([cdxbasics/logger.py]),
    which "fails with <ErrorKind>": [_log.verify(cond, text)] raises when
    [cond] is false. *)
Definition verify (cond : bool) (text : string) : M unit :=
  if cond then mret tt else raise (LogException text).

(** Modelled from the spec: [_log.warning(text)] of the project's [Logger]
    records the text and goes on. *)
Definition warning (text : string) : M unit := modify (add_warning text).

(** ** os *)

Definition os_path_exists (p : string) : M bool :=
  s ← get;
  mret (match s.(fs) !! p with Some _ => true | None => false end).

Definition os_path_isfile (p : string) : M bool :=
  s ← get;
  mret (match s.(fs) !! p with Some (File _) => true | _ => false end).

Definition os_path_isdir (p : string) : M bool :=
  s ← get;
  mret (match s.(fs) !! p with Some Dir => true | _ => false end).

Definition os_remove (p : string) : M unit :=
  s ← get;
  match s.(fs) !! p with
  | Some (File _) => modify (set_fs (delete p))
  | _ => raise OSError
  end.

(** [os.mkdir(name)]: [name] must not exist, and the directory it lies in
    must; a name without directory part lies in the working directory, and
    the root lies in itself. *)
Definition os_mkdir (name : string) : M unit :=
  s ← get;
  match s.(fs) !! name with
  | Some _ => raise FileExistsError
  | None =>
      let head := (os_path_split name).1 in
      if String.eqb head "" || String.eqb head name then
        modify (set_fs (insert name Dir))
      else
        match s.(fs) !! head with
        | Some Dir => modify (set_fs (insert name Dir))
        | _ => raise OSError
        end
  end.

(** [os.makedirs(name)], as the [os] module writes it: the directory above
    is made first when it does not exist, then [name]. Every turn goes to a
    shorter name, so as many turns as [name] has characters suffice. *)
Fixpoint makedirs (turns : nat) (name : string) : M unit :=
  match turns with
  | O => os_mkdir name
  | S turns =>
      let '(head, tail) := os_path_split name in
      let '(head, tail) :=
        if String.eqb tail "" then os_path_split head else (head, tail) in
      if negb (String.eqb head "") && negb (String.eqb tail "") then
        found ← os_path_exists head;
        if negb found then
          _ ← except_FileExistsError (makedirs turns head) (mret tt);
          if String.eqb tail "." then mret tt else os_mkdir name
        else os_mkdir name
      else os_mkdir name
  end.

Definition os_makedirs (name : string) : M unit :=
  makedirs (String.length name) name.

(** ** class SubDir *)

Record SubDir : Type := { path : string; ext : string }.

(** [SubDir(root, subdir)] for a [root] that is a [SubDir]: the new path
    with its checks, made absolute, and the directory made when it is not
    there. *)
Definition SubDir_init (root : SubDir) (subdir : string) : M SubDir :=
  let ext := root.(ext) in
  subdir ←
    (if (0 <? String.length subdir)%nat then
       if bool_decide (last_char subdir = Some backslash) then
         raise (TypeError "'str' object does not support item assignment")
       else
         let subdir :=
           if bool_decide (last_char subdir = Some slash) then subdir
           else subdir ++ "/" in
         _ ← verify (negb (String.eqb subdir "/"))
               "'subdir' cannot be the root symbol";
         mret subdir
     else mret subdir);
  let path := root.(path) ++ subdir in
  _ ← (if (0 <? String.length ext)%nat
          && (String.length ext <? String.length path)%nat
       then
         let sd := slice_before_last (String.length ext) path in
         verify (negb (String.eqb sd ext))
           "Cannot specify sub directory as it contains extension"
       else mret tt);
  (* expand from current working directory *)
  s ← get;
  let path := os_path_abspath s.(cwd) (slice_drop_last 1 path) ++ "/" in
  let path := replace_char backslash slash path in
  (* create directory *)
  found ← os_path_exists (slice_drop_last 1 path);
  _ ← (if negb found then os_makedirs (slice_drop_last 1 path)
       else
         isdir ← os_path_isdir (slice_drop_last 1 path);
         verify isdir
           "Cannot use sub directory: object exists but is not a directory");
  mret {| path := path; ext := ext |}.

Definition subDir (self : SubDir) (subdir : string) : M SubDir :=
  SubDir_init self subdir.

Definition fullKeyName (self : SubDir) (key : string) : string :=
  if (0 <? String.length self.(ext))%nat
     && negb (String.eqb (slice_last (String.length self.(ext)) key) self.(ext))
  then self.(path) ++ key ++ self.(ext)
  else self.(path) ++ key.

(** [reader] of [read]: [open(fullFileName, "rb")], then [pickle.load]. *)
Definition reader (key fullFileName : string) (default : value) : M value :=
  s ← get;
  match s.(fs) !! fullFileName with
  | Some (File (Pickled v)) => mret v
  | Some (File Truncated) => raise EOFError
  | Some (File Garbled) => raise UnpicklingError
  | Some Dir | None => raise OSError
  end.

(** The two warnings of [_read]. *)
Definition file_deleted (key fullFileName : string) : string :=
  "Cannot read " ++ key ++ "; file deleted (full path " ++ fullFileName ++ ")".
Definition delete_failed (key fullFileName : string) : string :=
  "Cannot read " ++ key ++ "; attempt to delete file failed (full path "
    ++ fullFileName ++ ")".

(** [_read] for a [key] that is a [str]. With a directory in [key] the source
    calls [SubDir(self, sub)._read(reader, key, default)], one argument
    short. *)
Definition _read (self : SubDir) (key : string) (default : value)
    (throwOnError : bool) : M value :=
  _ ← verify (0 <? String.length key)%nat "'relFileOrDir' not specified";
  let '(sub, key) := os_path_split key in
  if (0 <? String.length sub)%nat then
    _ ← SubDir_init self sub;
    raise (TypeError
             "_read() missing 1 required positional argument: 'throwOnError'")
  else
    _ ← verify (0 <? String.length key)%nat
          "'relFileOrDir' indicates a directory, not a file";
    (* does file exit? *)
    let fullFileName := fullKeyName self key in
    found ← os_path_exists fullFileName;
    if negb found then
      if throwOnError then raise (KeyError key) else mret default
    else
      isfile ← os_path_isfile fullFileName;
      _ ← verify isfile "Cannot read: object exists, but is not a file";
      (* read content *)
      except_EOFError (reader key fullFileName default)
        (_ ← except_Exception
               (_ ← os_remove fullFileName;
                warning (file_deleted key fullFileName))
               (warning (delete_failed key fullFileName));
         if throwOnError then raise (KeyError key) else mret default).

Definition read (self : SubDir) (key : string) (default : value)
    (throwOnError : bool) : M value :=
  _read self key default throwOnError.

(** [writer] of [write]: [open(fullFileName, "wb")], which leaves an empty
    file, then [pickle.dump], which fills it or raises; what a failed
    [pickle.dump] leaves behind is a file on which [pickle.load] raises
    [EOFError]. *)
Definition writer (key fullFileName : string) (obj : value) : M unit :=
  s ← get;
  match s.(fs) !! fullFileName with
  | Some Dir => raise OSError
  | _ =>
      match s.(pickle_error) obj with
      | None => modify (set_fs (insert fullFileName (File (Pickled obj))))
      | Some e =>
          _ ← modify (set_fs (insert fullFileName (File Truncated)));
          raise e
      end
  end.

(** [_write] for a [key] that is a [str]. The call on [SubDir(self, sub)]
    gets a [key] without directory, so it does not recurse again. *)
Definition _write (self : SubDir) (key : string) (obj : value) : M unit :=
  _ ← verify (0 <? String.length key)%nat "'key' is empty";
  let '(sub, key) := os_path_split key in
  _ ← verify (0 <? String.length key)%nat
        "'key' indicates a directory, not a file";
  if (0 <? String.length sub)%nat then
    self ← SubDir_init self sub;
    writer key (fullKeyName self key) obj
  else
    writer key (fullKeyName self key) obj.

Definition write (self : SubDir) (key : string) (obj : value) : M unit :=
  _write self key obj.

(** [delete] for a [key] that is a [str]. *)
Definition delete (self : SubDir) (key : string) (throwOnError : bool) : M unit :=
  _ ← verify (0 <? String.length key)%nat "'key' is empty";
  let '(sub, key2) := os_path_split key in
  _ ← verify (0 <? String.length key2)%nat "'key' indicates a directory, not a file";
  let fullFileName := fullKeyName self key in
  found ← os_path_exists fullFileName;
  if negb found then
    if throwOnError then raise (KeyError key) else mret tt
  else os_remove fullFileName.

(** [exists] for a [key] that is a [str]. *)
Definition exists_ (self : SubDir) (key : string) : M bool :=
  let fullFileName := fullKeyName self key in
  found ← os_path_exists fullFileName;
  if negb found then mret false
  else
    isfile ← os_path_isfile fullFileName;
    if negb isfile then
      raise (LogException "Structural error: key exists, but is not a file")
    else mret true.

Definition __getitem__ (self : SubDir) (key : string) : M value :=
  read self key VNone true.
Definition __setitem__ (self : SubDir) (key : string) (value : value) : M unit :=
  write self key value.
Definition __contains__ (self : SubDir) (key : string) : M bool :=
  exists_ self key.

Definition __delitem__ (self : SubDir) (key : string) : M unit :=
  delete self key true.

(** ** Listing and clearing a directory *)

(** The name of the entry at [p] when [p] lies directly in the directory
    [dir], a path that ends with a slash. *)
Definition entry_name (dir p : string) : option string :=
  if String.prefix dir p then
    let name := slice_from (String.length dir) p in
    if (0 <? String.length name)%nat
       && forallb (fun c => negb (Ascii.eqb c slash)) (chars name)
    then Some name else None
  else None.

(** [os.scandir(dir)]: the entries of the directory by name, each with what
    it is, in the arbitrary order of the file system. The directory of a
    [SubDir] exists, its constructor makes it. *)
Definition os_scandir (dir : string) : M (list (string * node)) :=
  s ← get;
  mret (omap (fun pn => name ← entry_name dir pn.1; Some (name, pn.2))
          (map_to_list s.(fs))).

(** The key [keys] appends for an entry, if it appends one. *)
Definition key_of_entry (self : SubDir) (entry : string * node) : option string :=
  let ext_l := String.length self.(ext) in
  let '(name, n) := entry in
  match n with
  | Dir => None
  | File _ =>
      if (0 <? ext_l)%nat then
        if (String.length name <=? ext_l)%nat
           || negb (String.eqb (slice_last ext_l name) self.(ext))
        then None
        else Some (slice_to (String.length name - ext_l) name)
      else Some name
  end.

Definition keys (self : SubDir) : M (list string) :=
  it ← os_scandir self.(path);
  mret (omap (key_of_entry self) it).

Definition __len__ (self : SubDir) : M nat :=
  ks ← keys self;
  mret (List.length ks).

(** [delete] for a [key] that is a list of [str]: each one is deleted with
    the default [throwOnError = False], whatever [throwOnError] is. *)
Fixpoint delete_each (self : SubDir) (key : list string) (throwOnError : bool)
  : M unit :=
  match key with
  | [] => mret tt
  | k :: key' => _ ← delete self k false; delete_each self key' throwOnError
  end.

Definition deleteAllKeys (self : SubDir) (throwOnError : bool) : M unit :=
  ks ← keys self;
  delete_each self ks throwOnError.

(** ** Calling a directory *)

(** What [self(key, default, subdir)] returns: a directory or a value. *)
Inductive called : Type :=
| ADir (d : SubDir)
| AValue (v : value).

(** [__call__] without [subdir], for a [key] that is a [str]. *)
Definition call_with_key (self : SubDir) (key : string) (default : value)
  : M called :=
  let '(sub, key) := os_path_split key in
  if (String.length key =? 0)%nat then
    d ← SubDir_init self sub; mret (ADir d)
  else
    (* read *)
    v ← read self key default false; mret (AValue v).

(** [__call__], for a [key] that is [None] or a [str]. *)
Definition __call__ (self : SubDir) (key : option string) (default : value)
    (subdir : option string) : M called :=
  match key with
  | None =>
      _ ← verify (match default with VNone => true | _ => false end)
            "Cannot specify 'default' if 'key' is None";
      match subdir with
      | None => raise (LogException "Must specify 'sub' if 'key' is None")
      | Some subdir => d ← SubDir_init self subdir; mret (ADir d)
      end
  | Some key =>
      match subdir with
      | Some subdir =>
          d ← SubDir_init self subdir;
          call_with_key d key default
      | None => call_with_key self key default
      end
  end.

(** ** Automatic caching *)

(** A function to wrap: its [__module__], its [__name__] and its body, from
    positional and keyword arguments to a value or an exception. A run of the
    body is counted in [calls]. *)
Record function : Type :=
  { __module__ : string;
    __name__ : string;
    body : list value -> list (string * value) -> result value }.

Definition call (f : function) (vargs : list value)
    (kwargs : list (string * value)) : M value :=
  _ ← modify count_call;
  lift (f.(body) vargs kwargs).

(** Keyword arguments as a [dict]: [k in kwargs], [kwargs[k]], [del kwargs[k]]. *)
Definition kw_get (k : string) (kwargs : list (string * value)) : option value :=
  snd <$> List.find (fun kv => String.eqb kv.1 k) kwargs.
Definition kw_del (k : string) (kwargs : list (string * value))
  : list (string * value) :=
  List.filter (fun kv => negb (String.eqb kv.1 k)) kwargs.

(** [x.lower()]: only a [str] has the method. *)
Definition value_lower (x : value) : M string :=
  match x with
  | VStr s => mret (lower s)
  | _ => raise AttributeError
  end.

(** The directory of the cache of [f]: the first two statements of [cache]. *)
Definition cache_subDir (self : SubDir) (f : function)
    (cacheName cacheSubDir : option string) : M SubDir :=
  f_subDir ← subDir self (match cacheSubDir with
                          | None => slice_to 64 f.(__module__)
                          | Some d => d
                          end);
  subDir f_subDir (match cacheName with
                   | None => slice_to 64 f.(__name__)
                   | Some n => n
                   end).

(** [wrapper] as defined inside [cache], for the directory [f_subDir]. *)
Definition wrapper (f_subDir : SubDir) (f : function) (vargs : list value)
    (kwargs : list (string * value)) : M value :=
  '(caching, kwargs) ←
    match kw_get "caching" kwargs with
    | Some c => caching ← value_lower c; mret (caching, kw_del "caching" kwargs)
    | None => mret ("yes", kwargs)
    end;
  (* simply no caching *)
  if String.eqb caching "no" then
    _ ← modify (set_cached (VBool false));
    _ ← modify (set_cacheArgKey VNone);
    _ ← modify (set_cacheFullKey VNone);
    call f vargs kwargs
  else
    _ ← verify (Util.CacheMode.str_in caching ["yes"; "clear"; "update"])
          "'caching': argument must be 'yes', 'no', 'clear', or 'update'";
    (* compute key *)
    key ← lift (Util.uniqueHash
                  [VStr f.(__module__); VStr f.(__name__); VCollection vargs;
                   Util.str_dict kwargs] []);
    _ ← modify (set_cacheArgKey (VStr key));
    _ ← modify (set_cacheFullKey (VStr (fullKeyName f_subDir key)));
    _ ← modify (set_cached (VBool false));
    (* clear? *)
    _ ← (if negb (String.eqb caching "yes") then delete f_subDir key false
         else mret tt);
    if String.eqb caching "clear" then call f vargs kwargs
    else
      (* use cache *)
      hit ← (if String.eqb caching "yes" then __contains__ f_subDir key
             else mret false);
      if hit : bool then
        _ ← modify (set_cached (VBool true));
        __getitem__ f_subDir key
      else
        value ← call f vargs kwargs;
        _ ← write f_subDir key value;
        _ ← __setitem__ f_subDir key value;
        mret value.

(** [self.cache(f, cacheName, cacheSubDir)] and then a call of the result. *)
Definition cache (self : SubDir) (f : function)
    (cacheName cacheSubDir : option string) (vargs : list value)
    (kwargs : list (string * value)) : M value :=
  f_subDir ← cache_subDir self f cacheName cacheSubDir;
  wrapper f_subDir f vargs kwargs.

End Subdir.

(* ===================================================================== *)
(** * Vocabulary of the statements *)
(* ===================================================================== *)

Import Py Util Subdir.

(** ** Digests and keys *)

Definition is_hex (c : ascii) : bool :=
  existsb (Ascii.eqb c) (list_ascii_of_string "0123456789abcdef").

(** A key without directory part: not empty and free of slashes. *)
Definition plain_key (key : string) : Prop :=
  (0 <? String.length key)%nat = true
  /\ forallb (fun c => negb (Ascii.eqb c slash)) (chars key) = true.

(** The key the wrapper computes for a call of [f]:
    [uniqueHash(f.__module__, f.__name__, vargs, kwargs)]. *)
Definition call_key (f : function) (vargs : list value)
    (kwargs : list (string * value)) : result string :=
  uniqueHash
    [VStr f.(__module__); VStr f.(__name__); VCollection vargs; str_dict kwargs]
    [].

(** The state after the wrapper has set its three attributes for [key]. *)
Definition with_key (f_subDir : SubDir) (key : string) (hit : bool) (s : state)
  : state :=
  State s.(fs) s.(warnings) (Some (VBool hit)) (Some (VStr key))
        (Some (VStr (fullKeyName f_subDir key))) s.(calls) s.(pickle_error)
        s.(cwd).

(** What [pickle.dump] of [v] leaves in the file it was opened on, and the
    outcome of a statement that returns [a] after it. *)
Definition dumped (s : state) (v : value) : content :=
  match s.(pickle_error) v with
  | None => Pickled v
  | Some _ => Truncated
  end.

Definition after_dump {A} (s : state) (v : value) (a : A) : result A :=
  match s.(pickle_error) v with
  | None => Ok a
  | Some e => Raise e
  end.

(** The message of the wrapper's check of its [caching] argument. *)
Definition refusal : string :=
  "'caching': argument must be 'yes', 'no', 'clear', or 'update'".

(** ** Directories *)

(** The directory of a [SubDir] as the file system names it: [self.path[:-1]]. *)
Definition directory (self : SubDir) : string :=
  slice_drop_last 1 self.(path).

(** Two states of one process: what [pickle.dump] accepts and the working
    directory are the same. *)
Definition same_process (s s' : state) : Prop :=
  s'.(pickle_error) = s.(pickle_error) /\ s'.(cwd) = s.(cwd).

(** ** Mappings with [str] keys *)

(** What [Py.sorted] computes on [str] keys. *)
Fixpoint sinsort (x : string) (l : list string) : list string :=
  match l with
  | [] => [x]
  | y :: l' => if String.ltb y x then y :: sinsort x l' else x :: l
  end.

Fixpoint ssort (l : list string) : list string :=
  match l with
  | [] => []
  | x :: l' => sinsort x (ssort l')
  end.

(** A [str]-keyed mapping as [visit] hands it to [visit_mapping]. *)
Definition str_keyed {V} (inn : list (string * V)) : list (key * V) :=
  map (fun kv => (KStr kv.1, kv.2)) inn.

(** The items of a [str]-keyed mapping, each value with its traversal. *)
Definition traversals (parse_functions : bool) (items : list (string * value))
  : list (string * traversal) :=
  map (fun kv => (kv.1, visit parse_functions kv.2)) items.

(** A name that does not start with an underscore, and the items of a
    mapping under such names. *)
Definition publicb (k : string) : bool := negb (starts_with_underscore k).

Definition public (items : list (string * value)) : list (string * value) :=
  List.filter (fun kv => negb (starts_with_underscore kv.1)) items.

Definition is_int_key (k : key) : bool :=
  match k with
  | KInt _ => true
  | KStr _ => false
  end.

(** ** Cache modes *)

(** The four properties of the mode called [name]: [read], [write],
    [delete], [del_incomp]. *)
Definition facets (name : string) : result (bool * bool * bool * bool) :=
  c ← CacheMode.__init__ (Some (CacheMode.OfStr name));
  Ok (CacheMode.read c, CacheMode.write c, CacheMode.delete c,
      CacheMode.del_incomp c).

(** ** Worked examples *)

Definition cacheDir : SubDir := {| path := "/tmp/caching/"; ext := ".pck" |}.

(** The function [f] of module [testns] that doubles an integer,
    [def f(x): return x * 2], and its directory under [cacheDir]. *)
Definition double : function :=
  {| __module__ := "testns"; __name__ := "f";
     body := fun vargs kwargs =>
       match vargs, kwargs with
       | [VInt x], [] => Ok (VInt (x * 2))
       | _, _ => Raise (TypeError "f() takes 1 positional argument")
       end |}.

Definition double_subDir : SubDir :=
  {| path := "/tmp/caching/testns/f/"; ext := ".pck" |}.

(** The key of [f(3)] and the file of its entry. *)
Definition double_3_key : string := "525b2293522de82703cd825c3c4a82af".
Definition double_3_file : string :=
  "/tmp/caching/testns/f/525b2293522de82703cd825c3c4a82af.pck".

(** What [pickle.dump] raises in a process whose functions and classes are
    all local ones, which pickle cannot find by name: data pickles, a
    function or an object of a class does not, nor does what contains one. *)
Definition first_error (l : list (option exn)) : option exn :=
  List.fold_right (fun e rest => match e with Some _ => e | None => rest end)
    None l.

Fixpoint local_pickle_error (v : value) : option exn :=
  match v with
  | VNone | VStr _ | VInt _ | VBool _ | VRepr _ => None
  | VFunction _ _ | VObject _ _ => Some PicklingError
  | VMapping items =>
      first_error (map (fun kv => let '(_, x) := kv in local_pickle_error x) items)
  | VCollection items => first_error (map local_pickle_error items)
  end.

(** An empty store, and a store whose only file is the entry of [f(3)], both
    in such a process, run in [/home/user]. *)
Definition fresh : state :=
  State ∅ [] None None None 0 local_pickle_error "/home/user".
Definition holding (c : content) : state :=
  State {[ double_3_file := File c ]} [] None None None 0 local_pickle_error
        "/home/user".

(** The function [make_adder] of module [testns],
    [def make_adder(x): return lambda y: x + y], whose result is a local
    function; its directory under [cacheDir] and the key of
    [make_adder(3)]. *)
Definition make_adder : function :=
  {| __module__ := "testns"; __name__ := "make_adder";
     body := fun vargs kwargs =>
       match vargs, kwargs with
       | [VInt x], [] => Ok (VFunction true (Ok ["    return lambda y: x + y"]))
       | _, _ => Raise (TypeError "make_adder() takes 1 positional argument")
       end |}.

Definition make_adder_subDir : SubDir :=
  {| path := "/tmp/caching/testns/make_adder/"; ext := ".pck" |}.

Definition make_adder_3_key : string := "1614827f2a50d4790167a098059218c3".

(** Two functions of one module whose names start with an underscore and
    agree on their first 64 characters. *)
Definition refresh_v1 : function :=
  {| __module__ := "reports";
     __name__ := "_refresh_quarterly_consolidated_revenue_forecast_for_all_regions_v1";
     body := fun _ _ => Ok (VInt 1) |}.

Definition refresh_v2 : function :=
  {| __module__ := "reports";
     __name__ := "_refresh_quarterly_consolidated_revenue_forecast_for_all_regions_v2";
     body := fun _ _ => Ok (VInt 2) |}.

(** ** The wrapper's modes *)

(** The mode a call selects: the lowered [caching] keyword, ["yes"] without
    one. *)
Definition selected_mode (kwargs : list (string * value)) : result string :=
  match kw_get "caching" kwargs with
  | Some (VStr token) => Ok (lower token)
  | Some _ => Raise AttributeError
  | None => Ok "yes"
  end.

(** ** Arguments of the hasher *)

(** An argument that leaves the digest object as it is: [None], a function
    or property unless functions are parsed, a [str] that starts with an
    underscore. *)
Definition ignored (parse_functions : bool) (x : value) : bool :=
  match x with
  | VNone => true
  | VFunction _ _ => negb parse_functions
  | VStr s => starts_with_underscore s
  | _ => false
  end.

(** An element of a collection with its traversal, as [visit] hands it to
    [visit_elements]. *)
Definition with_visit (parse_functions : bool) (k : value) : value * traversal :=
  (k, visit parse_functions k).

(** A blank, a tab or a line feed. *)
Definition is_blank (c : ascii) : bool :=
  Ascii.eqb c " "%char || Ascii.eqb c (ascii_of_nat 9)
  || Ascii.eqb c (ascii_of_nat 10).

(** ** Cache modes, counted *)

(** The number of the six [is_...] properties that hold. *)
Definition is_count (c : CacheMode.t) : nat :=
  List.length
    (List.filter (fun b : bool => b)
       [CacheMode.is_on c; CacheMode.is_gen c; CacheMode.is_off c;
        CacheMode.is_update c; CacheMode.is_clear c; CacheMode.is_readonly c]).

(** ** Plain structures *)

(** A structure of [None], values kept as they are, lists and dicts only. *)
Fixpoint simple (x : pyobj) : bool :=
  match x with
  | ONone | OAsIs _ => true
  | ODict items => forallb (fun kv => simple kv.2) items
  | OIterable items => forallb simple items
  | OFunction | OProperty | ODataFrame _ _ | OObject _ _ => false
  end.

(** ** Listings of a directory *)

(** A string without slash. *)
Definition slash_free (s : string) : bool :=
  forallb (fun c => negb (Ascii.eqb c slash)) (chars s).

(** The list [keys] returns. *)
Definition listing (self : SubDir) (s : state) : list string :=
  omap (key_of_entry self)
    (omap (fun pn : string * node =>
             name ← entry_name self.(path) pn.1; Some (name, pn.2))
       (map_to_list s.(fs))).

(** The files left after deleting the keys of [ks] one after the other. *)
Definition without (self : SubDir) (ks : list string) (m : gmap string node)
  : gmap string node :=
  fold_left (fun m k => base.delete (fullKeyName self k) m) ks m.

(** ** Tactics *)

(** Unfold the store operations down to look-ups of the file system. *)
Ltac run :=
  cbv [mbind M_bind mret M_ret raise lift get modify verify warning
       os_path_exists os_path_isfile os_remove reader writer
       except_EOFError except_Exception
       exists_ __contains__ __getitem__ __setitem__ read _read write _write
       delete call negb].

(** Run a store operation, resolving each look-up of the store by [H]. *)
Ltac run_with H :=
  run;
  repeat (first [rewrite H | progress cbv beta iota
                | progress cbn [fs set_fs add_warning]]).

(** The same for an operation that first splits a plain key; [Hsplit] says
    that the split leaves the key as it is. *)
Ltac run_plain Hkey Hsplit H :=
  run; rewrite ?(proj1 Hkey), ?Hsplit; cbv beta iota;
  change (0 <? String.length "")%nat with false; rewrite ?(proj1 Hkey);
  repeat (first [rewrite H | progress cbv beta iota
                | progress cbn [fs set_fs add_warning]]).

(** Unfold the sequencing of the wrapper, leaving the store operations. *)
Ltac plumbing :=
  cbv [mbind M_bind mret M_ret raise lift modify verify call negb].

(** The wrapper's comparisons of the default ["yes"]. *)
Ltac default_mode :=
  change (String.eqb "yes" "no") with false;
  change (CacheMode.str_in "yes" ["yes"; "clear"; "update"]) with true;
  change (String.eqb "yes" "yes") with true;
  change (String.eqb "yes" "clear") with false;
  cbv beta iota.

(* ===================================================================== *)
(** * The digests agree with hashlib on known inputs *)
(* ===================================================================== *)

Example md5_empty : Hashlib.md5 "" = "d41d8cd98f00b204e9800998ecf8427e".
Proof. vm_compute. reflexivity. Qed.

Example md5_abc : Hashlib.md5 "abc" = "900150983cd24fb0d6963f7d28e17f72".
Proof. vm_compute. reflexivity. Qed.

Example shake_128_empty :
  Hashlib.shake_128 "" 16 = "7f9c2ba4e88f827d616045507605853e".
Proof. vm_compute. reflexivity. Qed.

Example shake_128_abc :
  Hashlib.shake_128 "abc" 16 = "5881092dd818bf5cf8a3ddb793fbcba7".
Proof. vm_compute. reflexivity. Qed.

(** Past one block: 64 bytes take two blocks of MD5, 168 bytes two of
    SHAKE128, and 170 bytes of output two rounds of squeezing. *)
Example md5_two_blocks :
  Hashlib.md5 (String.concat "" (repeat "x" 64))
  = "c1bb4f81d892b2d57947682aeb252456".
Proof. vm_compute. reflexivity. Qed.

Example shake_128_two_blocks :
  Hashlib.shake_128 (String.concat "" (repeat "x" 168)) 4 = "6dcbd4e3".
Proof. vm_compute. reflexivity. Qed.

Example shake_128_long_output :
  Py.slice_last 8 (Hashlib.shake_128 "q" 170) = "a7f2c564".
Proof. vm_compute. reflexivity. Qed.

(** The worked example, computed: the directory [cache] derives for [f], the
    key of [f(3)] and the file of its entry. *)
Example double_3_entry :
  (cache_subDir cacheDir double None None fresh).1 = Ok double_subDir
  /\ (cache_subDir cacheDir double None None fresh).2.(fs)
       !! "/tmp/caching/testns/f" = Some Dir
  /\ call_key double [VInt 3] [] = Ok double_3_key
  /\ fullKeyName double_subDir double_3_key = double_3_file.
Proof. vm_compute. auto. Qed.

(* ===================================================================== *)
(** * Digests are hexadecimal text of a known length *)
(* ===================================================================== *)

Section Digests.
Import Hashlib.
Local Open Scope Z_scope.

Lemma hex_digit_is_hex n : 0 <= n < 16 -> is_hex (hex_digit n) = true.
Proof.
  intros Hn.
  assert (Hcases : In n [0; 1; 2; 3; 4; 5; 6; 7; 8; 9; 10; 11; 12; 13; 14; 15])
    by (simpl; lia).
  simpl in Hcases.
  repeat (destruct Hcases as [<- | Hcases]; [reflexivity |]).
  contradiction.
Qed.

Lemma hex_of_byte_is_hex b : forallb is_hex (hex_of_byte b) = true.
Proof.
  unfold hex_of_byte. cbn [forallb].
  rewrite !hex_digit_is_hex; [reflexivity | |]; apply Z.mod_pos_bound; lia.
Qed.

Lemma string_length_of_list l :
  String.length (string_of_list_ascii l) = List.length l.
Proof. induction l as [| c l IH]; simpl; congruence. Qed.

Lemma hex_of_bytes_length bs :
  String.length (hex_of_bytes bs) = (2 * List.length bs)%nat.
Proof.
  unfold hex_of_bytes. rewrite string_length_of_list.
  induction bs as [| b bs IH]; simpl; lia.
Qed.

Lemma hex_of_bytes_is_hex bs :
  forallb is_hex (list_ascii_of_string (hex_of_bytes bs)) = true.
Proof.
  unfold hex_of_bytes. rewrite list_ascii_of_string_of_list_ascii.
  induction bs as [| b bs IH]; [reflexivity |].
  cbn [flat_map]. rewrite forallb_app, hex_of_byte_is_hex, IH. reflexivity.
Qed.

Lemma md5_digest_length msg : List.length (md5_digest msg) = 16%nat.
Proof.
  unfold md5_digest.
  destruct (fold_left md5_block _ md5_init) as [a b c d]. reflexivity.
Qed.

Lemma md5_length msg : String.length (md5 msg) = 32%nat.
Proof. unfold md5. now rewrite hex_of_bytes_length, md5_digest_length. Qed.

Lemma md5_is_hex msg : forallb is_hex (list_ascii_of_string (md5 msg)) = true.
Proof. apply hex_of_bytes_is_hex. Qed.

Lemma le_bytes_length n x : List.length (le_bytes n x) = n.
Proof.
  revert x. induction n as [| n IH]; intros x; simpl; [| rewrite IH];
    reflexivity.
Qed.

Lemma shake128_out_length st : List.length (shake128_out st) = shake128_rate.
Proof.
  unfold shake128_out.
  assert (H : forall l : list nat,
             List.length (flat_map (fun i => le_bytes 8 (nth i st 0)) l)
             = (8 * List.length l)%nat).
  { induction l as [| i l IH]; [reflexivity |].
    cbn [flat_map]. rewrite length_app, le_bytes_length, IH. simpl. lia. }
  rewrite H, length_seq. reflexivity.
Qed.

Lemma shake128_squeeze_length n st :
  List.length (shake128_squeeze n st) = (n * shake128_rate)%nat.
Proof.
  revert st. induction n as [| n IH]; intros st; [reflexivity |].
  cbn [shake128_squeeze]. rewrite length_app, shake128_out_length, IH. lia.
Qed.

Lemma shake128_digest_length msg n : List.length (shake128_digest msg n) = n.
Proof.
  unfold shake128_digest. rewrite length_firstn, shake128_squeeze_length.
  apply Nat.min_l. unfold shake128_rate.
  pose proof (Nat.div_mod_eq n 168). pose proof (Nat.mod_upper_bound n 168). lia.
Qed.

Lemma shake_128_length msg n : String.length (shake_128 msg n) = (2 * n)%nat.
Proof. unfold shake_128. now rewrite hex_of_bytes_length, shake128_digest_length. Qed.

End Digests.

(* ===================================================================== *)
(** * The keys of the cache are plain file names *)
(* ===================================================================== *)

Section PlainKeys.

Lemma take_while_all {A} (p : A -> bool) l :
  forallb p l = true -> take_while p l = l.
Proof.
  induction l as [| x l IH]; [reflexivity |].
  cbn [forallb take_while]. intros [-> Hl]%andb_true_iff. now rewrite IH.
Qed.

Lemma drop_while_all {A} (p : A -> bool) l :
  forallb p l = true -> drop_while p l = [].
Proof.
  induction l as [| x l IH]; [reflexivity |].
  cbn [forallb drop_while]. intros [-> Hl]%andb_true_iff. now apply IH.
Qed.

Lemma forallb_rev {A} (p : A -> bool) l : forallb p (rev l) = forallb p l.
Proof.
  induction l as [| x l IH]; [reflexivity |].
  cbn [rev forallb]. rewrite forallb_app, IH. cbn [forallb].
  rewrite andb_true_r. apply andb_comm.
Qed.

Lemma os_path_split_plain key :
  plain_key key -> os_path_split key = ("", key).
Proof.
  intros [_ Hkey]. unfold os_path_split.
  rewrite take_while_all, drop_while_all by now rewrite forallb_rev.
  cbn. rewrite rev_involutive. unfold str, chars.
  now rewrite string_of_list_ascii_of_string.
Qed.

Lemma hex_is_not_slash c : is_hex c = true -> negb (Ascii.eqb c slash) = true.
Proof.
  unfold is_hex. cbn [existsb list_ascii_of_string].
  rewrite !orb_true_iff.
  intros H. repeat (destruct H as [H | H];
    [apply Ascii.eqb_eq in H; subst c; reflexivity |]).
  discriminate.
Qed.

Lemma md5_plain_key msg : plain_key (Hashlib.md5 msg).
Proof.
  split.
  - now rewrite md5_length.
  - pose proof (md5_is_hex msg) as H. unfold chars.
    revert H. generalize (list_ascii_of_string (Hashlib.md5 msg)).
    induction l as [| c l IH]; [reflexivity |].
    cbn [forallb]. intros [Hc Hl]%andb_true_iff.
    now rewrite (hex_is_not_slash c Hc), IH.
Qed.

Lemma uniqueHash_plain_key args kwargs key :
  Util.uniqueHash args kwargs = Ok key -> plain_key key.
Proof.
  unfold Util.uniqueHash, Util.uniqueHashExt.
  destruct (Util.visit false (VCollection args) "") as [m |]; [| discriminate].
  cbn [mbind result_bind].
  destruct (Util.visit false (Util.str_dict kwargs) m) as [m' |];
    [| discriminate].
  cbn [mbind result_bind]. intros [= <-]. apply md5_plain_key.
Qed.

End PlainKeys.

(* ===================================================================== *)
(** * The store operations on a plain key *)
(* ===================================================================== *)

Section Pickling.

(** What [pickle.dump] accepts stays the same all along. *)
Lemma pickle_error_set_fs g s : pickle_error (set_fs g s) = pickle_error s.
Proof. reflexivity. Qed.

Lemma pickle_error_add_warning w s :
  pickle_error (add_warning w s) = pickle_error s.
Proof. reflexivity. Qed.

Lemma pickle_error_count_call s : pickle_error (count_call s) = pickle_error s.
Proof. reflexivity. Qed.

Lemma pickle_error_with_key f_subDir key hit s :
  pickle_error (with_key f_subDir key hit s) = pickle_error s.
Proof. reflexivity. Qed.

Lemma pickle_error_set_cached v s :
  pickle_error (set_cached v s) = pickle_error s.
Proof. reflexivity. Qed.

Lemma pickle_error_set_cacheArgKey v s :
  pickle_error (set_cacheArgKey v s) = pickle_error s.
Proof. reflexivity. Qed.

Lemma pickle_error_set_cacheFullKey v s :
  pickle_error (set_cacheFullKey v s) = pickle_error s.
Proof. reflexivity. Qed.

End Pickling.

Ltac same_pickling :=
  repeat first
    [ rewrite pickle_error_set_fs | rewrite pickle_error_add_warning
    | rewrite pickle_error_count_call | rewrite pickle_error_with_key
    | rewrite pickle_error_set_cached | rewrite pickle_error_set_cacheArgKey
    | rewrite pickle_error_set_cacheFullKey ].

Section Store.

Variable self : SubDir.
Variable key : string.
Hypothesis Hkey : plain_key key.

Let Hsplit : os_path_split key = ("", key) := os_path_split_plain key Hkey.

Lemma exists_absent s :
  s.(fs) !! fullKeyName self key = None -> exists_ self key s = (Ok false, s).
Proof. intros H. now run_with H. Qed.

Lemma exists_file s c :
  s.(fs) !! fullKeyName self key = Some (File c) ->
  exists_ self key s = (Ok true, s).
Proof. intros H. now run_with H. Qed.

Lemma exists_dir s :
  s.(fs) !! fullKeyName self key = Some Dir ->
  exists_ self key s
  = (Raise (LogException "Structural error: key exists, but is not a file"), s).
Proof. intros H. now run_with H. Qed.

Lemma write_file s obj :
  s.(fs) !! fullKeyName self key <> Some Dir ->
  write self key obj s
  = (after_dump s obj tt,
     set_fs (insert (fullKeyName self key) (File (dumped s obj))) s).
Proof.
  intros H. unfold after_dump, dumped. run_plain Hkey Hsplit H.
  destruct (fs s !! fullKeyName self key) as [[| c] |]; [congruence | |];
    now destruct (pickle_error s obj).
Qed.

Lemma getitem_pickled s v :
  s.(fs) !! fullKeyName self key = Some (File (Pickled v)) ->
  __getitem__ self key s = (Ok v, s).
Proof. intros H. now run_plain Hkey Hsplit H. Qed.

Lemma getitem_truncated s :
  s.(fs) !! fullKeyName self key = Some (File Truncated) ->
  __getitem__ self key s
  = (Raise (KeyError key),
     add_warning (file_deleted key (fullKeyName self key))
       (set_fs (base.delete (fullKeyName self key)) s)).
Proof. intros H. now run_plain Hkey Hsplit H. Qed.

Lemma getitem_garbled s :
  s.(fs) !! fullKeyName self key = Some (File Garbled) ->
  __getitem__ self key s = (Raise UnpicklingError, s).
Proof. intros H. now run_plain Hkey Hsplit H. Qed.

Lemma delete_absent s :
  s.(fs) !! fullKeyName self key = None -> delete self key false s = (Ok tt, s).
Proof. intros H. now run_plain Hkey Hsplit H. Qed.

Lemma delete_file s c :
  s.(fs) !! fullKeyName self key = Some (File c) ->
  delete self key false s
  = (Ok tt, set_fs (base.delete (fullKeyName self key)) s).
Proof. intros H. now run_plain Hkey Hsplit H. Qed.

End Store.

(* ===================================================================== *)
(** * The wrapper in its default mode, by what the store holds *)
(* ===================================================================== *)

Section DefaultMode.

Variable f_subDir : SubDir.
Variable f : function.
Variable vargs : list value.
Variable kwargs : list (string * value).
Variable key : string.

Hypothesis Hdefault : kw_get "caching" kwargs = None.
Hypothesis Hcall_key : call_key f vargs kwargs = Ok key.

Let Hplain : plain_key key := uniqueHash_plain_key _ _ _ Hcall_key.

(** Up to the test of the store, the wrapper has only set its attributes. *)
Lemma wrapper_default s :
  wrapper f_subDir f vargs kwargs s
  = (hit ← __contains__ f_subDir key;
     if hit : bool then
       _ ← modify (set_cached (VBool true));
       __getitem__ f_subDir key
     else
       value ← call f vargs kwargs;
       _ ← write f_subDir key value;
       _ ← __setitem__ f_subDir key value;
       mret value) (with_key f_subDir key false s).
Proof.
  unfold wrapper. rewrite Hdefault. plumbing.
  unfold call_key in Hcall_key. rewrite Hcall_key. default_mode. reflexivity.
Qed.

(** Nothing stored: the body runs and its value is stored, if it can be
    pickled; if not, the call ends in the error of [pickle.dump] and leaves
    the file it opened. *)
Lemma wrapper_miss s :
  s.(fs) !! fullKeyName f_subDir key = None ->
  wrapper f_subDir f vargs kwargs s
  = match f.(body) vargs kwargs with
    | Ok v =>
        (after_dump s v v,
         set_fs (insert (fullKeyName f_subDir key) (File (dumped s v)))
           (count_call (with_key f_subDir key false s)))
    | Raise e => (Raise e, count_call (with_key f_subDir key false s))
    end.
Proof.
  intros Hfs. rewrite wrapper_default. plumbing.
  unfold __contains__. rewrite exists_absent by exact Hfs.
  destruct (body f vargs kwargs) as [v | e]; [| reflexivity].
  unfold __setitem__.
  rewrite (write_file _ _ Hplain) by (cbn; rewrite Hfs; discriminate).
  unfold after_dump, dumped. same_pickling.
  destruct (pickle_error s v) as [e |] eqn:Hdump; [reflexivity |].
  rewrite (write_file _ _ Hplain)
    by (cbn; rewrite lookup_insert_eq; discriminate).
  unfold after_dump, dumped. same_pickling. rewrite Hdump.
  unfold set_fs at 1 2. cbn [fs warnings cached cacheArgKey cacheFullKey calls].
  rewrite insert_insert_eq. reflexivity.
Qed.

(** A readable entry: it is returned and the body does not run. *)
Lemma wrapper_hit v s :
  s.(fs) !! fullKeyName f_subDir key = Some (File (Pickled v)) ->
  wrapper f_subDir f vargs kwargs s = (Ok v, with_key f_subDir key true s).
Proof.
  intros Hfs. rewrite wrapper_default. plumbing.
  unfold __contains__. rewrite (exists_file _ _ _ (Pickled v)) by exact Hfs.
  rewrite (getitem_pickled _ _ Hplain _ v) by exact Hfs.
  reflexivity.
Qed.

(** An entry on which [pickle.load] raises [EOFError]: it is removed, with
    a warning, and the call ends in [KeyError]. *)
Lemma wrapper_truncated s :
  s.(fs) !! fullKeyName f_subDir key = Some (File Truncated) ->
  wrapper f_subDir f vargs kwargs s
  = (Raise (KeyError key),
     add_warning (file_deleted key (fullKeyName f_subDir key))
       (set_fs (base.delete (fullKeyName f_subDir key))
          (with_key f_subDir key true s))).
Proof.
  intros Hfs. rewrite wrapper_default. plumbing.
  unfold __contains__. rewrite (exists_file _ _ _ Truncated) by exact Hfs.
  rewrite (getitem_truncated _ _ Hplain) by exact Hfs.
  reflexivity.
Qed.

(** An entry that is no pickle: what [pickle.load] raises goes up, and the
    entry stays. *)
Lemma wrapper_garbled s :
  s.(fs) !! fullKeyName f_subDir key = Some (File Garbled) ->
  wrapper f_subDir f vargs kwargs s
  = (Raise UnpicklingError, with_key f_subDir key true s).
Proof.
  intros Hfs. rewrite wrapper_default. plumbing.
  unfold __contains__. rewrite (exists_file _ _ _ Garbled) by exact Hfs.
  rewrite (getitem_garbled _ _ Hplain) by exact Hfs.
  reflexivity.
Qed.

End DefaultMode.

(* ===================================================================== *)
(** * Sorting string keys *)
(* ===================================================================== *)

Section StringOrder.

Lemma ltb_leb a b : String.ltb a b = negb (String.leb b a).
Proof.
  unfold String.ltb, String.leb. rewrite (String.compare_antisym a b).
  now destruct (String.compare b a).
Qed.

Lemma leb_trans a b c :
  String.leb a b = true -> String.leb b c = true -> String.leb a c = true.
Proof.
  intros Hab Hbc. apply Is_true_true.
  apply (transitivity (R := String.le) (y := b)); now apply Is_true_true.
Qed.

Lemma ltb_false_antisym a b :
  String.ltb a b = false -> String.ltb b a = false -> a = b.
Proof.
  rewrite !ltb_leb, !negb_false_iff. intros H1 H2. now apply String.leb_antisym.
Qed.

Lemma ltb_asym a b : String.ltb a b = true -> String.ltb b a = false.
Proof.
  rewrite !ltb_leb, negb_true_iff, negb_false_iff. intros H.
  destruct (String.leb_total a b) as [H' | H']; congruence.
Qed.

(** [x <= z] and [z < y] give [x < y]. *)
Lemma ltb_le_lt x y z :
  String.ltb z x = false -> String.ltb z y = true -> String.ltb x y = true.
Proof.
  rewrite !ltb_leb, negb_false_iff, !negb_true_iff. intros Hxz Hyz.
  destruct (String.leb y x) eqn:Hyx; [| reflexivity].
  rewrite (leb_trans y x z Hyx Hxz) in Hyz. discriminate.
Qed.

Lemma sinsort_comm x y l : sinsort x (sinsort y l) = sinsort y (sinsort x l).
Proof.
  induction l as [| z l IH].
  - cbn [sinsort].
    destruct (String.ltb y x) eqn:Hyx, (String.ltb x y) eqn:Hxy; try reflexivity.
    + now rewrite (ltb_asym _ _ Hyx) in Hxy.
    + now rewrite (ltb_false_antisym _ _ Hxy Hyx).
  - cbn [sinsort].
    destruct (String.ltb z y) eqn:Hzy, (String.ltb z x) eqn:Hzx; cbn [sinsort];
      rewrite ?Hzy, ?Hzx.
    + now rewrite IH.
    + now rewrite (ltb_le_lt _ _ _ Hzx Hzy).
    + now rewrite (ltb_le_lt _ _ _ Hzy Hzx).
    + destruct (String.ltb y x) eqn:Hyx, (String.ltb x y) eqn:Hxy;
        cbn [sinsort]; rewrite ?Hzy, ?Hzx; try reflexivity.
      * now rewrite (ltb_asym _ _ Hyx) in Hxy.
      * now rewrite (ltb_false_antisym _ _ Hxy Hyx).
Qed.

Lemma ssort_perm l1 l2 : Permutation l1 l2 -> ssort l1 = ssort l2.
Proof.
  induction 1 as [| x l1 l2 _ IH | x y l | l1 l2 l3 _ IH1 _ IH2]; cbn [ssort].
  - reflexivity.
  - now rewrite IH.
  - apply sinsort_comm.
  - congruence.
Qed.

Lemma sinsort_perm x l : Permutation (sinsort x l) (x :: l).
Proof.
  induction l as [| y l IH]; cbn [sinsort]; [reflexivity |].
  destruct (String.ltb y x); [| reflexivity].
  rewrite IH. apply perm_swap.
Qed.

Lemma ssort_permutation l : Permutation (ssort l) l.
Proof.
  induction l as [| x l IH]; cbn [ssort]; [reflexivity |].
  rewrite sinsort_perm. now constructor.
Qed.

End StringOrder.

Section SortedKeys.

Lemma insort_str x l :
  insort (KStr x) (map KStr l) = Ok (map KStr (sinsort x l)).
Proof.
  induction l as [| y l IH]; [reflexivity |].
  cbn [map insort key_lt sinsort mbind result_bind].
  destruct (String.ltb y x); [| reflexivity].
  rewrite IH. reflexivity.
Qed.

Lemma sorted_str l : sorted (map KStr l) = Ok (map KStr (ssort l)).
Proof.
  induction l as [| x l IH]; [reflexivity |].
  cbn [map sorted ssort]. rewrite IH. cbn [mbind result_bind]. apply insort_str.
Qed.

End SortedKeys.

(* ===================================================================== *)
(** * The mapping branch of the hasher *)
(* ===================================================================== *)

Section Mappings.

Context {V : Type}.
Implicit Types inn : list (string * V).

Lemma str_keyed_keys inn : map fst (str_keyed inn) = map KStr (map fst inn).
Proof. unfold str_keyed. rewrite !map_map. reflexivity. Qed.

Lemma getitem_absent inn k :
  ~ In k (map fst inn) ->
  getitem (str_keyed inn) (KStr k) = Raise (KeyError (repr_key (KStr k))).
Proof.
  induction inn as [| [k' v'] inn IH]; [reflexivity |].
  cbn [map fst In str_keyed getitem key_eqb]. intros Hk.
  destruct (String.eqb_spec k' k) as [-> | Hne]; [tauto |].
  apply IH. tauto.
Qed.

Lemma getitem_present inn k v :
  List.NoDup (map fst inn) -> In (k, v) inn ->
  getitem (str_keyed inn) (KStr k) = Ok v.
Proof.
  induction inn as [| [k' v'] inn IH]; [intros _ [] |].
  cbn [map fst In str_keyed getitem key_eqb]. intros Hnd Hin.
  apply List.NoDup_cons_iff in Hnd as [Hk' Hnd].
  destruct (String.eqb_spec k' k) as [-> | Hne].
  - destruct Hin as [[= <-] | Hin]; [reflexivity |].
    exfalso. apply Hk'. apply in_map_iff. now exists (k, v).
  - destruct Hin as [[= -> _] | Hin]; [congruence |]. now apply IH.
Qed.

Lemma getitem_int inn z :
  getitem (str_keyed inn) (KInt z) = Raise (KeyError (repr_key (KInt z))).
Proof.
  induction inn as [| [k' v'] inn IH]; [reflexivity |].
  cbn [str_keyed map getitem key_eqb]. exact IH.
Qed.

Lemma getitem_perm inn1 inn2 k :
  List.NoDup (map fst inn1) -> Permutation inn1 inn2 ->
  getitem (str_keyed inn1) k = getitem (str_keyed inn2) k.
Proof.
  intros Hnd Hperm. destruct k as [k | z]; [| now rewrite !getitem_int].
  assert (Hnd2 : List.NoDup (map fst inn2)).
  { eapply Permutation_NoDup; [| exact Hnd]. now apply Permutation_map. }
  destruct (in_dec string_dec k (map fst inn1)) as [Hin | Hout].
  - apply in_map_iff in Hin as [[k' v] [Hk Hin]]. cbn in Hk. subst k'.
    rewrite (getitem_present inn1 k v Hnd Hin).
    symmetry. apply getitem_present; [exact Hnd2 |].
    eapply Permutation_in; eassumption.
  - rewrite (getitem_absent inn1 k Hout). symmetry. apply getitem_absent.
    intros Hin. apply Hout.
    eapply Permutation_in; [| exact Hin].
    apply Permutation_map. now symmetry.
Qed.

End Mappings.

Section VisitMapping.

Implicit Types inn : list (string * traversal).

Lemma visit_keys_ext (inn1 inn2 : list (key * traversal)) ks m :
  (forall k, getitem inn1 k = getitem inn2 k) ->
  visit_keys inn1 ks m = visit_keys inn2 ks m.
Proof.
  intros Hget. revert m. induction ks as [| k ks IH]; intros m; [reflexivity |].
  cbn [visit_keys]. destruct (key_is_private k) as [[|] |];
    cbn [mbind result_bind]; [apply IH | | reflexivity].
  rewrite Hget. destruct (getitem inn2 k) as [visit_value |];
    cbn [mbind result_bind]; [| reflexivity].
  destruct (visit_value _); cbn [mbind result_bind]; [apply IH | reflexivity].
Qed.

Lemma visit_mapping_str inn m :
  visit_mapping (str_keyed inn) m
  = visit_keys (str_keyed inn) (map KStr (ssort (map fst inn))) m.
Proof.
  unfold visit_mapping. rewrite str_keyed_keys, sorted_str. reflexivity.
Qed.

(** Order-insensitivity of the mapping branch. *)
Lemma visit_mapping_perm inn1 inn2 m :
  List.NoDup (map fst inn1) -> Permutation inn1 inn2 ->
  visit_mapping (str_keyed inn1) m = visit_mapping (str_keyed inn2) m.
Proof.
  intros Hnd Hperm. rewrite !visit_mapping_str.
  rewrite (ssort_perm (map fst inn1) (map fst inn2)) by now apply Permutation_map.
  apply visit_keys_ext. intros k. now apply getitem_perm.
Qed.

Lemma visit_keys_skip (X : list (key * traversal)) ks m :
  visit_keys X (map KStr ks) m
  = visit_keys X (map KStr (List.filter publicb ks)) m.
Proof.
  revert m. induction ks as [| k ks IH]; intros m; [reflexivity |].
  cbn [map List.filter visit_keys key_is_private mbind result_bind]. unfold publicb at 1.
  destruct (starts_with_underscore k) eqn:Hk; cbn [negb]; [apply IH |].
  cbn [map visit_keys key_is_private mbind result_bind]. rewrite Hk.
  destruct (getitem X (KStr k)) as [visit_value |]; cbn [mbind result_bind];
    [| reflexivity].
  destruct (visit_value _); cbn [mbind result_bind]; [apply IH | reflexivity].
Qed.

Lemma filter_sinsort_private k l :
  publicb k = false ->
  List.filter publicb (sinsort k l) = List.filter publicb l.
Proof.
  intros Hk. induction l as [| y l IH]; cbn [sinsort List.filter].
  - now rewrite Hk.
  - destruct (String.ltb y k); cbn [List.filter]; [now rewrite IH | now rewrite Hk].
Qed.

Lemma sinsort_forall (P : string -> Prop) k l :
  P k -> Forall P l -> Forall P (sinsort k l).
Proof.
  intros Hk Hl. eapply Permutation_Forall; [symmetry; apply sinsort_perm |].
  now constructor.
Qed.

Lemma filter_split_perm {A} (p : A -> bool) l :
  Permutation l (List.filter (fun x => negb (p x)) l ++ List.filter p l).
Proof.
  induction l as [| x l IH]; [reflexivity |].
  cbn [List.filter]. destruct (p x); cbn [negb app].
  - now apply Permutation_cons_app.
  - now constructor.
Qed.

Lemma ssort_app l1 l2 : ssort (l1 ++ l2) = fold_right sinsort (ssort l2) l1.
Proof. induction l1 as [| x l1 IH]; cbn [app ssort fold_right]; congruence. Qed.

Lemma filter_all {A} (p : A -> bool) l :
  Forall (fun x => p x = true) l -> List.filter p l = l.
Proof.
  induction 1 as [| x l Hx _ IH]; [reflexivity |].
  cbn [List.filter]. now rewrite Hx, IH.
Qed.

Lemma forall_filter {A} (p : A -> bool) l :
  Forall (fun x => p x = true) (List.filter p l).
Proof.
  induction l as [| x l IH]; [constructor |].
  cbn [List.filter]. destruct (p x) eqn:Hx; [now constructor | exact IH].
Qed.

(** Private keys do not change where the public ones end up. *)
Lemma filter_ssort l :
  List.filter publicb (ssort l) = ssort (List.filter publicb l).
Proof.
  rewrite (ssort_perm l _ (filter_split_perm publicb l)), ssort_app.
  pose proof (forall_filter (fun x => negb (publicb x)) l) as Hpriv.
  induction Hpriv as [| k priv Hk _ IH]; cbn [fold_right].
  - apply filter_all.
    eapply Permutation_Forall; [symmetry; apply ssort_permutation |].
    apply forall_filter.
  - rewrite filter_sinsort_private; [exact IH |].
    now apply negb_true_iff in Hk.
Qed.

Lemma getitem_public inn k :
  publicb k = true ->
  getitem (str_keyed inn) (KStr k)
  = getitem (str_keyed (List.filter (fun kv => publicb kv.1) inn)) (KStr k).
Proof.
  intros Hk. induction inn as [| [k' v'] inn IH]; [reflexivity |].
  cbn [List.filter str_keyed map getitem key_eqb fst snd].
  destruct (String.eqb_spec k' k) as [-> | Hne].
  - rewrite Hk. cbn [str_keyed map getitem key_eqb fst snd].
    now rewrite String.eqb_refl.
  - destruct (publicb k'); [| exact IH].
    cbn [str_keyed map getitem key_eqb fst snd].
    destruct (String.eqb_spec k' k); [congruence | exact IH].
Qed.

Lemma visit_keys_public inn ks m :
  Forall (fun k => publicb k = true) ks ->
  visit_keys (str_keyed inn) (map KStr ks) m
  = visit_keys (str_keyed (List.filter (fun kv => publicb kv.1) inn))
      (map KStr ks) m.
Proof.
  intros Hks. revert m. induction Hks as [| k ks Hk _ IH]; intros m;
    [reflexivity |].
  cbn [map visit_keys key_is_private mbind result_bind].
  destruct (starts_with_underscore k); [apply IH |].
  rewrite <- (getitem_public inn k Hk).
  destruct (getitem (str_keyed inn) (KStr k)) as [visit_value |];
    cbn [mbind result_bind]; [| reflexivity].
  destruct (visit_value _); cbn [mbind result_bind]; [apply IH | reflexivity].
Qed.

Lemma filter_keys inn :
  map fst (List.filter (fun kv => publicb kv.1) inn)
  = List.filter publicb (map fst inn).
Proof.
  induction inn as [| [k v] inn IH]; [reflexivity |].
  cbn [List.filter map fst]. destruct (publicb k); cbn [map fst]; congruence.
Qed.

(** The mapping branch does not see the private entries. *)
Lemma visit_mapping_public inn m :
  visit_mapping (str_keyed inn) m
  = visit_mapping (str_keyed (List.filter (fun kv => publicb kv.1) inn)) m.
Proof.
  rewrite !visit_mapping_str, visit_keys_skip, filter_ssort, filter_keys.
  apply visit_keys_public.
  eapply Permutation_Forall; [symmetry; apply ssort_permutation |].
  apply forall_filter.
Qed.

End VisitMapping.

(* ===================================================================== *)
(** * The hasher on mappings with string keys *)
(* ===================================================================== *)

Section Hasher.

Variable parse_functions : bool.

Lemma visit_str_dict items m :
  visit parse_functions (str_dict items) m
  = visit_mapping (str_keyed (traversals parse_functions items)) m.
Proof.
  unfold str_dict, str_keyed, traversals. cbn [visit]. rewrite !map_map.
  reflexivity.
Qed.

Lemma traversals_keys items :
  map fst (traversals parse_functions items) = map fst items.
Proof. unfold traversals. rewrite map_map. reflexivity. Qed.

Lemma traversals_public items :
  List.filter (fun kv => publicb kv.1) (traversals parse_functions items)
  = traversals parse_functions (public items).
Proof.
  unfold traversals, public.
  induction items as [| [k v] items IH]; [reflexivity |].
  cbn [map List.filter fst snd]. unfold publicb at 1.
  destruct (starts_with_underscore k); cbn [negb map fst snd];
    [exact IH | f_equal; exact IH].
Qed.

Lemma visit_str_dict_public items m :
  visit parse_functions (str_dict items) m
  = visit parse_functions (str_dict (public items)) m.
Proof.
  rewrite !visit_str_dict, visit_mapping_public, traversals_public.
  reflexivity.
Qed.

Lemma visit_str_dict_perm items1 items2 m :
  List.NoDup (map fst items1) -> Permutation items1 items2 ->
  visit parse_functions (str_dict items1) m
  = visit parse_functions (str_dict items2) m.
Proof.
  intros Hnd Hperm. rewrite !visit_str_dict.
  apply visit_mapping_perm.
  - now rewrite traversals_keys.
  - now apply Permutation_map.
Qed.

(** The collection branch reads an element through its traversal only,
    unless it is a [str]. *)
Lemma visit_collection_replace pre post v1 v2 m :
  element_is_private v1 = false -> element_is_private v2 = false ->
  (forall m, visit parse_functions v1 m = visit parse_functions v2 m) ->
  visit parse_functions (VCollection (pre ++ v1 :: post)) m
  = visit parse_functions (VCollection (pre ++ v2 :: post)) m.
Proof.
  intros H1 H2 Hv. cbn [visit]. revert m.
  induction pre as [| k pre IH]; intros m; cbn [app map visit_elements].
  - rewrite H1, H2, Hv. reflexivity.
  - destruct (element_is_private k); [apply IH |].
    destruct (visit parse_functions k m); cbn [mbind result_bind];
      [apply IH | reflexivity].
Qed.

End Hasher.

(* ===================================================================== *)
(** * The hasher on mappings with an integer key *)
(* ===================================================================== *)

Section IntKeys.

Lemma key_lt_same_kind a b r :
  key_lt a b = Ok r -> is_int_key a = is_int_key b.
Proof. destruct a, b; cbn; congruence. Qed.

Lemma key_lt_raise a b e :
  key_lt a b = Raise e ->
  e = TypeError "'<' not supported between instances of 'str' and 'int'".
Proof. destruct a, b; cbn; congruence. Qed.

Lemma insort_raise x l e :
  insort x l = Raise e ->
  e = TypeError "'<' not supported between instances of 'str' and 'int'".
Proof.
  induction l as [| y l IH]; cbn [insort]; [discriminate |].
  destruct (key_lt y x) as [[|] |] eqn:Hlt; cbn [mbind result_bind].
  - destruct (insort x l); cbn [mbind result_bind]; [discriminate |].
    intros [= <-]. now apply IH.
  - discriminate.
  - intros [= <-]. now apply key_lt_raise in Hlt.
Qed.

Lemma sorted_raise l e :
  sorted l = Raise e ->
  e = TypeError "'<' not supported between instances of 'str' and 'int'".
Proof.
  induction l as [| x l IH]; cbn [sorted]; [discriminate |].
  destruct (sorted l) as [s |]; cbn [mbind result_bind].
  - apply insort_raise.
  - intros [= <-]. now apply IH.
Qed.

(** Where a sort succeeds on keys with an integer among them, an integer
    comes first. *)
Lemma sorted_int_first l z ks :
  In (KInt z) l -> sorted l = Ok ks -> exists z' ks', ks = KInt z' :: ks'.
Proof.
  revert ks. induction l as [| x l IH]; intros ks; [intros [] |].
  cbn [In sorted]. intros Hin.
  destruct (sorted l) as [s |] eqn:Hs; cbn [mbind result_bind]; [| discriminate].
  destruct s as [| y s].
  - cbn [insort]. intros [= <-].
    destruct Hin as [-> | Hin]; [now eauto |].
    destruct (IH [] Hin eq_refl) as (? & ? & [=]).
  - cbn [insort]. destruct (key_lt y x) as [below |] eqn:Hlt;
      cbn [mbind result_bind]; [| discriminate].
    apply key_lt_same_kind in Hlt.
    assert (Hy : is_int_key y = true).
    { destruct Hin as [-> | Hin]; [exact Hlt |].
      now destruct (IH (y :: s) Hin eq_refl) as (? & ? & [= -> _]). }
    destruct below.
    + destruct (insort x s); cbn [mbind result_bind]; [| discriminate].
      intros [= <-]. destruct y; [discriminate | eauto].
    + intros [= <-]. rewrite Hy in Hlt. destruct x; [discriminate | eauto].
Qed.

Lemma visit_int_key parse_functions items m z v :
  In (KInt z, v) items ->
  exists msg, visit parse_functions (VMapping items) m = Raise (TypeError msg)
              /\ msg <> "Cannot handle type".
Proof.
  intros Hin. cbn [visit]. unfold visit_mapping. rewrite map_map.
  assert (Hkeys : In (KInt z)
            (map (fun kv : key * value =>
                    (let '(k, v) := kv in (k, visit parse_functions v)).1) items)).
  { apply in_map_iff. now exists (KInt z, v). }
  destruct (sorted _) as [ks | e] eqn:Hsorted; cbn [mbind result_bind].
  - destruct (sorted_int_first _ _ _ Hkeys Hsorted) as (z' & ks' & ->).
    cbn [visit_keys key_is_private mbind result_bind]. eexists. split; [reflexivity |].
    discriminate.
  - apply sorted_raise in Hsorted as ->. eexists. split; [reflexivity |].
    discriminate.
Qed.

End IntKeys.

Lemma visit_singleton parse_functions x m :
  element_is_private x = false ->
  visit parse_functions (VCollection [x]) m = visit parse_functions x m.
Proof.
  intros Hx. cbn [visit map visit_elements]. rewrite Hx.
  now destruct (visit parse_functions x m).
Qed.

(* ===================================================================== *)
(** * The claims *)
(* ===================================================================== *)

(** ** The wrapper *)

(** C1, as the code has it. Memoization: in the default mode, when the
    arguments hash to [key], the body of [f] returns for them a value [v]
    that [pickle.dump] can serialize, and the store holds nothing at the entry
    of [key], two calls in a row with these arguments both return [v]; the
    first leaves [cached] false, the second leaves it true and the store as
    it was, and the body of [f] has run exactly once over the two calls. *)
Theorem memoization_correctness f_subDir f vargs kwargs key v s :
  kw_get "caching" kwargs = None ->
  call_key f vargs kwargs = Ok key ->
  f.(body) vargs kwargs = Ok v ->
  s.(pickle_error) v = None ->
  s.(fs) !! fullKeyName f_subDir key = None ->
  let first := wrapper f_subDir f vargs kwargs s in
  let second := wrapper f_subDir f vargs kwargs first.2 in
  first.1 = Ok v /\ first.2.(cached) = Some (VBool false)
  /\ second.1 = Ok v /\ second.2.(cached) = Some (VBool true)
  /\ second.2.(calls) = S s.(calls)
  /\ second.2.(fs) = first.2.(fs).
Proof.
  intros Hkw Hkey Hv Hdump Hfs first second. subst second first.
  rewrite (wrapper_miss f_subDir f vargs kwargs key Hkw Hkey s Hfs), Hv.
  unfold after_dump, dumped. rewrite Hdump. cbn [fst snd].
  rewrite (wrapper_hit f_subDir f vargs kwargs key Hkw Hkey v)
    by (cbn; apply lookup_insert_eq).
  cbn. auto 10.
Qed.

Lemma memoization_correctness_witness :
  let first := wrapper double_subDir double [VInt 3] [] fresh in
  let second := wrapper double_subDir double [VInt 3] [] first.2 in
  first.1 = Ok (VInt 6) /\ first.2.(cached) = Some (VBool false)
  /\ second.1 = Ok (VInt 6) /\ second.2.(cached) = Some (VBool true)
  /\ second.2.(calls) = 1
  /\ second.2.(fs) = first.2.(fs).
Proof.
  apply (memoization_correctness double_subDir double [VInt 3] [] double_3_key).
  - reflexivity.
  - vm_compute. reflexivity.
  - reflexivity.
  - reflexivity.
  - vm_compute. reflexivity.
Defined.

(** C1, as stated, fails: [make_adder] is pure, but its result is a local
    function, which [pickle.dump] refuses. With nothing stored, the first
    call [make_adder(3)] of the wrapped function runs the body and ends in
    the error of [pickle.dump], leaving the empty file it had opened; the
    second finds that file, cannot load it, and ends in [KeyError] without
    running the body: neither returns the function's result. *)
Lemma unpicklable_result_is_not_memoized :
  call_key make_adder [VInt 3] [] = Ok make_adder_3_key
  /\ make_adder.(body) [VInt 3] []
     = Ok (VFunction true (Ok ["    return lambda y: x + y"]))
  /\ fresh.(fs) !! fullKeyName make_adder_subDir make_adder_3_key = None
  /\ let first := wrapper make_adder_subDir make_adder [VInt 3] [] fresh in
     let second := wrapper make_adder_subDir make_adder [VInt 3] [] first.2 in
     first.1 = Raise PicklingError
     /\ first.2.(calls) = 1
     /\ first.2.(fs) !! fullKeyName make_adder_subDir make_adder_3_key
        = Some (File Truncated)
     /\ second.1 = Raise (KeyError make_adder_3_key)
     /\ second.2.(cached) = Some (VBool true)
     /\ second.2.(calls) = 1.
Proof. vm_compute. auto 10. Qed.

(** C3, as the code has it. In the default mode, when the entry of the call
    is a file on which [pickle.load] raises [EOFError], the call removes the
    file and logs one warning, but it ends in [KeyError] for the key, with
    [cached] left true, and does not run the body of [f]; the next call with
    the same arguments finds no entry, as on a miss: it runs the body once and
    ends as the body does, or, when the body returns a value that
    [pickle.dump] refuses, in the error of [pickle.dump]. *)
Theorem truncated_entry_fails_the_call f_subDir f vargs kwargs key s :
  kw_get "caching" kwargs = None ->
  call_key f vargs kwargs = Ok key ->
  s.(fs) !! fullKeyName f_subDir key = Some (File Truncated) ->
  let failed := wrapper f_subDir f vargs kwargs s in
  let retried := wrapper f_subDir f vargs kwargs failed.2 in
  failed.1 = Raise (KeyError key)
  /\ failed.2.(fs) = base.delete (fullKeyName f_subDir key) s.(fs)
  /\ failed.2.(warnings)
     = (s.(warnings) ++ [file_deleted key (fullKeyName f_subDir key)])%list
  /\ failed.2.(calls) = s.(calls)
  /\ failed.2.(cached) = Some (VBool true)
  /\ retried.1
     = match f.(body) vargs kwargs with
       | Ok v => after_dump s v v
       | Raise e => Raise e
       end
  /\ retried.2.(cached) = Some (VBool false)
  /\ retried.2.(calls) = S s.(calls).
Proof.
  intros Hkw Hkey Hfs failed retried. subst retried failed.
  rewrite (wrapper_truncated f_subDir f vargs kwargs key Hkw Hkey s Hfs).
  cbn [fst snd].
  rewrite (wrapper_miss f_subDir f vargs kwargs key Hkw Hkey)
    by (cbn; apply lookup_delete_eq).
  destruct (body f vargs kwargs); cbn; auto 10.
Qed.

Lemma truncated_entry_fails_the_call_witness :
  let failed := wrapper double_subDir double [VInt 3] [] (holding Truncated) in
  let retried := wrapper double_subDir double [VInt 3] [] failed.2 in
  failed.1 = Raise (KeyError double_3_key)
  /\ failed.2.(fs) = base.delete double_3_file {[ double_3_file := File Truncated ]}
  /\ failed.2.(warnings) = [file_deleted double_3_key double_3_file]
  /\ failed.2.(calls) = 0
  /\ failed.2.(cached) = Some (VBool true)
  /\ retried.1 = Ok (VInt 6)
  /\ retried.2.(cached) = Some (VBool false)
  /\ retried.2.(calls) = 1.
Proof.
  apply (truncated_entry_fails_the_call double_subDir double [VInt 3] []
           double_3_key (holding Truncated)).
  - reflexivity.
  - vm_compute. reflexivity.
  - vm_compute. reflexivity.
Defined.

(** C3, as stated, fails: with an entry of [f(3)] on which [pickle.load]
    raises [EOFError], the call [f(3)] of the wrapped function ends in
    [KeyError] and the body of [f] has not run. *)
Lemma truncated_entry_is_not_a_miss :
  call_key double [VInt 3] [] = Ok double_3_key
  /\ (holding Truncated).(fs) !! fullKeyName double_subDir double_3_key
     = Some (File Truncated)
  /\ (wrapper double_subDir double [VInt 3] [] (holding Truncated)).1
     = Raise (KeyError double_3_key)
  /\ (wrapper double_subDir double [VInt 3] [] (holding Truncated)).2.(calls) = 0.
Proof. vm_compute. auto. Qed.

(** C4, as the code has it. The keyword [caching] is lowered and compared
    with [yes], [no], [clear] and [update]; a call with any other text (so
    with [on], [gen], [off] or [readonly]) is refused by the logger's check
    before a key is computed: nothing is read, written or deleted, the
    attributes stay as they were and the body of [f] does not run. *)
Theorem unknown_caching_token_is_refused f_subDir f vargs kwargs token s :
  kw_get "caching" kwargs = Some (VStr token) ->
  CacheMode.str_in (lower token) ["yes"; "no"; "clear"; "update"] = false ->
  wrapper f_subDir f vargs kwargs s = (Raise (LogException refusal), s).
Proof.
  intros Hkw Htoken. unfold wrapper. rewrite Hkw. cbn [value_lower]. plumbing.
  unfold CacheMode.str_in in *. cbn [existsb] in *.
  apply orb_false_iff in Htoken as [Hyes Htoken].
  apply orb_false_iff in Htoken as [Hno Htoken].
  rewrite Hyes, Hno, Htoken. reflexivity.
Qed.

Lemma unknown_caching_token_is_refused_witness :
  wrapper double_subDir double [VInt 3] [("caching", VStr "readonly")]
    (holding (Pickled (VInt 6)))
  = (Raise (LogException refusal), holding (Pickled (VInt 6))).
Proof.
  apply (unknown_caching_token_is_refused double_subDir double [VInt 3]
           [("caching", VStr "readonly")] "readonly"); reflexivity.
Defined.

(** C4, as stated, fails: with the value of [f(3)] stored at its key, the
    call [f(3, caching="readonly")] does not return it: it is refused. *)
Lemma readonly_is_refused :
  call_key double [VInt 3] [] = Ok double_3_key
  /\ (holding (Pickled (VInt 6))).(fs) !! fullKeyName double_subDir double_3_key
     = Some (File (Pickled (VInt 6)))
  /\ (wrapper double_subDir double [VInt 3] [("caching", VStr "readonly")]
        (holding (Pickled (VInt 6)))).1
     = Raise (LogException refusal).
Proof. vm_compute. auto. Qed.

(** C5. Mode off, which the wrapper spells [caching="no"] in any case of
    letters: the call returns what the body of [f] returns for the arguments
    without the keyword, after running it once; [cached] is false,
    [cacheArgKey] and [cacheFullKey] are [None]; the file system and the log
    are as they were. *)
Theorem no_caching_bypasses_the_store f_subDir f vargs kwargs token s :
  kw_get "caching" kwargs = Some (VStr token) ->
  lower token = "no" ->
  let after := wrapper f_subDir f vargs kwargs s in
  after.1 = f.(body) vargs (kw_del "caching" kwargs)
  /\ after.2.(calls) = S s.(calls)
  /\ after.2.(cached) = Some (VBool false)
  /\ after.2.(cacheArgKey) = Some VNone
  /\ after.2.(cacheFullKey) = Some VNone
  /\ after.2.(fs) = s.(fs)
  /\ after.2.(warnings) = s.(warnings).
Proof.
  intros Hkw Hno after. subst after.
  unfold wrapper. rewrite Hkw. cbn [value_lower]. plumbing. rewrite Hno.
  change (String.eqb "no" "no") with true. cbn. auto 10.
Qed.

Lemma no_caching_bypasses_the_store_witness :
  let after :=
    wrapper double_subDir double [VInt 3] [("caching", VStr "No")]
      (holding (Pickled (VInt 7))) in
  after.1 = Ok (VInt 6)
  /\ after.2.(calls) = 1
  /\ after.2.(cached) = Some (VBool false)
  /\ after.2.(cacheArgKey) = Some VNone
  /\ after.2.(cacheFullKey) = Some VNone
  /\ after.2.(fs) = {[ double_3_file := File (Pickled (VInt 7)) ]}
  /\ after.2.(warnings) = [].
Proof.
  apply (no_caching_bypasses_the_store double_subDir double [VInt 3]
           [("caching", VStr "No")] "No" (holding (Pickled (VInt 7))));
    reflexivity.
Defined.

(** ** The hasher *)

(** C7, where the code parts from it. A hasher built for [length] returns
    [2 * (length // 2)] characters whenever it returns: [length] of them for
    an even [length], one less for an odd one; built for 33 it returns the 32
    characters shown. *)
Theorem truncated_digest_length :
  (forall length parse_functions args kwargs,
     match uniqueHashExt (Some length) parse_functions args kwargs with
     | Ok digest => String.length digest = 2 * (length / 2)
     | Raise _ => True
     end)
  /\ uniqueHashExt (Some 33) false [VInt 1] []
     = Ok "ebaf5ccd6f37291d34bade1bbff539e7".
Proof.
  split; [| vm_compute; reflexivity].
  intros length parse_functions args kwargs. unfold uniqueHashExt.
  destruct (visit parse_functions (VCollection args) "") as [m |];
    cbn [mbind result_bind]; [| exact I].
  destruct (visit parse_functions (str_dict kwargs) m) as [m' |];
    cbn [mbind result_bind]; [| exact I].
  apply shake_128_length.
Qed.

(** C8. Keyword arguments whose names start with an underscore are no part
    of the hash: two calls whose keyword arguments agree once those are left
    out (same names, same values, same order) get the same result from the
    hasher, whatever the underscore names are bound to on either side. *)
Theorem underscore_keys_are_excluded length parse_functions args kwargs1 kwargs2 :
  public kwargs1 = public kwargs2 ->
  uniqueHashExt length parse_functions args kwargs1
  = uniqueHashExt length parse_functions args kwargs2.
Proof.
  intros Hpublic. unfold uniqueHashExt.
  destruct (visit parse_functions (VCollection args) "") as [m |];
    cbn [mbind result_bind]; [| reflexivity].
  rewrite (visit_str_dict_public parse_functions kwargs1),
          (visit_str_dict_public parse_functions kwargs2), Hpublic.
  reflexivity.
Qed.

Lemma underscore_keys_are_excluded_witness :
  uniqueHashExt None false [] [("x", VInt 1); ("_mode", VStr "on")]
  = uniqueHashExt None false [] [("x", VInt 1); ("_mode", VStr "update")]
  /\ uniqueHashExt None false [] [("x", VInt 1); ("_mode", VStr "on")]
     = Ok "623451a012e78866d4eb92e9e76fff7a".
Proof.
  split.
  - apply (underscore_keys_are_excluded None false []
             [("x", VInt 1); ("_mode", VStr "on")]
             [("x", VInt 1); ("_mode", VStr "update")]).
    reflexivity.
  - vm_compute. reflexivity.
Defined.

(** C9. A mapping with string keys hashes the same in every insertion
    order: for two lists of items without a repeated key that are
    permutations of each other, the hasher returns the same result with
    either as the keyword arguments, and with either as a positional
    argument anywhere among the others. *)
Theorem mapping_order_is_irrelevant length parse_functions items1 items2 :
  List.NoDup (map fst items1) ->
  Permutation items1 items2 ->
  (forall args,
     uniqueHashExt length parse_functions args items1
     = uniqueHashExt length parse_functions args items2)
  /\ (forall before after kwargs,
        uniqueHashExt length parse_functions
          (before ++ str_dict items1 :: after) kwargs
        = uniqueHashExt length parse_functions
            (before ++ str_dict items2 :: after) kwargs).
Proof.
  intros Hnd Hperm. split.
  - intros args. unfold uniqueHashExt.
    destruct (visit parse_functions (VCollection args) "") as [m |];
      cbn [mbind result_bind]; [| reflexivity].
    now rewrite (visit_str_dict_perm parse_functions items1 items2 m Hnd Hperm).
  - intros before after kwargs. unfold uniqueHashExt.
    rewrite (visit_collection_replace parse_functions before after
               (str_dict items1) (str_dict items2)); try reflexivity.
    intros m. now apply visit_str_dict_perm.
Qed.

Lemma mapping_order_is_irrelevant_witness :
  ((forall args,
      uniqueHashExt None false args [("a", VInt 1); ("b", VInt 2)]
      = uniqueHashExt None false args [("b", VInt 2); ("a", VInt 1)])
   /\ (forall before after kwargs,
         uniqueHashExt None false
           (before ++ str_dict [("a", VInt 1); ("b", VInt 2)] :: after) kwargs
         = uniqueHashExt None false
             (before ++ str_dict [("b", VInt 2); ("a", VInt 1)] :: after) kwargs))
  /\ uniqueHashExt None false [] [("b", VInt 2); ("a", VInt 1)]
     = Ok "f845ca9e952f0bb90eac99b860add35b".
Proof.
  split.
  - apply (mapping_order_is_irrelevant None false
             [("a", VInt 1); ("b", VInt 2)] [("b", VInt 2); ("a", VInt 1)]).
    + repeat constructor; cbn; intuition discriminate.
    + apply perm_swap.
  - vm_compute. reflexivity.
Defined.

(** C10. The hasher fails on a mapping with an integer key, and not for an
    unsupported type: with such a mapping as its only positional argument it
    raises a [TypeError] other than "Cannot handle type" (the key cannot be
    sliced, or cannot be ordered with string keys), while the integer itself,
    passed as the argument, is hashed. *)
Theorem integer_key_raises length parse_functions items z v kwargs :
  In (KInt z, v) items ->
  (exists msg,
     uniqueHashExt length parse_functions [VMapping items] kwargs
     = Raise (TypeError msg)
     /\ msg <> "Cannot handle type")
  /\ exists digest, uniqueHashExt length parse_functions [VInt z] [] = Ok digest.
Proof.
  intros Hin. split.
  - destruct (visit_int_key parse_functions items "" z v Hin)
      as (msg & Hraise & Hmsg).
    exists msg. split; [| exact Hmsg].
    unfold uniqueHashExt. rewrite visit_singleton by reflexivity.
    now rewrite Hraise.
  - unfold uniqueHashExt. rewrite visit_singleton by reflexivity.
    cbn [visit str_dict map visit_mapping sorted visit_keys mbind result_bind].
    eauto.
Qed.

Lemma integer_key_raises_witness :
  (exists msg,
     uniqueHashExt None false [VMapping [(KInt 1, VInt 2)]] []
     = Raise (TypeError msg)
     /\ msg <> "Cannot handle type")
  /\ exists digest, uniqueHashExt None false [VInt 1] [] = Ok digest.
Proof.
  apply (integer_key_raises None false [(KInt 1, VInt 2)] 1 (VInt 2) []).
  left. reflexivity.
Defined.

(** The example of C10 in full. *)
Example uniqueHash_int_key :
  uniqueHash [VMapping [(KInt 1, VInt 2)]] []
  = Raise (TypeError "'int' object is not subscriptable")
  /\ uniqueHash [VInt 1; VInt 2] [] = Ok "c20ad4d76fe97759aa27a0c99bff6710".
Proof. vm_compute. auto. Qed.

(** ** Cache modes and cache keys *)

(** C2, where the code parts from it. The four properties of each mode as
    [CacheMode.__init__] computes them, in the order read, write, delete,
    del_incomp: they are the table of the class but for [update], whose
    [delete] is true. *)
Theorem CacheMode_facets_as_computed :
  facets "on" = Ok (true, true, false, true)
  /\ facets "gen" = Ok (true, true, false, false)
  /\ facets "off" = Ok (false, false, false, false)
  /\ facets "update" = Ok (false, true, true, true)
  /\ facets "clear" = Ok (false, false, true, true)
  /\ facets "readonly" = Ok (true, false, false, false).
Proof. repeat split; reflexivity. Qed.

(** C6, where the code parts from it. Two functions of one module with
    different names share the key of a call, and the directory of the cache:
    the names start with an underscore, which the hasher skips, and agree on
    their first 64 characters. The second returns 2; called after the same
    call of the first, it returns the 1 of the first, as a hit. *)
Theorem underscore_names_share_cache_keys :
  refresh_v1.(__name__) <> refresh_v2.(__name__)
  /\ call_key refresh_v1 [VInt 2024] [] = Ok "b13dded1b356d26549383c7255665bfb"
  /\ call_key refresh_v2 [VInt 2024] [] = call_key refresh_v1 [VInt 2024] []
  /\ cache_subDir cacheDir refresh_v2 None None fresh
     = cache_subDir cacheDir refresh_v1 None None fresh
  /\ refresh_v2.(body) [VInt 2024] [] = Ok (VInt 2)
  /\ let first := cache cacheDir refresh_v1 None None [VInt 2024] [] fresh in
     let second := cache cacheDir refresh_v2 None None [VInt 2024] [] first.2 in
     first.1 = Ok (VInt 1) /\ second.1 = Ok (VInt 1)
     /\ second.2.(cached) = Some (VBool true) /\ second.2.(calls) = 1.
Proof.
  split; [discriminate |]. vm_compute. repeat split; reflexivity.
Qed.

(* ===================================================================== *)
(** * Further properties of the code *)
(* ===================================================================== *)

(** ** The wrapper in the modes [clear] and [update] *)

Section OtherModes.

Variable f_subDir : SubDir.
Variable f : function.
Variable vargs : list value.
Variable kwargs : list (string * value).
Variable token : string.
Variable key : string.

Hypothesis Htoken : kw_get "caching" kwargs = Some (VStr token).
Hypothesis Hcall_key : call_key f vargs (kw_del "caching" kwargs) = Ok key.

Let Hplain : plain_key key := uniqueHash_plain_key _ _ _ Hcall_key.

(** [caching='clear']: the entry goes, the body runs, nothing is stored. *)
Lemma wrapper_clear s :
  lower token = "clear" ->
  s.(fs) !! fullKeyName f_subDir key <> Some Dir ->
  wrapper f_subDir f vargs kwargs s
  = (f.(body) vargs (kw_del "caching" kwargs),
     set_fs (base.delete (fullKeyName f_subDir key))
       (count_call (with_key f_subDir key false s))).
Proof.
  intros Hclear Hfs. unfold wrapper. rewrite Htoken. cbn [value_lower].
  plumbing. rewrite Hclear.
  unfold call_key in Hcall_key. rewrite Hcall_key.
  change (String.eqb "clear" "no") with false.
  change (CacheMode.str_in "clear" ["yes"; "clear"; "update"]) with true.
  change (String.eqb "clear" "yes") with false.
  change (String.eqb "clear" "clear") with true.
  cbv beta iota.
  destruct (fs s !! fullKeyName f_subDir key) as [[| c] |] eqn:Hnode;
    [congruence | |].
  - rewrite (delete_file _ _ Hplain _ c) by exact Hnode. reflexivity.
  - rewrite (delete_absent _ _ Hplain) by exact Hnode.
    unfold set_fs, count_call, with_key. cbn [fs warnings cached cacheArgKey cacheFullKey calls].
    rewrite delete_id by exact Hnode. reflexivity.
Qed.

(** [caching='update']: the entry goes, the body runs and its value is
    stored, if it can be pickled. *)
Lemma wrapper_update s :
  lower token = "update" ->
  s.(fs) !! fullKeyName f_subDir key <> Some Dir ->
  wrapper f_subDir f vargs kwargs s
  = match f.(body) vargs (kw_del "caching" kwargs) with
    | Ok v =>
        (after_dump s v v,
         set_fs (insert (fullKeyName f_subDir key) (File (dumped s v)))
           (count_call (with_key f_subDir key false s)))
    | Raise e =>
        (Raise e,
         set_fs (base.delete (fullKeyName f_subDir key))
           (count_call (with_key f_subDir key false s)))
    end.
Proof.
  intros Hupdate Hfs. unfold wrapper. rewrite Htoken. cbn [value_lower].
  plumbing. rewrite Hupdate.
  unfold call_key in Hcall_key. rewrite Hcall_key.
  change (String.eqb "update" "no") with false.
  change (CacheMode.str_in "update" ["yes"; "clear"; "update"]) with true.
  change (String.eqb "update" "yes") with false.
  change (String.eqb "update" "clear") with false.
  cbv beta iota.
  assert (Hdel : forall s', fs s' = fs s ->
            delete f_subDir key false s'
            = (Ok tt, set_fs (base.delete (fullKeyName f_subDir key)) s')).
  { intros s' Hs'.
    destruct (fs s !! fullKeyName f_subDir key) as [[| c] |] eqn:Hnode;
      [congruence | |].
    - now rewrite (delete_file _ _ Hplain _ c) by (rewrite Hs'; exact Hnode).
    - rewrite (delete_absent _ _ Hplain) by (rewrite Hs'; exact Hnode).
      destruct s'. unfold set_fs. cbn [fs warnings cached cacheArgKey cacheFullKey calls] in *.
      rewrite delete_id by (rewrite Hs'; exact Hnode). reflexivity. }
  rewrite Hdel by reflexivity.
  destruct (body f vargs (kw_del "caching" kwargs)) as [v | e]; [| reflexivity].
  unfold __setitem__.
  rewrite (write_file _ _ Hplain)
    by (cbn; rewrite lookup_delete_eq; discriminate).
  unfold after_dump, dumped. same_pickling.
  destruct (pickle_error s v) as [e |] eqn:Hdump.
  - unfold set_fs, count_call, with_key.
    cbn [fs warnings cached cacheArgKey cacheFullKey calls pickle_error cwd].
    rewrite insert_delete_eq. reflexivity.
  - rewrite (write_file _ _ Hplain)
      by (cbn; rewrite lookup_insert_eq; discriminate).
    unfold after_dump, dumped. same_pickling. rewrite Hdump.
    unfold set_fs, count_call, with_key.
    cbn [fs warnings cached cacheArgKey cacheFullKey calls pickle_error cwd].
    rewrite insert_insert_eq, insert_delete_eq. reflexivity.
Qed.

End OtherModes.

(** ** Calls of the wrapper, one after the other *)

Lemma kw_del_absent k kwargs : kw_get k kwargs = None -> kw_del k kwargs = kwargs.
Proof.
  unfold kw_get, kw_del. induction kwargs as [| [k' v] kwargs IH]; [reflexivity |].
  cbn [List.find List.filter fst]. destruct (String.eqb k' k); [discriminate |].
  cbn [negb]. intros H. now rewrite IH.
Qed.

Lemma kw_get_del k kwargs : kw_get k (kw_del k kwargs) = None.
Proof.
  unfold kw_get, kw_del. induction kwargs as [| [k' v] kwargs IH]; [reflexivity |].
  cbn [List.filter fst]. destruct (String.eqb k' k) eqn:Hk; cbn [negb]; [exact IH |].
  cbn [List.find fst]. now rewrite Hk.
Qed.

(** X1. A call with [caching='clear'] (in any letter case) deletes the entry of
    its arguments, runs the body and stores nothing: when the body returns a
    value that [pickle.dump] can serialize, the next call without the keyword
    runs the body again and stores its value, and only the call after that
    one is served from the store. *)
Theorem clear_then_default_recomputes f_subDir f vargs kwargs token key v s :
  kw_get "caching" kwargs = Some (VStr token) ->
  lower token = "clear" ->
  call_key f vargs (kw_del "caching" kwargs) = Ok key ->
  f.(body) vargs (kw_del "caching" kwargs) = Ok v ->
  s.(pickle_error) v = None ->
  s.(fs) !! fullKeyName f_subDir key <> Some Dir ->
  let cleared := wrapper f_subDir f vargs kwargs s in
  let second := wrapper f_subDir f vargs (kw_del "caching" kwargs) cleared.2 in
  let third := wrapper f_subDir f vargs (kw_del "caching" kwargs) second.2 in
  cleared.1 = Ok v
  /\ cleared.2.(fs) = base.delete (fullKeyName f_subDir key) s.(fs)
  /\ cleared.2.(cached) = Some (VBool false)
  /\ cleared.2.(calls) = S s.(calls)
  /\ second.1 = Ok v
  /\ second.2.(cached) = Some (VBool false)
  /\ second.2.(calls) = S (S s.(calls))
  /\ third.1 = Ok v
  /\ third.2.(cached) = Some (VBool true)
  /\ third.2.(calls) = S (S s.(calls)).
Proof.
  intros Hkw Hclear Hkey Hv Hdump Hfs cleared second third.
  subst third second cleared.
  rewrite (wrapper_clear f_subDir f vargs kwargs token key Hkw Hkey s Hclear Hfs).
  cbn [fst snd].
  rewrite (wrapper_miss f_subDir f vargs _ key (kw_get_del _ _) Hkey)
    by (cbn; apply lookup_delete_eq).
  rewrite Hv. unfold after_dump, dumped. same_pickling. rewrite Hdump.
  cbn [fst snd].
  rewrite (wrapper_hit f_subDir f vargs _ key (kw_get_del _ _) Hkey v)
    by (cbn; apply lookup_insert_eq).
  cbn. auto 12.
Qed.

Lemma clear_then_default_recomputes_witness :
  let cleared :=
    wrapper double_subDir double [VInt 3] [("caching", VStr "clear")]
      (holding (Pickled (VInt 7))) in
  let second := wrapper double_subDir double [VInt 3] [] cleared.2 in
  let third := wrapper double_subDir double [VInt 3] [] second.2 in
  cleared.1 = Ok (VInt 6)
  /\ cleared.2.(fs) = base.delete double_3_file {[ double_3_file := File (Pickled (VInt 7)) ]}
  /\ cleared.2.(cached) = Some (VBool false)
  /\ cleared.2.(calls) = 1
  /\ second.1 = Ok (VInt 6)
  /\ second.2.(cached) = Some (VBool false)
  /\ second.2.(calls) = 2
  /\ third.1 = Ok (VInt 6)
  /\ third.2.(cached) = Some (VBool true)
  /\ third.2.(calls) = 2.
Proof.
  apply (clear_then_default_recomputes double_subDir double [VInt 3]
           [("caching", VStr "clear")] "clear" double_3_key (VInt 6)
           (holding (Pickled (VInt 7)))).
  - reflexivity.
  - reflexivity.
  - vm_compute. reflexivity.
  - reflexivity.
  - reflexivity.
  - vm_compute. discriminate.
Defined.

(** X2. A call with [caching='update'] never reads the stored entry: it runs
    the body once. When the body returns a value that [pickle.dump] can
    serialize, the value replaces the entry and the next default call is
    served from the store without running the body. When [pickle.dump]
    refuses the value, the call ends in its error and leaves the file it
    opened, on which the next default call ends in [KeyError], removing it.
    When the body raises, the old entry is gone all the same and the next
    default call runs the body again. *)
Theorem update_replaces_the_entry f_subDir f vargs kwargs token key s :
  kw_get "caching" kwargs = Some (VStr token) ->
  lower token = "update" ->
  call_key f vargs (kw_del "caching" kwargs) = Ok key ->
  s.(fs) !! fullKeyName f_subDir key <> Some Dir ->
  let updated := wrapper f_subDir f vargs kwargs s in
  let next := wrapper f_subDir f vargs (kw_del "caching" kwargs) updated.2 in
  updated.2.(cached) = Some (VBool false)
  /\ updated.2.(calls) = S s.(calls)
  /\ match f.(body) vargs (kw_del "caching" kwargs) with
     | Ok v =>
         match s.(pickle_error) v with
         | None =>
             updated.1 = Ok v
             /\ updated.2.(fs)
                = <[fullKeyName f_subDir key := File (Pickled v)]> s.(fs)
             /\ next.1 = Ok v
             /\ next.2.(cached) = Some (VBool true)
             /\ next.2.(calls) = S s.(calls)
         | Some e =>
             updated.1 = Raise e
             /\ updated.2.(fs)
                = <[fullKeyName f_subDir key := File Truncated]> s.(fs)
             /\ next.1 = Raise (KeyError key)
             /\ next.2.(fs) = base.delete (fullKeyName f_subDir key) s.(fs)
             /\ next.2.(calls) = S s.(calls)
         end
     | Raise e =>
         updated.1 = Raise e
         /\ updated.2.(fs) = base.delete (fullKeyName f_subDir key) s.(fs)
         /\ next.1 = Raise e
         /\ next.2.(calls) = S (S s.(calls))
     end.
Proof.
  intros Hkw Hupdate Hkey Hfs updated next. subst next updated.
  rewrite (wrapper_update f_subDir f vargs kwargs token key Hkw Hkey s Hupdate Hfs).
  destruct (body f vargs (kw_del "caching" kwargs)) as [v | e] eqn:Hbody.
  - unfold after_dump, dumped.
    destruct (pickle_error s v) as [e |] eqn:Hdump; cbn [fst snd].
    + rewrite (wrapper_truncated f_subDir f vargs _ key (kw_get_del _ _) Hkey)
        by (cbn; apply lookup_insert_eq).
      cbn. rewrite delete_insert_eq. auto 10.
    + rewrite (wrapper_hit f_subDir f vargs _ key (kw_get_del _ _) Hkey v)
        by (cbn; apply lookup_insert_eq).
      cbn. auto 10.
  - cbn [fst snd].
    rewrite (wrapper_miss f_subDir f vargs _ key (kw_get_del _ _) Hkey)
      by (cbn; apply lookup_delete_eq).
    rewrite Hbody. cbn. auto 10.
Qed.

Lemma update_replaces_the_entry_witness :
  let updated :=
    wrapper double_subDir double [VInt 3] [("caching", VStr "UPDATE")]
      (holding (Pickled (VInt 7))) in
  let next := wrapper double_subDir double [VInt 3] [] updated.2 in
  updated.2.(cached) = Some (VBool false)
  /\ updated.2.(calls) = 1
  /\ updated.1 = Ok (VInt 6)
  /\ updated.2.(fs)
     = <[double_3_file := File (Pickled (VInt 6))]>
         {[ double_3_file := File (Pickled (VInt 7)) ]}
  /\ next.1 = Ok (VInt 6)
  /\ next.2.(cached) = Some (VBool true)
  /\ next.2.(calls) = 1.
Proof.
  apply (update_replaces_the_entry double_subDir double [VInt 3]
           [("caching", VStr "UPDATE")] "UPDATE" double_3_key
           (holding (Pickled (VInt 7)))).
  - reflexivity.
  - reflexivity.
  - vm_compute. reflexivity.
  - vm_compute. discriminate.
Defined.

(** X3. In the default mode a pickled value found in the entry of the
    arguments is returned as it is, whatever the body would compute: the body
    does not run, [cached] is [True], the two key attributes are set, and the
    store and the log are left as they were. *)
Theorem stored_entry_is_returned_as_is f_subDir f vargs kwargs key w s :
  kw_get "caching" kwargs = None ->
  call_key f vargs kwargs = Ok key ->
  s.(fs) !! fullKeyName f_subDir key = Some (File (Pickled w)) ->
  let after := wrapper f_subDir f vargs kwargs s in
  after.1 = Ok w
  /\ after.2.(cached) = Some (VBool true)
  /\ after.2.(cacheArgKey) = Some (VStr key)
  /\ after.2.(cacheFullKey) = Some (VStr (fullKeyName f_subDir key))
  /\ after.2.(calls) = s.(calls)
  /\ after.2.(fs) = s.(fs)
  /\ after.2.(warnings) = s.(warnings).
Proof.
  intros Hkw Hkey Hfs after. subst after.
  rewrite (wrapper_hit f_subDir f vargs kwargs key Hkw Hkey w s Hfs).
  cbn. auto 10.
Qed.

Lemma stored_entry_is_returned_as_is_witness :
  let after :=
    wrapper double_subDir double [VInt 3] [] (holding (Pickled (VInt 7))) in
  after.1 = Ok (VInt 7)
  /\ after.2.(cached) = Some (VBool true)
  /\ after.2.(cacheArgKey) = Some (VStr double_3_key)
  /\ after.2.(cacheFullKey) = Some (VStr (fullKeyName double_subDir double_3_key))
  /\ after.2.(calls) = 0
  /\ after.2.(fs) = {[ double_3_file := File (Pickled (VInt 7)) ]}
  /\ after.2.(warnings) = [].
Proof.
  apply (stored_entry_is_returned_as_is double_subDir double [VInt 3] []
           double_3_key (VInt 7) (holding (Pickled (VInt 7)))).
  - reflexivity.
  - vm_compute. reflexivity.
  - vm_compute. reflexivity.
Defined.

(** X4. An entry that is no pickle (an error of [pickle.load] other than
    [EOFError]) is not repaired: the call fails with that error without running
    the body, the file stays, and so the same call fails again. *)
Theorem garbled_entry_fails_every_call f_subDir f vargs kwargs key s :
  kw_get "caching" kwargs = None ->
  call_key f vargs kwargs = Ok key ->
  s.(fs) !! fullKeyName f_subDir key = Some (File Garbled) ->
  let failed := wrapper f_subDir f vargs kwargs s in
  let again := wrapper f_subDir f vargs kwargs failed.2 in
  failed.1 = Raise UnpicklingError
  /\ failed.2.(fs) = s.(fs)
  /\ failed.2.(warnings) = s.(warnings)
  /\ failed.2.(calls) = s.(calls)
  /\ again.1 = Raise UnpicklingError
  /\ again.2.(calls) = s.(calls).
Proof.
  intros Hkw Hkey Hfs failed again. subst again failed.
  rewrite (wrapper_garbled f_subDir f vargs kwargs key Hkw Hkey s Hfs).
  cbn [fst snd].
  rewrite (wrapper_garbled f_subDir f vargs kwargs key Hkw Hkey) by exact Hfs.
  cbn. auto 10.
Qed.

Lemma garbled_entry_fails_every_call_witness :
  let failed := wrapper double_subDir double [VInt 3] [] (holding Garbled) in
  let again := wrapper double_subDir double [VInt 3] [] failed.2 in
  failed.1 = Raise UnpicklingError
  /\ failed.2.(fs) = {[ double_3_file := File Garbled ]}
  /\ failed.2.(warnings) = []
  /\ failed.2.(calls) = 0
  /\ again.1 = Raise UnpicklingError
  /\ again.2.(calls) = 0.
Proof.
  apply (garbled_entry_fails_every_call double_subDir double [VInt 3] []
           double_3_key (holding Garbled)).
  - reflexivity.
  - vm_compute. reflexivity.
  - vm_compute. reflexivity.
Defined.

(** X5. In the modes ['yes'], ['clear'] and ['update'], when the arguments
    cannot be hashed the call fails with the error of the hasher before
    anything else happens: no attribute is set, the store is not touched and
    the body does not run. *)
Theorem hashing_failure_precedes_all_effects f_subDir f vargs kwargs mode e s :
  selected_mode kwargs = Ok mode ->
  In mode ["yes"; "clear"; "update"] ->
  call_key f vargs (kw_del "caching" kwargs) = Raise e ->
  wrapper f_subDir f vargs kwargs s = (Raise e, s).
Proof.
  unfold selected_mode. intros Hmode Hin Hkey. unfold wrapper.
  unfold call_key in Hkey.
  destruct (kw_get "caching" kwargs) as [[| | token | | | | | |] |] eqn:Hkw;
    try discriminate; injection Hmode as <-.
  - cbn [value_lower]. plumbing. rewrite Hkey.
    cbn [In] in Hin.
    destruct Hin as [<- | [<- | [<- | []]]]; reflexivity.
  - rewrite (kw_del_absent _ _ Hkw) in Hkey. plumbing. rewrite Hkey.
    reflexivity.
Qed.

Lemma hashing_failure_precedes_all_effects_witness :
  wrapper double_subDir double [VObject "<class 'object'>" None]
    [("caching", VStr "update")] (holding (Pickled (VInt 7)))
  = (Raise (TypeError "Cannot handle type <class 'object'>"),
     holding (Pickled (VInt 7))).
Proof.
  apply (hashing_failure_precedes_all_effects double_subDir double
           [VObject "<class 'object'>" None] [("caching", VStr "update")]
           "update").
  - reflexivity.
  - cbn. auto.
  - vm_compute. reflexivity.
Defined.

(** X25. A result that [pickle.dump] refuses is never cached. In the default
    mode, with nothing stored, the call runs the body and ends in the error
    of [pickle.dump], leaving the file it opened; the next call finds that
    file, removes it with a warning and ends in [KeyError] without running
    the body; the call after that stands where the first one stood and ends
    in the error of [pickle.dump] again. No call returns the result of the
    body. *)
Theorem unpicklable_result_is_never_cached f_subDir f vargs kwargs key v e s :
  kw_get "caching" kwargs = None ->
  call_key f vargs kwargs = Ok key ->
  f.(body) vargs kwargs = Ok v ->
  s.(pickle_error) v = Some e ->
  s.(fs) !! fullKeyName f_subDir key = None ->
  let first := wrapper f_subDir f vargs kwargs s in
  let second := wrapper f_subDir f vargs kwargs first.2 in
  let third := wrapper f_subDir f vargs kwargs second.2 in
  first.1 = Raise e
  /\ first.2.(fs) = <[fullKeyName f_subDir key := File Truncated]> s.(fs)
  /\ first.2.(calls) = S s.(calls)
  /\ second.1 = Raise (KeyError key)
  /\ second.2.(fs) = s.(fs)
  /\ second.2.(warnings)
     = (s.(warnings) ++ [file_deleted key (fullKeyName f_subDir key)])%list
  /\ second.2.(calls) = S s.(calls)
  /\ third.1 = Raise e
  /\ third.2.(fs) = first.2.(fs)
  /\ third.2.(calls) = S (S s.(calls)).
Proof.
  intros Hkw Hkey Hv Hdump Hfs first second third. subst third second first.
  rewrite (wrapper_miss f_subDir f vargs kwargs key Hkw Hkey s Hfs), Hv.
  unfold after_dump, dumped. rewrite Hdump. cbn [fst snd].
  rewrite (wrapper_truncated f_subDir f vargs kwargs key Hkw Hkey)
    by (cbn; apply lookup_insert_eq).
  cbn [fst snd].
  rewrite (wrapper_miss f_subDir f vargs kwargs key Hkw Hkey)
    by (cbn; apply lookup_delete_eq).
  rewrite Hv. unfold after_dump, dumped. same_pickling. rewrite Hdump.
  cbn. rewrite (delete_insert_id _ _ _ Hfs). auto 12.
Qed.

Lemma unpicklable_result_is_never_cached_witness :
  let first := wrapper make_adder_subDir make_adder [VInt 3] [] fresh in
  let second := wrapper make_adder_subDir make_adder [VInt 3] [] first.2 in
  let third := wrapper make_adder_subDir make_adder [VInt 3] [] second.2 in
  first.1 = Raise PicklingError
  /\ first.2.(fs)
     = <[fullKeyName make_adder_subDir make_adder_3_key := File Truncated]> ∅
  /\ first.2.(calls) = 1
  /\ second.1 = Raise (KeyError make_adder_3_key)
  /\ second.2.(fs) = ∅
  /\ second.2.(warnings)
     = [file_deleted make_adder_3_key
          (fullKeyName make_adder_subDir make_adder_3_key)]
  /\ second.2.(calls) = 1
  /\ third.1 = Raise PicklingError
  /\ third.2.(fs) = first.2.(fs)
  /\ third.2.(calls) = 2.
Proof.
  apply (unpicklable_result_is_never_cached make_adder_subDir make_adder
           [VInt 3] [] make_adder_3_key
           (VFunction true (Ok ["    return lambda y: x + y"])) PicklingError
           fresh).
  - reflexivity.
  - vm_compute. reflexivity.
  - reflexivity.
  - reflexivity.
  - reflexivity.
Defined.

(** ** Reading, writing and deleting a key *)

Section StoreMore.

Variable self : SubDir.
Variable key : string.
Hypothesis Hkey : plain_key key.

Let Hsplit : os_path_split key = ("", key) := os_path_split_plain key Hkey.

Lemma read_pickled s v default throwOnError :
  s.(fs) !! fullKeyName self key = Some (File (Pickled v)) ->
  read self key default throwOnError s = (Ok v, s).
Proof. intros H. now run_plain Hkey Hsplit H. Qed.

Lemma read_truncated s default :
  s.(fs) !! fullKeyName self key = Some (File Truncated) ->
  read self key default false s
  = (Ok default,
     add_warning (file_deleted key (fullKeyName self key))
       (set_fs (base.delete (fullKeyName self key)) s)).
Proof. intros H. now run_plain Hkey Hsplit H. Qed.

Lemma read_absent s default throwOnError :
  s.(fs) !! fullKeyName self key = None ->
  read self key default throwOnError s
  = (if throwOnError then Raise (KeyError key) else Ok default, s).
Proof. intros H. run_plain Hkey Hsplit H. now destruct throwOnError. Qed.



End StoreMore.

(** X6. Writing a value that [pickle.dump] can serialize under a key without
    directory part, where no directory is in the way, stores it in the file
    of the key and nowhere else: [read] gives the value back, [exists] is
    [True], and nothing is logged. *)
Theorem write_then_read_round_trip self key obj default throwOnError s :
  plain_key key ->
  s.(pickle_error) obj = None ->
  s.(fs) !! fullKeyName self key <> Some Dir ->
  let written := write self key obj s in
  written.1 = Ok tt
  /\ read self key default throwOnError written.2 = (Ok obj, written.2)
  /\ exists_ self key written.2 = (Ok true, written.2)
  /\ written.2.(fs) = <[fullKeyName self key := File (Pickled obj)]> s.(fs)
  /\ written.2.(warnings) = s.(warnings).
Proof.
  intros Hkey Hdump Hfs written. subst written.
  rewrite (write_file self key Hkey s obj Hfs).
  unfold after_dump, dumped. rewrite Hdump. cbn [fst snd].
  rewrite (read_pickled self key Hkey _ obj) by (cbn; apply lookup_insert_eq).
  rewrite (exists_file self key _ (Pickled obj)) by (cbn; apply lookup_insert_eq).
  cbn. auto.
Qed.

Lemma write_then_read_round_trip_witness :
  let written := write double_subDir "result" (VStr "done") fresh in
  written.1 = Ok tt
  /\ read double_subDir "result" VNone true written.2 = (Ok (VStr "done"), written.2)
  /\ exists_ double_subDir "result" written.2 = (Ok true, written.2)
  /\ written.2.(fs)
     = <[fullKeyName double_subDir "result" := File (Pickled (VStr "done"))]> ∅
  /\ written.2.(warnings) = [].
Proof.
  apply (write_then_read_round_trip double_subDir "result" (VStr "done") VNone
           true fresh).
  - split; reflexivity.
  - reflexivity.
  - vm_compute. discriminate.
Defined.

(** X26. Writing a value that [pickle.dump] refuses, under a key without
    directory part, ends in the error of [pickle.dump] and leaves the file it
    opened, so that [exists] is [True] for a key that holds nothing: [read]
    then returns the default, removes the file and logs a warning. *)
Theorem write_of_an_unpicklable_value self key obj e default s :
  plain_key key ->
  s.(pickle_error) obj = Some e ->
  s.(fs) !! fullKeyName self key <> Some Dir ->
  let written := write self key obj s in
  let reread := read self key default false written.2 in
  written.1 = Raise e
  /\ written.2.(fs) = <[fullKeyName self key := File Truncated]> s.(fs)
  /\ written.2.(warnings) = s.(warnings)
  /\ exists_ self key written.2 = (Ok true, written.2)
  /\ reread.1 = Ok default
  /\ reread.2.(fs) = base.delete (fullKeyName self key) s.(fs)
  /\ reread.2.(warnings)
     = (s.(warnings) ++ [file_deleted key (fullKeyName self key)])%list.
Proof.
  intros Hkey Hdump Hfs written reread. subst reread written.
  rewrite (write_file self key Hkey s obj Hfs).
  unfold after_dump, dumped. rewrite Hdump. cbn [fst snd].
  rewrite (exists_file self key _ Truncated) by (cbn; apply lookup_insert_eq).
  rewrite (read_truncated self key Hkey) by (cbn; apply lookup_insert_eq).
  cbn. rewrite delete_insert_eq. auto 10.
Qed.

Lemma write_of_an_unpicklable_value_witness :
  let written :=
    write double_subDir "result" (VFunction true (Ok ["lambda y: y"])) fresh in
  let reread := read double_subDir "result" (VInt 0) false written.2 in
  written.1 = Raise PicklingError
  /\ written.2.(fs) = <[fullKeyName double_subDir "result" := File Truncated]> ∅
  /\ written.2.(warnings) = []
  /\ exists_ double_subDir "result" written.2 = (Ok true, written.2)
  /\ reread.1 = Ok (VInt 0)
  /\ reread.2.(fs) = base.delete (fullKeyName double_subDir "result") ∅
  /\ reread.2.(warnings)
     = [file_deleted "result" (fullKeyName double_subDir "result")].
Proof.
  apply (write_of_an_unpicklable_value double_subDir "result"
           (VFunction true (Ok ["lambda y: y"])) PicklingError (VInt 0) fresh).
  - split; reflexivity.
  - reflexivity.
  - vm_compute. discriminate.
Defined.

(** X7. For a key without directory part whose file does not exist, [read]
    returns the default, with [throwOnError] it raises [KeyError] of the key,
    as [self[key]] does, and [exists] is [False]; none of them changes
    anything. *)
Theorem read_of_a_missing_key self key default s :
  plain_key key ->
  s.(fs) !! fullKeyName self key = None ->
  read self key default false s = (Ok default, s)
  /\ read self key default true s = (Raise (KeyError key), s)
  /\ __getitem__ self key s = (Raise (KeyError key), s)
  /\ exists_ self key s = (Ok false, s).
Proof.
  intros Hkey Hfs.
  rewrite !(read_absent self key Hkey s _ _ Hfs).
  unfold __getitem__. rewrite (read_absent self key Hkey s _ _ Hfs).
  rewrite (exists_absent self key s Hfs). auto.
Qed.

Lemma read_of_a_missing_key_witness :
  read double_subDir "result" (VInt 0) false fresh = (Ok (VInt 0), fresh)
  /\ read double_subDir "result" (VInt 0) true fresh
     = (Raise (KeyError "result"), fresh)
  /\ __getitem__ double_subDir "result" fresh = (Raise (KeyError "result"), fresh)
  /\ exists_ double_subDir "result" fresh = (Ok false, fresh).
Proof.
  apply (read_of_a_missing_key double_subDir "result" (VInt 0) fresh).
  - split; reflexivity.
  - reflexivity.
Defined.



(** X9. [read] of a key with a directory part always raises, whatever the
    store holds: [_read] calls itself on the sub directory with one argument
    missing. *)
Theorem read_with_a_directory_in_the_key_raises self key default throwOnError s :
  (0 <? String.length (os_path_split key).1)%nat = true ->
  exists e, (read self key default throwOnError s).1 = Raise e.
Proof.
  intros Hsub. unfold read, _read.
  cbv [mbind M_bind mret M_ret raise verify].
  destruct (0 <? String.length key)%nat; [| eauto].
  destruct (os_path_split key) as [sub tail]. cbn [fst] in Hsub. rewrite Hsub.
  destruct (SubDir_init self sub s) as [[self' | e] s']; eauto.
Qed.

Lemma read_with_a_directory_in_the_key_raises_witness :
  exists e, (read cacheDir "testns/result" VNone false fresh).1 = Raise e.
Proof.
  apply (read_with_a_directory_in_the_key_raises cacheDir "testns/result"
           VNone false fresh).
  reflexivity.
Defined.

(** ** File names *)

Section Strings.

Lemma chars_app a b : chars (a ++ b) = (chars a ++ chars b)%list.
Proof.
  unfold chars. induction a as [| c a IH]; [reflexivity |].
  change (String c a ++ b) with (String c (a ++ b)).
  cbn [list_ascii_of_string app]. now rewrite IH.
Qed.

Lemma string_app_assoc (a b c : string) : (a ++ b) ++ c = a ++ b ++ c.
Proof.
  induction a as [| x a IH]; [reflexivity |].
  change ((String x a ++ b) ++ c) with (String x ((a ++ b) ++ c)).
  now rewrite IH.
Qed.

Lemma str_app l1 l2 : str (l1 ++ l2) = str l1 ++ str l2.
Proof.
  unfold str. induction l1 as [| c l1 IH]; [reflexivity |].
  cbn [string_of_list_ascii app].
  change (String c (string_of_list_ascii l1) ++ string_of_list_ascii l2)
    with (String c (string_of_list_ascii l1 ++ string_of_list_ascii l2)).
  now rewrite IH.
Qed.

Lemma str_chars s : str (chars s) = s.
Proof. apply string_of_list_ascii_of_string. Qed.

Lemma chars_str l : chars (str l) = l.
Proof. apply list_ascii_of_string_of_list_ascii. Qed.

Lemma chars_length s : List.length (chars s) = String.length s.
Proof.
  unfold chars. induction s as [| c s IH]; [reflexivity |]. cbn. now rewrite IH.
Qed.

Lemma string_app_length a b :
  String.length (a ++ b) = String.length a + String.length b.
Proof. rewrite <- !chars_length, chars_app. apply length_app. Qed.

(** [(a + b)[-len(b):] == b]. *)
Lemma slice_last_app a b : slice_last (String.length b) (a ++ b) = b.
Proof.
  unfold slice_last, slice_from.
  rewrite string_app_length, chars_app.
  replace (String.length a + String.length b - String.length b)
    with (List.length (chars a)) by (rewrite chars_length; lia).
  rewrite skipn_app, skipn_all, Nat.sub_diag. cbn. apply str_chars.
Qed.

(** A string that ends with [b] is some string followed by [b]. *)
Lemma slice_last_inv n s b :
  slice_last n s = b -> s = slice_to (String.length s - n) s ++ b.
Proof.
  unfold slice_last, slice_from, slice_to. intros <-.
  rewrite <- str_app, firstn_skipn. symmetry. apply str_chars.
Qed.

End Strings.

(** X10. With a non-empty extension the file name of a key always ends with
    the extension. A key followed by the extension is taken as it is, no
    second extension is added: it names the same file as the key alone exactly
    when the key does not itself end with the extension. *)
Theorem fullKeyName_ends_with_ext self key :
  (0 <? String.length self.(ext))%nat = true ->
  slice_last (String.length self.(ext)) (fullKeyName self key) = self.(ext)
  /\ fullKeyName self (key ++ self.(ext)) = self.(path) ++ key ++ self.(ext)
  /\ (fullKeyName self (key ++ self.(ext)) = fullKeyName self key
      <-> slice_last (String.length self.(ext)) key <> self.(ext)).
Proof.
  intros Hext.
  assert (Hfull : fullKeyName self (key ++ ext self)
                  = path self ++ key ++ ext self).
  { unfold fullKeyName. rewrite Hext, slice_last_app, String.eqb_refl.
    reflexivity. }
  split; [| split; [exact Hfull |]].
  - unfold fullKeyName. rewrite Hext. cbn [andb].
    destruct (String.eqb_spec (slice_last (String.length (ext self)) key) (ext self))
      as [Hends | Hends]; cbn [negb].
    + apply slice_last_inv in Hends. rewrite Hends.
      rewrite <- string_app_assoc. apply slice_last_app.
    + rewrite <- string_app_assoc. apply slice_last_app.
  - rewrite Hfull. unfold fullKeyName. rewrite Hext. cbn [andb].
    destruct (String.eqb_spec (slice_last (String.length (ext self)) key) (ext self))
      as [Hends | Hends]; cbn [negb].
    + split; [| contradiction]. intros Heq.
      apply (f_equal String.length) in Heq.
      rewrite !string_app_length in Heq. apply Nat.ltb_lt in Hext. lia.
    + split; [now intros _ | reflexivity].
Qed.

Lemma fullKeyName_ends_with_ext_witness :
  slice_last (String.length cacheDir.(ext)) (fullKeyName cacheDir "result")
  = cacheDir.(ext)
  /\ fullKeyName cacheDir ("result" ++ cacheDir.(ext))
     = cacheDir.(path) ++ "result" ++ cacheDir.(ext)
  /\ (fullKeyName cacheDir ("result" ++ cacheDir.(ext))
      = fullKeyName cacheDir "result"
      <-> slice_last (String.length cacheDir.(ext)) "result" <> cacheDir.(ext)).
Proof.
  apply (fullKeyName_ends_with_ext cacheDir "result"); reflexivity.
Defined.

(** ** The hasher on collections and objects *)

Section Collections.

Variable parse_functions : bool.


Lemma visit_collection items m :
  visit parse_functions (VCollection items) m
  = visit_elements (map (with_visit parse_functions) items) m.
Proof. reflexivity. Qed.

Lemma visit_elements_app (l1 l2 : list (value * traversal)) m :
  visit_elements (l1 ++ l2) m
  = (m' ← visit_elements l1 m; visit_elements l2 m').
Proof.
  revert m. induction l1 as [| [k visit_k] l1 IH]; intros m; [reflexivity |].
  cbn [app visit_elements]. destruct (element_is_private k); [apply IH |].
  destruct (visit_k m); cbn [mbind result_bind]; [apply IH | reflexivity].
Qed.

Lemma visit_elements_ignored x m :
  ignored parse_functions x = true ->
  visit_elements [with_visit parse_functions x] m = Ok m.
Proof.
  unfold with_visit. cbn [visit_elements].
  destruct x; cbn [ignored element_is_private visit]; try discriminate.
  - reflexivity.
  - intros ->%negb_true_iff. reflexivity.
  - intros ->. reflexivity.
Qed.

Lemma visit_collection_ignored before x after m :
  ignored parse_functions x = true ->
  visit parse_functions (VCollection (before ++ x :: after)) m
  = visit parse_functions (VCollection (before ++ after)) m.
Proof.
  intros Hx. rewrite !visit_collection, !map_app, !visit_elements_app.
  destruct (visit_elements (map (with_visit parse_functions) before) m) as [m' |];
    cbn [mbind result_bind]; [| reflexivity].
  change (map (with_visit parse_functions) (x :: after))
    with ([with_visit parse_functions x] ++ map (with_visit parse_functions) after)%list.
  rewrite visit_elements_app, (visit_elements_ignored x m' Hx). reflexivity.
Qed.

Lemma visit_collection_flat before inner after m :
  visit parse_functions (VCollection (before ++ VCollection inner :: after)) m
  = visit parse_functions (VCollection (before ++ inner ++ after)) m.
Proof.
  rewrite !visit_collection, !map_app, !visit_elements_app.
  destruct (visit_elements (map (with_visit parse_functions) before) m) as [m' |];
    cbn [mbind result_bind]; [| reflexivity].
  rewrite visit_elements_app.
  cbn [map visit_elements with_visit element_is_private fst snd].
  rewrite visit_collection. reflexivity.
Qed.

Lemma visit_collection_unsupported type_repr before after m :
  exists e,
    visit parse_functions
      (VCollection (before ++ VObject type_repr None :: after)) m
    = Raise e.
Proof.
  rewrite visit_collection, map_app, visit_elements_app.
  destruct (visit_elements (map (with_visit parse_functions) before) m) as [m' | e];
    cbn [mbind result_bind]; eauto.
Qed.

End Collections.

(** X11. Whenever the hasher returns, its result is lower-case hexadecimal
    text: 32 characters without a length (MD5), and [2 * (length // 2)]
    characters for a given [length] (SHAKE128). *)
Theorem digests_are_hexadecimal length parse_functions args kwargs digest :
  uniqueHashExt length parse_functions args kwargs = Ok digest ->
  forallb is_hex (chars digest) = true
  /\ String.length digest
     = match length with
       | None => 32
       | Some length => 2 * (length / 2)
       end.
Proof.
  unfold uniqueHashExt.
  destruct (visit parse_functions (VCollection args) "") as [m |];
    cbn [mbind result_bind]; [| discriminate].
  destruct (visit parse_functions (str_dict kwargs) m) as [m' |];
    cbn [mbind result_bind]; [| discriminate].
  intros [= <-]. destruct length as [length |].
  - split; [apply hex_of_bytes_is_hex | apply shake_128_length].
  - split; [apply md5_is_hex | apply md5_length].
Qed.

Lemma digests_are_hexadecimal_witness :
  forallb is_hex (chars "623451a012e78866d4eb92e9e76fff7a") = true
  /\ String.length "623451a012e78866d4eb92e9e76fff7a" = 32.
Proof.
  apply (digests_are_hexadecimal None false [] [("x", VInt 1)]
           "623451a012e78866d4eb92e9e76fff7a").
  vm_compute. reflexivity.
Defined.

(** X12. A positional argument that is [None], a [str] that starts with an
    underscore, or (unless functions are parsed) a function does not
    contribute to the hash: the result is the same as without it. *)
Theorem ignored_arguments length parse_functions before x after kwargs :
  ignored parse_functions x = true ->
  uniqueHashExt length parse_functions (before ++ x :: after) kwargs
  = uniqueHashExt length parse_functions (before ++ after) kwargs.
Proof.
  intros Hx. unfold uniqueHashExt.
  now rewrite (visit_collection_ignored parse_functions before x after "" Hx).
Qed.

Lemma ignored_arguments_witness :
  uniqueHashExt None false ([VInt 1] ++ VStr "_draft" :: [VInt 2]) []
  = uniqueHashExt None false ([VInt 1] ++ [VInt 2]) [].
Proof.
  apply (ignored_arguments None false [VInt 1] (VStr "_draft") [VInt 2] []).
  reflexivity.
Defined.

(** X13. A list (tuple, set) among the positional arguments hashes like its
    elements written out in its place: the nesting is not part of the hash. *)
Theorem nesting_is_not_hashed length parse_functions before inner after kwargs :
  uniqueHashExt length parse_functions (before ++ VCollection inner :: after) kwargs
  = uniqueHashExt length parse_functions (before ++ inner ++ after) kwargs.
Proof.
  unfold uniqueHashExt.
  now rewrite (visit_collection_flat parse_functions before inner after "").
Qed.

(** X14. An object that is neither atomic, a mapping, a collection, a
    function, nor has a [__dict__] makes the hasher raise wherever it stands
    among the positional arguments; as the first argument it gives
    [TypeError] with the message "Cannot handle type " followed by the text
    of its type. *)
Theorem unsupported_object_raises
    length parse_functions type_repr before after kwargs :
  (exists e,
     uniqueHashExt length parse_functions
       (before ++ VObject type_repr None :: after) kwargs
     = Raise e)
  /\ uniqueHashExt length parse_functions (VObject type_repr None :: after)
       kwargs
     = Raise (TypeError ("Cannot handle type " ++ type_repr)).
Proof.
  split.
  - unfold uniqueHashExt.
    destruct (visit_collection_unsupported parse_functions type_repr before
                after "") as [e He].
    exists e. now rewrite He.
  - reflexivity.
Qed.

(** X15. An object is hashed by its [__dict__] alone: two objects, of the
    same type or not, whose attributes agree, in any order, after dropping the
    names that start with an underscore, hash alike wherever they stand among
    the arguments. *)
Theorem objects_hash_by_public_attributes
    length parse_functions type1 type2 attrs1 attrs2 before after kwargs :
  List.NoDup (map fst (public attrs1)) ->
  Permutation (public attrs1) (public attrs2) ->
  uniqueHashExt length parse_functions
    (before ++ VObject type1 (Some (str_dict attrs1)) :: after) kwargs
  = uniqueHashExt length parse_functions
      (before ++ VObject type2 (Some (str_dict attrs2)) :: after) kwargs.
Proof.
  intros Hnd Hperm. unfold uniqueHashExt.
  rewrite (visit_collection_replace parse_functions before after
             (VObject type1 (Some (str_dict attrs1)))
             (VObject type2 (Some (str_dict attrs2)))); try reflexivity.
  intros m.
  change (visit parse_functions (VObject type1 (Some (str_dict attrs1))) m)
    with (visit parse_functions (str_dict attrs1) m).
  change (visit parse_functions (VObject type2 (Some (str_dict attrs2))) m)
    with (visit parse_functions (str_dict attrs2) m).
  rewrite (visit_str_dict_public parse_functions attrs1),
          (visit_str_dict_public parse_functions attrs2).
  now apply visit_str_dict_perm.
Qed.

Lemma objects_hash_by_public_attributes_witness :
  uniqueHashExt None false
    ([VInt 3]
       ++ VObject "<class 'testns.Point'>"
            (Some (str_dict [("x", VInt 1); ("_cache", VInt 5); ("y", VInt 2)]))
       :: []) []
  = uniqueHashExt None false
      ([VInt 3]
         ++ VObject "<class 'testns.Point'>"
              (Some (str_dict [("y", VInt 2); ("x", VInt 1)]))
         :: []) [].
Proof.
  apply (objects_hash_by_public_attributes None false
           "<class 'testns.Point'>" "<class 'testns.Point'>"
           [("x", VInt 1); ("_cache", VInt 5); ("y", VInt 2)]
           [("y", VInt 2); ("x", VInt 1)] [VInt 3] [] []).
  - cbv. repeat constructor; cbn; intuition discriminate.
  - cbv. apply perm_swap.
Defined.

(** X16. [_compress_function_code] returns as many lines as the source of
    the function has, and none of them holds a blank, a tab or a line feed. *)
Theorem compressed_code_has_no_blanks plain src code :
  _compress_function_code plain (Ok src) = Ok code ->
  Forall (fun line => existsb is_blank (chars line) = false) code
  /\ List.length code = List.length src.
Proof.
  unfold _compress_function_code. cbn [mbind result_bind].
  set (squeeze := fun l : string => _).
  assert (Hsqueeze : forall l, existsb is_blank (chars (squeeze l)) = false).
  { intros l. subst squeeze. cbv beta. unfold remove_char, replace_char.
    rewrite !chars_str.
    induction (chars l) as [| c cs IH]; [reflexivity |].
    cbn [map List.filter].
    destruct (Ascii.eqb c (ascii_of_nat 9)) eqn:Htab.
    - cbn. exact IH.
    - destruct (Ascii.eqb c " "%char) eqn:Hsp; cbn [negb List.filter]; [exact IH |].
      destruct (Ascii.eqb c (ascii_of_nat 10)) eqn:Hnl; cbn [negb List.filter];
        [exact IH |].
      cbn [existsb]. unfold is_blank at 1. now rewrite Hsp, Htab, Hnl. }
  assert (Hall : forall lines, Forall (fun line => existsb is_blank (chars line) = false)
                                 (map squeeze lines)).
  { intros lines. apply Forall_map, Forall_forall. intros l _. apply Hsqueeze. }
  destruct plain.
  - destruct src as [| l rest]; cbn [mbind result_bind]; [discriminate |].
    intros [= <-]. split; [apply (Hall (_ :: rest)) |].
    cbn [map List.length]. now rewrite length_map.
  - cbn [mbind result_bind]. intros [= <-].
    split; [apply Hall | now rewrite length_map].
Qed.

Lemma compressed_code_has_no_blanks_witness :
  Forall (fun line => existsb is_blank (chars line) = false) ["x:x+1"]
  /\ List.length ["x:x+1"] = List.length ["f = lambda x: x + 1"].
Proof.
  apply (compressed_code_has_no_blanks true ["f = lambda x: x + 1"] ["x:x+1"]).
  vm_compute. reflexivity.
Defined.

(** ** Cache modes, [bind] and the formatters *)

(** *** Cache modes *)

Lemma str_in_In x l : CacheMode.str_in x l = true <-> In x l.
Proof.
  unfold CacheMode.str_in. rewrite existsb_exists. split.
  - intros (y & Hy & ->%String.eqb_eq). exact Hy.
  - intros Hx. exists x. split; [exact Hx | apply String.eqb_refl].
Qed.


(** X17. Every [CacheMode] that can be constructed has one of the six mode
    names and exactly one of its [is_...] properties holds; it never both
    reads and deletes, it deletes incompatible files whenever it deletes, the
    mode [off] has none of the four facets, and constructing a mode from it or
    from its name gives the same mode. *)
Theorem CacheMode_invariants arg c :
  CacheMode.__init__ arg = Ok c ->
  In (CacheMode.mode c) CacheMode.MODES
  /\ is_count c = 1
  /\ CacheMode.read c && CacheMode.delete c = false
  /\ (CacheMode.delete c = true -> CacheMode.del_incomp c = true)
  /\ (CacheMode.is_off c = true ->
      CacheMode.read c = false /\ CacheMode.write c = false
      /\ CacheMode.delete c = false /\ CacheMode.del_incomp c = false)
  /\ CacheMode.__init__ (Some (CacheMode.OfMode c)) = Ok c
  /\ CacheMode.__init__ (Some (CacheMode.OfStr (CacheMode.mode c))) = Ok c.
Proof.
  unfold CacheMode.__init__.
  set (name := match match arg with
                     | Some mode => mode
                     | None => CacheMode.OfStr CacheMode.ON
                     end with
               | CacheMode.OfMode m => CacheMode.mode m
               | CacheMode.OfStr s => s
               end).
  destruct (CacheMode.str_in name CacheMode.MODES) eqn:Hin; cbn [negb];
    [| discriminate].
  intros [= <-]. cbn [CacheMode.mode].
  apply str_in_In in Hin. split; [exact Hin |].
  clearbody name. cbn [In CacheMode.MODES] in Hin.
  destruct Hin as [<- | [<- | [<- | [<- | [<- | [<- | []]]]]]];
    vm_compute; repeat split; congruence.
Qed.

Lemma CacheMode_invariants_witness :
  In "update" CacheMode.MODES
  /\ is_count (CacheMode.Build "update" false true true true) = 1
  /\ false && true = false
  /\ (true = true -> true = true)
  /\ (false = true -> false = false /\ true = false /\ true = false /\ true = false)
  /\ CacheMode.__init__
       (Some (CacheMode.OfMode (CacheMode.Build "update" false true true true)))
     = Ok (CacheMode.Build "update" false true true true)
  /\ CacheMode.__init__ (Some (CacheMode.OfStr "update"))
     = Ok (CacheMode.Build "update" false true true true).
Proof.
  apply (CacheMode_invariants (Some (CacheMode.OfStr "update"))
           (CacheMode.Build "update" false true true true)).
  reflexivity.
Defined.

(** *** bind *)

Section Dicts.

Lemma dict_get_setitem k v d name :
  dict_get name (dict_setitem k v d)
  = if String.eqb k name then Some v else dict_get name d.
Proof.
  unfold dict_get. induction d as [| [k' v'] d IH]; cbn [dict_setitem].
  - cbn [List.find fst]. now destruct (String.eqb k name).
  - destruct (String.eqb k' k) eqn:Hk; cbn [List.find fst].
    + apply String.eqb_eq in Hk as ->. now destruct (String.eqb k name).
    + destruct (String.eqb k' name) eqn:Hn.
      * destruct (String.eqb k name) eqn:Hkn; [| reflexivity].
        apply String.eqb_eq in Hn as ->. apply String.eqb_eq in Hkn as ->.
        now rewrite String.eqb_refl in Hk.
      * exact IH.
Qed.

Lemma dict_get_None name (d : list (string * value)) :
  ~ In name (map fst d) -> dict_get name d = None.
Proof.
  unfold dict_get. induction d as [| [k v] d IH]; [reflexivity |].
  cbn [map fst In List.find]. intros Hn.
  destruct (String.eqb k name) eqn:Hk.
  - apply String.eqb_eq in Hk. tauto.
  - apply IH. tauto.
Qed.

Lemma dict_get_update d other name :
  List.NoDup (map fst other) ->
  dict_get name (dict_update d other)
  = match dict_get name other with
    | Some v => Some v
    | None => dict_get name d
    end.
Proof.
  unfold dict_update. revert d.
  induction other as [| [k v] other IH]; intros d Hnd; [reflexivity |].
  cbn [fold_left fst snd]. inversion Hnd as [| ? ? Hk Hnd']; subst.
  rewrite (IH _ Hnd'), dict_get_setitem.
  unfold dict_get at 3. cbn [List.find fst].
  destruct (String.eqb k name) eqn:Hkn.
  - apply String.eqb_eq in Hkn as ->. now rewrite (dict_get_None _ _ Hk).
  - reflexivity.
Qed.

End Dicts.

(** X18. The function [bind] returns passes the positional arguments on as
    they are and, for every keyword, the value bound by [bind] if there is
    one, else the value of the call: a bound keyword cannot be overridden by
    the call. *)
Theorem bound_keywords_override_live_ones {A}
    (F : list value -> list (string * value) -> A) kwargs liveargs livekwargs :
  List.NoDup (map fst kwargs) ->
  bind F kwargs liveargs livekwargs = F liveargs (dict_update livekwargs kwargs)
  /\ forall name,
       dict_get name (dict_update livekwargs kwargs)
       = match dict_get name kwargs with
         | Some bound => Some bound
         | None => dict_get name livekwargs
         end.
Proof.
  intros Hnd. split; [reflexivity |].
  intros name. now apply dict_get_update.
Qed.

Lemma bound_keywords_override_live_ones_witness :
  bind (fun liveargs k => (liveargs, k)) [("y", VInt 2)] [VInt 1]
    [("y", VInt 3); ("z", VInt 4)]
  = ([VInt 1], dict_update [("y", VInt 3); ("z", VInt 4)] [("y", VInt 2)])
  /\ forall name,
       dict_get name (dict_update [("y", VInt 3); ("z", VInt 4)] [("y", VInt 2)])
       = match dict_get name [("y", VInt 2)] with
         | Some bound => Some bound
         | None => dict_get name [("y", VInt 3); ("z", VInt 4)]
         end.
Proof.
  apply (bound_keywords_override_live_ones (fun liveargs k => (liveargs, k))
           [("y", VInt 2)] [VInt 1] [("y", VInt 3); ("z", VInt 4)]).
  constructor; [cbn; tauto | constructor].
Defined.

(** *** fmt_list *)

Section Lists.

Lemma string_app_nil_r (s : string) : s ++ "" = s.
Proof.
  induction s as [| c s IH]; [reflexivity |].
  change (String c s ++ "") with (String c (s ++ "")). now rewrite IH.
Qed.

(** The loop of [fmt_list]. *)
Lemma fmt_list_loop l acc :
  fold_left (fun s k => s ++ k ++ ", ") l acc
  = acc ++ String.concat "" (map (fun k => k ++ ", ") l).
Proof.
  revert acc. induction l as [| k l IH]; intros acc.
  - cbn. now rewrite string_app_nil_r.
  - cbn [fold_left map]. rewrite IH.
    change (String.concat "" ((k ++ ", ") :: map (fun k => k ++ ", ") l))
      with (match map (fun k => k ++ ", ") l with
            | [] => k ++ ", "
            | _ :: _ => (k ++ ", ") ++ ""
                          ++ String.concat "" (map (fun k => k ++ ", ") l)
            end).
    destruct l as [| k' l].
    + cbn [map String.concat]. now rewrite string_app_nil_r.
    + cbn [map]. now rewrite string_app_assoc.
Qed.

Lemma concat_with_sep k l :
  String.concat "" (map (fun k => k ++ ", ") (k :: l))
  = join ", " (k :: l) ++ ", ".
Proof.
  unfold join. revert k. induction l as [| k' l IH]; intros k.
  - reflexivity.
  - change (String.concat "" (map (fun k => k ++ ", ") (k :: k' :: l)))
      with ((k ++ ", ") ++ ""
              ++ String.concat "" (map (fun k => k ++ ", ") (k' :: l))).
    rewrite IH.
    change (String.concat ", " (k :: k' :: l))
      with (k ++ ", " ++ String.concat ", " (k' :: l)).
    change ("" ++ String.concat ", " (k' :: l) ++ ", ")
      with (String.concat ", " (k' :: l) ++ ", ").
    now rewrite !string_app_assoc.
Qed.

Lemma slice_drop_last_app a b :
  slice_drop_last (String.length b) (a ++ b) = a.
Proof.
  unfold slice_drop_last, slice_to.
  rewrite string_app_length, chars_app.
  replace (String.length a + String.length b - String.length b)
    with (List.length (chars a) + 0) by (rewrite chars_length; lia).
  rewrite firstn_app_2. cbn [firstn]. rewrite app_nil_r. apply str_chars.
Qed.

End Lists.

(** X19. For a list of two or more elements [fmt_list] joins all but the last
    with a comma and a blank and adds " and " and the last one; the [none]
    text plays no part. *)
Theorem fmt_list_joins_with_and (first : string) init last none :
  fmt_list (Some ((first :: init) ++ [last])%list) none
  = join ", " (first :: init) ++ " and " ++ last.
Proof.
  destruct init as [| second init]; [reflexivity |].
  unfold fmt_list.
  change ((first :: second :: init) ++ [last])%list
    with (first :: second :: (init ++ [last]))%list.
  destruct (init ++ [last])%list as [| x rest] eqn:Hrest;
    [now destruct init |].
  rewrite <- Hrest.
  change (first :: second :: (init ++ [last]))%list
    with ((first :: second :: init) ++ [last])%list.
  rewrite removelast_last, last_last, fmt_list_loop.
  change ("" ++ ?x) with x.
  rewrite concat_with_sep.
  now rewrite (slice_drop_last_app _ ", ").
Qed.

(** *** fmt_seconds *)

Lemma fmt_02ld_length n :
  (0 <= n < 100)%Z -> String.length (fmt_02ld n) = 2.
Proof.
  intros Hn.
  assert (H : forallb (fun k => (String.length (fmt_02ld (Z.of_nat k)) =? 2)%nat)
                (seq 0 100) = true) by (vm_compute; reflexivity).
  rewrite forallb_forall in H.
  specialize (H (Z.to_nat n)). rewrite Z2Nat.id in H by lia.
  apply Nat.eqb_eq, H, in_seq. lia.
Qed.

(** X20. For a non-negative number of seconds, [fmt_seconds] prints hours,
    minutes and seconds that add up to it, with minutes and seconds below 60
    and, where a field precedes them, in two digits: ["<s>s"] below a minute,
    ["<m>:<ss>"] below an hour, ["<h>:<mm>:<ss>"] from there on. *)
Theorem fmt_seconds_fields seconds :
  (0 <= seconds)%Z ->
  exists h m sec : Z,
    (seconds = 3600 * h + 60 * m + sec)%Z
    /\ (0 <= h)%Z /\ (0 <= m < 60)%Z /\ (0 <= sec < 60)%Z
    /\ String.length (fmt_02ld m) = 2
    /\ String.length (fmt_02ld sec) = 2
    /\ fmt_seconds seconds
       = if (seconds <? 60)%Z then fmt_ld sec ++ "s"
         else if (seconds <? 3600)%Z then fmt_ld m ++ ":" ++ fmt_02ld sec
         else fmt_ld h ++ ":" ++ fmt_02ld m ++ ":" ++ fmt_02ld sec.
Proof.
  intros Hs.
  exists (seconds / 60 / 60)%Z, ((seconds / 60) mod 60)%Z, (seconds mod 60)%Z.
  assert (Hm : (0 <= (seconds / 60) mod 60 < 60)%Z) by (apply Z.mod_pos_bound; lia).
  assert (Hsec : (0 <= seconds mod 60 < 60)%Z) by (apply Z.mod_pos_bound; lia).
  assert (Hq : (0 <= seconds / 60)%Z) by (apply Z.div_pos; lia).
  repeat split; try lia.
  - pose proof (Z.div_mod seconds 60 ltac:(lia)).
    pose proof (Z.div_mod (seconds / 60) 60 ltac:(lia)). lia.
  - apply Z.div_pos; lia.
  - apply fmt_02ld_length. lia.
  - apply fmt_02ld_length. lia.
  - unfold fmt_seconds. change (60 * 60)%Z with 3600%Z.
    destruct (seconds <? 60)%Z eqn:H60.
    + apply Z.ltb_lt in H60. now rewrite Z.mod_small by lia.
    + destruct (seconds <? 3600)%Z eqn:H3600; [| reflexivity].
      apply Z.ltb_lt in H3600. apply Z.ltb_ge in H60.
      rewrite (Z.mod_small (seconds / 60)); [reflexivity |].
      split; [lia |]. apply Z.div_lt_upper_bound; lia.
Qed.

Lemma fmt_seconds_fields_witness :
  exists h m sec : Z,
    (3725 = 3600 * h + 60 * m + sec)%Z
    /\ (0 <= h)%Z /\ (0 <= m < 60)%Z /\ (0 <= sec < 60)%Z
    /\ String.length (fmt_02ld m) = 2
    /\ String.length (fmt_02ld sec) = 2
    /\ fmt_seconds 3725
       = if (3725 <? 60)%Z then fmt_ld sec ++ "s"
         else if (3725 <? 3600)%Z then fmt_ld m ++ ":" ++ fmt_02ld sec
         else fmt_ld h ++ ":" ++ fmt_02ld m ++ ":" ++ fmt_02ld sec.
Proof. apply (fmt_seconds_fields 3725). lia. Defined.

(** ** [plain] *)

Section Plain.

Lemma pyobj_nested_ind (P : pyobj -> Prop) :
  P ONone ->
  (forall r, P (OAsIs r)) ->
  P OFunction ->
  P OProperty ->
  (forall items, Forall (fun kv : key * pyobj => P kv.2) items -> P (ODict items)) ->
  (forall columns index, P columns -> P index -> P (ODataFrame columns index)) ->
  (forall items, Forall P items -> P (OIterable items)) ->
  (forall type_repr dict,
     Forall (fun kv : string * pyobj => P kv.2) dict ->
     P (OObject type_repr (Some dict))) ->
  (forall type_repr, P (OObject type_repr None)) ->
  forall x, P x.
Proof.
  intros HNone HAsIs HFunction HProperty HDict HDataFrame HIterable HObject HOpaque.
  fix IH 1. intros [| r | | | items | columns index | items | type_repr [dict |]].
  - exact HNone.
  - apply HAsIs.
  - exact HFunction.
  - exact HProperty.
  - apply HDict. induction items as [| [k x] items IHitems]; constructor.
    + apply IH.
    + exact IHitems.
  - apply HDataFrame; apply IH.
  - apply HIterable. induction items as [| x items IHitems]; constructor.
    + apply IH.
    + exact IHitems.
  - apply HObject. induction dict as [| [k x] dict IHdict]; constructor.
    + apply IH.
    + exact IHdict.
  - apply HOpaque.
Qed.

Lemma comprehension_if_Forall2 {A B} (p : A -> bool) (f : A -> result B) l out :
  comprehension_if p f l = Ok out ->
  Forall2 (fun x y => f x = Ok y) (List.filter p l) out.
Proof.
  revert out. induction l as [| x l IH]; intros out; cbn [comprehension_if List.filter].
  - intros [= <-]. constructor.
  - destruct (p x); [| apply IH].
    destruct (f x) as [y |] eqn:Hy; cbn [mbind result_bind]; [| discriminate].
    destruct (comprehension_if p f l) as [ys |]; cbn [mbind result_bind];
      [| discriminate].
    intros [= <-]. constructor; [exact Hy | now apply IH].
Qed.

Lemma comprehension_fixed {A} (f : A -> result A) l :
  Forall (fun x => f x = Ok x) l -> comprehension f l = Ok l.
Proof.
  unfold comprehension. induction 1 as [| x l Hx _ IH]; [reflexivity |].
  cbn [comprehension_if]. rewrite Hx. cbn [mbind result_bind].
  rewrite IH. reflexivity.
Qed.

Lemma Forall_filter_keeps {A} (P : A -> Prop) p l :
  Forall P l -> Forall P (List.filter p l).
Proof.
  induction 1 as [| x l Hx _ IH]; cbn [List.filter]; [constructor |].
  destruct (p x); [constructor |]; assumption.
Qed.

(** What the elements of a comprehension satisfy carries over to its
    result. *)
Lemma Forall2_results {A B} (f : A -> result B) (P : A -> Prop) (Q : B -> Prop)
    l out :
  (forall x y, P x -> f x = Ok y -> Q y) ->
  Forall P l -> Forall2 (fun x y => f x = Ok y) l out -> Forall Q out.
Proof.
  intros HPQ HP H2. induction H2 as [| x y l out Hxy _ IH]; constructor.
  - inversion HP; subst. eapply HPQ; eassumption.
  - apply IH. now inversion HP.
Qed.

End Plain.

(** X21. Whenever [plain] returns, its result is made of [None], values kept
    as they are, lists and dicts only, and [plain] leaves such a result
    unchanged. *)
Theorem plain_returns_a_simple_structure inn out :
  plain inn = Ok out -> simple out = true /\ plain out = Ok out.
Proof.
  revert out.
  induction inn
    as [| r | | | items IH | columns index _ _ | items IH | type_repr dict IH
        | type_repr]
    using pyobj_nested_ind; intros out; cbn [plain].
  - intros [= <-]. now split.
  - intros [= <-]. now split.
  - intros [= <-]. now split.
  - intros [= <-]. now split.
  - destruct (comprehension _ items) as [items' |] eqn:Hitems;
      cbn [mbind result_bind]; [| discriminate].
    intros [= <-]. apply comprehension_if_Forall2 in Hitems.
    rewrite filter_true in Hitems.
    assert (Hout : Forall (fun kv : key * pyobj =>
                             simple kv.2 = true /\ plain kv.2 = Ok kv.2) items').
    { eapply Forall2_results; [| exact IH | exact Hitems].
      intros [k x] [k' x'] Hx. cbn [snd] in Hx |- *.
      destruct (plain x) as [y |] eqn:Hy; cbn [mbind result_bind]; [| discriminate].
      intros [= <- <-]. now apply Hx. }
    split.
    + cbn [simple]. apply forallb_forall. intros kv Hkv.
      rewrite List.Forall_forall in Hout. now apply Hout.
    + cbn [plain]. rewrite comprehension_fixed; [reflexivity |].
      eapply List.Forall_impl; [| exact Hout].
      intros [k x] [_ Hx]. cbn [snd] in Hx. now rewrite Hx.
  - destruct (plain columns); cbn [mbind result_bind]; [| discriminate].
    destruct (plain index); cbn [mbind result_bind]; [| discriminate].
    intros [= <-]. now split.
  - destruct (comprehension plain items) as [items' |] eqn:Hitems;
      cbn [mbind result_bind]; [| discriminate].
    intros [= <-]. apply comprehension_if_Forall2 in Hitems.
    rewrite filter_true in Hitems.
    assert (Hout : Forall (fun x => simple x = true /\ plain x = Ok x) items').
    { eapply Forall2_results; [| exact IH | exact Hitems].
      intros x y Hx Hy. now apply Hx. }
    split.
    + cbn [simple]. apply forallb_forall. intros x Hx.
      rewrite List.Forall_forall in Hout. now apply Hout.
    + cbn [plain]. rewrite comprehension_fixed; [reflexivity |].
      eapply List.Forall_impl; [| exact Hout]. now intros x [_ Hx].
  - destruct (comprehension_if _ _ dict) as [items' |] eqn:Hitems;
      cbn [mbind result_bind]; [| discriminate].
    intros [= <-]. apply comprehension_if_Forall2 in Hitems.
    assert (Hout : Forall (fun kv : key * pyobj =>
                             simple kv.2 = true /\ plain kv.2 = Ok kv.2) items').
    { eapply Forall2_results;
        [| apply Forall_filter_keeps; exact IH | exact Hitems].
      intros [k x] [k' x'] Hx. cbn [snd] in Hx |- *.
      destruct (plain x) as [y |] eqn:Hy; cbn [mbind result_bind]; [| discriminate].
      intros [= <- <-]. now apply Hx. }
    split.
    + cbn [simple]. apply forallb_forall. intros kv Hkv.
      rewrite List.Forall_forall in Hout. now apply Hout.
    + cbn [plain]. rewrite comprehension_fixed; [reflexivity |].
      eapply List.Forall_impl; [| exact Hout].
      intros [k x] [_ Hx]. cbn [snd] in Hx. now rewrite Hx.
  - discriminate.
Qed.


Lemma plain_returns_a_simple_structure_witness :
  simple (ODict [(KStr "name", OAsIs "'spot'");
                 (KStr "dates", OIterable [OAsIs "1"; ONone])]) = true
  /\ plain (ODict [(KStr "name", OAsIs "'spot'");
                   (KStr "dates", OIterable [OAsIs "1"; ONone])])
     = Ok (ODict [(KStr "name", OAsIs "'spot'");
                  (KStr "dates", OIterable [OAsIs "1"; ONone])]).
Proof.
  apply (plain_returns_a_simple_structure
           (OObject "<class 'testns.Quote'>"
              (Some [("name", OAsIs "'spot'");
                     ("price", OFunction);
                     ("dates", OIterable [OAsIs "1"; OProperty])]))).
  reflexivity.
Defined.

(** ** Listing and clearing a directory *)

Section Listing.

Lemma str_length l : String.length (str l) = List.length l.
Proof. now rewrite <- chars_length, chars_str. Qed.

Lemma prefix_app a b : String.prefix a (a ++ b) = true.
Proof.
  induction a as [| c a IH]; [now destruct b |].
  change (String c a ++ b) with (String c (a ++ b)). cbn [String.prefix].
  now destruct (ascii_dec c c).
Qed.

Lemma slice_from_app a b : slice_from (String.length a) (a ++ b) = b.
Proof.
  unfold slice_from. rewrite chars_app, <- chars_length, skipn_app, skipn_all.
  rewrite Nat.sub_diag. cbn. apply str_chars.
Qed.

Lemma prefix_inv a p :
  String.prefix a p = true -> p = a ++ slice_from (String.length a) p.
Proof.
  revert p. induction a as [| c a IH]; intros p.
  - intros _. unfold slice_from. cbn. symmetry. apply str_chars.
  - destruct p as [| c' p]; cbn [String.prefix]; [discriminate |].
    destruct (ascii_dec c c') as [<- |]; [| discriminate].
    intros Hp. change (String c a ++ ?x) with (String c (a ++ x)).
    f_equal. exact (IH p Hp).
Qed.

Lemma plain_key_app key ext0 :
  plain_key key -> slash_free ext0 = true -> plain_key (key ++ ext0).
Proof.
  intros [Hlen Hkey] Hext. split.
  - rewrite string_app_length. apply Nat.ltb_lt. apply Nat.ltb_lt in Hlen. lia.
  - rewrite chars_app, forallb_app, Hkey. exact Hext.
Qed.

Lemma entry_name_app dir name :
  plain_key name -> entry_name dir (dir ++ name) = Some name.
Proof.
  intros [Hlen Hname]. unfold entry_name.
  now rewrite prefix_app, slice_from_app, Hlen, Hname.
Qed.

Lemma entry_name_inv dir p name :
  entry_name dir p = Some name -> p = dir ++ name /\ plain_key name.
Proof.
  unfold entry_name. destruct (String.prefix dir p) eqn:Hp; [| discriminate].
  destruct (0 <? _)%nat eqn:Hlen; cbn [andb]; [| discriminate].
  destruct (forallb _ _) eqn:Hname; [| discriminate].
  intros [= <-]. split; [now apply prefix_inv | now split].
Qed.

Variable self : SubDir.

Lemma key_of_entry_app key c :
  plain_key key ->
  key_of_entry self (key ++ self.(ext), File c) = Some key.
Proof.
  intros [Hlen _]. unfold key_of_entry.
  destruct (0 <? String.length (ext self))%nat eqn:Hext.
  - rewrite slice_last_app, String.eqb_refl, string_app_length.
    apply Nat.ltb_lt in Hlen, Hext.
    replace (_ <=? _)%nat with false by (symmetry; apply Nat.leb_gt; lia).
    cbn [orb negb]. f_equal.
    rewrite <- string_app_length. apply slice_drop_last_app.
  - apply Nat.ltb_ge in Hext.
    destruct (ext self); [| cbn in Hext; lia]. now rewrite string_app_nil_r.
Qed.

Lemma key_of_entry_inv name n key :
  key_of_entry self (name, n) = Some key ->
  name = key ++ self.(ext)
  /\ (exists c, n = File c)
  /\ ((0 <? String.length name)%nat = true -> (0 <? String.length key)%nat = true).
Proof.
  unfold key_of_entry. destruct n as [| c]; [discriminate |].
  destruct (0 <? String.length (ext self))%nat eqn:Hext.
  - destruct (_ <=? _)%nat eqn:Hlen; cbn [orb]; [discriminate |].
    destruct (String.eqb _ _) eqn:Hends; cbn [negb]; [| discriminate].
    intros [= <-]. apply String.eqb_eq in Hends. apply Nat.leb_gt in Hlen.
    split; [now apply slice_last_inv |]. split; [now exists c |].
    intros _. unfold slice_to. rewrite str_length, length_firstn, chars_length.
    apply Nat.ltb_lt. lia.
  - intros [= <-]. apply Nat.ltb_ge in Hext.
    destruct (ext self); [| cbn in Hext; lia].
    rewrite string_app_nil_r. split; [reflexivity |]. split; [now exists c | auto].
Qed.

Lemma plain_key_prefix key ext0 :
  plain_key (key ++ ext0) -> (0 <? String.length key)%nat = true -> plain_key key.
Proof.
  intros [_ H] Hlen. split; [exact Hlen |].
  rewrite chars_app, forallb_app in H. now apply andb_true_iff in H.
Qed.


Lemma keys_listing s : keys self s = (Ok (listing self s), s).
Proof. reflexivity. Qed.

Lemma In_listing s key :
  slash_free self.(ext) = true ->
  In key (listing self s)
  <-> plain_key key
      /\ exists c, s.(fs) !! (self.(path) ++ key ++ self.(ext)) = Some (File c).
Proof.
  intros Hext. unfold listing.
  rewrite <- list_elem_of_In, list_elem_of_omap. split.
  - intros ([name n] & Hin & Hkey).
    apply list_elem_of_omap in Hin as ([p n'] & Hin & Hname).
    apply elem_of_map_to_list in Hin. cbn [fst snd] in Hname.
    destruct (entry_name (path self) p) as [name' |] eqn:Hentry;
      cbn in Hname; [| discriminate].
    injection Hname as -> ->.
    apply entry_name_inv in Hentry as [-> Hplain].
    apply key_of_entry_inv in Hkey as (-> & [c ->] & Hlen).
    split; [| now exists c].
    apply (plain_key_prefix key (ext self) Hplain). apply Hlen, Hplain.
  - intros [Hplain [c Hc]].
    exists (key ++ ext self, File c). split; [| now apply key_of_entry_app].
    apply list_elem_of_omap.
    exists (path self ++ key ++ ext self, File c). split.
    + now apply elem_of_map_to_list.
    + cbn [fst snd]. now rewrite entry_name_app by now apply plain_key_app.
Qed.

(** ** Deleting a list of keys *)

Let Hsplit key (Hkey : plain_key key) : os_path_split key = ("", key) :=
  os_path_split_plain key Hkey.

Lemma delete_dir key s throwOnError :
  plain_key key ->
  s.(fs) !! fullKeyName self key = Some Dir ->
  delete self key throwOnError s = (Raise OSError, s).
Proof. intros Hkey H. pose proof (Hsplit key Hkey) as Hs. now run_plain Hkey Hs H. Qed.


Lemma delete_each_plain ks throwOnError s s' :
  Forall plain_key ks ->
  delete_each self ks throwOnError s = (Ok tt, s') ->
  s' = set_fs (without self ks) s.
Proof.
  intros Hks. revert s. induction Hks as [| k ks Hk _ IH]; intros s.
  - cbn. intros [= <-]. now destruct s.
  - cbn [delete_each]. unfold mbind at 1, M_bind at 1.
    destruct (fs s !! fullKeyName self k) as [[| c] |] eqn:Hfs.
    + now rewrite (delete_dir k s false Hk Hfs).
    + rewrite (delete_file self k Hk s c Hfs). intros H%IH. subst s'.
      now destruct s.
    + rewrite (delete_absent self k Hk s Hfs). intros H%IH. subst s'.
      unfold set_fs, without. cbn [fold_left]. now rewrite (delete_id _ _ Hfs).
Qed.

Lemma without_removed ks m key :
  In key ks -> without self ks m !! fullKeyName self key = None.
Proof.
  unfold without. revert m. induction ks as [| k ks IH]; intros m; [intros [] |].
  cbn [fold_left]. intros [-> | Hin]; [| now apply IH].
  clear IH. generalize (base.delete (fullKeyName self key) m)
              (lookup_delete_eq m (fullKeyName self key)).
  induction ks as [| k ks IH]; intros m' Hm'; [exact Hm' |].
  cbn [fold_left]. apply IH.
  destruct (decide (fullKeyName self k = fullKeyName self key)) as [-> | Hne].
  - apply lookup_delete_eq.
  - now rewrite lookup_delete_ne.
Qed.

Lemma without_kept ks m p :
  (forall k, In k ks -> p <> fullKeyName self k) -> without self ks m !! p = m !! p.
Proof.
  unfold without. revert m. induction ks as [| k ks IH]; intros m Hp; [reflexivity |].
  cbn [fold_left]. rewrite IH by (intros k' Hk'; apply Hp; now right).
  apply lookup_delete_ne. intros Heq. apply (Hp k); [now left | now symmetry].
Qed.

Lemma without_subset ks m p n :
  without self ks m !! p = Some n -> m !! p = Some n.
Proof.
  unfold without. revert m. induction ks as [| k ks IH]; intros m; [auto |].
  cbn [fold_left]. intros H%IH.
  destruct (decide (fullKeyName self k = p)) as [<- | Hne].
  - now rewrite lookup_delete_eq in H.
  - now rewrite lookup_delete_ne in H.
Qed.

End Listing.

(** X22. For an extension without slash, [keys] changes nothing and lists
    exactly the non-empty names without slash whose file, the name followed by
    the extension, exists as a file in the directory. *)
Theorem keys_are_the_stored_files self s :
  slash_free self.(ext) = true ->
  exists ks,
    keys self s = (Ok ks, s)
    /\ forall key,
         In key ks
         <-> plain_key key
             /\ exists c,
                  s.(fs) !! (self.(path) ++ key ++ self.(ext)) = Some (File c).
Proof.
  intros Hext. exists (listing self s). split; [reflexivity |].
  intros key. now apply In_listing.
Qed.

Lemma keys_are_the_stored_files_witness :
  exists ks,
    keys double_subDir (holding (Pickled (VInt 6)))
    = (Ok ks, holding (Pickled (VInt 6)))
    /\ forall key,
         In key ks
         <-> plain_key key
             /\ exists c,
                  (holding (Pickled (VInt 6))).(fs)
                    !! (double_subDir.(path) ++ key ++ double_subDir.(ext))
                  = Some (File c).
Proof.
  apply (keys_are_the_stored_files double_subDir (holding (Pickled (VInt 6)))).
  reflexivity.
Defined.

(** X23. When [deleteAllKeys] returns, whatever [throwOnError] is, the file
    of every key that was listed is gone, every other path is as before,
    nothing has been created or logged, and no key is listed any more unless
    it ends with the extension itself. *)
Theorem deleteAllKeys_removes_what_keys_lists self throwOnError s s' :
  slash_free self.(ext) = true ->
  deleteAllKeys self throwOnError s = (Ok tt, s') ->
  exists ks,
    keys self s = (Ok ks, s)
    /\ (forall key, In key ks -> s'.(fs) !! fullKeyName self key = None)
    /\ (forall p, (forall key, In key ks -> p <> fullKeyName self key) ->
                  s'.(fs) !! p = s.(fs) !! p)
    /\ (forall p n, s'.(fs) !! p = Some n -> s.(fs) !! p = Some n)
    /\ s'.(warnings) = s.(warnings)
    /\ (forall key,
          (0 <? String.length self.(ext))%nat
          && String.eqb (slice_last (String.length self.(ext)) key) self.(ext)
          = false ->
          exists ks', keys self s' = (Ok ks', s') /\ ~ In key ks').
Proof.
  intros Hext. unfold deleteAllKeys. unfold mbind, M_bind.
  rewrite keys_listing. intros Hdel.
  assert (Hplain : Forall plain_key (listing self s)).
  { apply List.Forall_forall. intros k Hk. now apply In_listing in Hk as [Hk _]. }
  apply (delete_each_plain self _ _ _ _ Hplain) in Hdel. subst s'.
  exists (listing self s). split; [reflexivity |]. cbn [fs set_fs warnings].
  split; [intros key; apply without_removed |].
  split; [intros p; apply without_kept |].
  split; [intros p n; apply without_subset |].
  split; [reflexivity |].
  intros key Hkey. eexists. split; [apply keys_listing |].
  rewrite (In_listing self _ key Hext). cbn [fs set_fs].
  intros [Hplain' [c Hc]].
  assert (Hfull : fullKeyName self key = path self ++ key ++ ext self).
  { unfold fullKeyName.
    destruct (0 <? String.length (ext self))%nat eqn:Hlen; cbn [andb] in Hkey |- *.
    - now rewrite Hkey.
    - apply Nat.ltb_ge in Hlen. destruct (ext self); [| cbn in Hlen; lia].
      now rewrite string_app_nil_r. }
  rewrite <- Hfull in Hc.
  rewrite without_removed in Hc; [discriminate |].
  apply (In_listing self s key Hext). split; [exact Hplain' |].
  exists c. rewrite <- Hfull. now apply without_subset in Hc.
Qed.

Lemma deleteAllKeys_removes_what_keys_lists_witness :
  exists ks,
    keys double_subDir (holding (Pickled (VInt 6)))
    = (Ok ks, holding (Pickled (VInt 6)))
    /\ (forall key, In key ks -> fresh.(fs) !! fullKeyName double_subDir key = None)
    /\ (forall p, (forall key, In key ks -> p <> fullKeyName double_subDir key) ->
                  fresh.(fs) !! p = (holding (Pickled (VInt 6))).(fs) !! p)
    /\ (forall p n, fresh.(fs) !! p = Some n ->
                    (holding (Pickled (VInt 6))).(fs) !! p = Some n)
    /\ fresh.(warnings) = (holding (Pickled (VInt 6))).(warnings)
    /\ (forall key,
          (0 <? String.length double_subDir.(ext))%nat
          && String.eqb (slice_last (String.length double_subDir.(ext)) key)
               double_subDir.(ext)
          = false ->
          exists ks', keys double_subDir fresh = (Ok ks', fresh) /\ ~ In key ks').
Proof.
  apply (deleteAllKeys_removes_what_keys_lists double_subDir false
           (holding (Pickled (VInt 6))) fresh).
  - reflexivity.
  - vm_compute. reflexivity.
Defined.

(** ** Making a directory *)

Section Turns.

Lemma take_drop_while_length {A} (p : A -> bool) l :
  List.length (take_while p l) + List.length (drop_while p l) = List.length l.
Proof.
  induction l as [| x l IH]; [reflexivity |]. cbn [take_while drop_while].
  destruct (p x); cbn [List.length]; lia.
Qed.

Lemma drop_while_length {A} (p : A -> bool) l :
  List.length (drop_while p l) <= List.length l.
Proof. pose proof (take_drop_while_length p l). lia. Qed.

(** The two parts of a split path are no longer than the path. *)
Lemma os_path_split_length p :
  String.length (os_path_split p).1 + String.length (os_path_split p).2
  <= String.length p.
Proof.
  unfold os_path_split. cbn [fst snd]. rewrite !str_length.
  pose proof (take_drop_while_length
                (fun c => negb (Ascii.eqb c slash)) (rev (chars p))) as H.
  rewrite length_rev, chars_length in H.
  destruct (forallb _ _); rewrite !length_rev.
  - lia.
  - pose proof (drop_while_length (Ascii.eqb slash)
                  (rev (rev (drop_while (fun c => negb (Ascii.eqb c slash))
                               (rev (chars p)))))) as H'.
    rewrite !length_rev in H'. lia.
Qed.

Lemma nonempty_length (s : string) :
  String.eqb s "" = false -> 0 < String.length s.
Proof. destruct s; [discriminate | cbn; lia]. Qed.

(** [makedirs] does the same with any number of turns that is at least the
    length of the name. *)
Lemma makedirs_turns turns1 :
  forall turns2 name s,
    String.length name <= turns1 -> String.length name <= turns2 ->
    makedirs turns1 name s = makedirs turns2 name s.
Proof.
  induction turns1 as [| turns1 IH]; intros turns2 name s H1 H2.
  - destruct name; [| cbn in H1; lia].
    destruct turns2; reflexivity.
  - destruct turns2 as [| turns2].
    + destruct name; [reflexivity | cbn in H2; lia].
    + cbn [makedirs].
      pose proof (os_path_split_length name) as Hname.
      destruct (os_path_split name) as [head tail]. cbn [fst snd] in Hname.
      assert (Hhead :
                forall head' tail',
                  (if String.eqb tail "" then os_path_split head
                   else (head, tail)) = (head', tail') ->
                  String.eqb tail' "" = false ->
                  String.length head' < String.length name).
      { intros head' tail' Hsplit Htail'.
        apply nonempty_length in Htail'.
        destruct (String.eqb tail "").
        - pose proof (os_path_split_length head) as Hh.
          rewrite Hsplit in Hh. cbn [fst snd] in Hh. lia.
        - injection Hsplit as <- <-. lia. }
      destruct (if String.eqb tail "" then os_path_split head else (head, tail))
        as [head' tail'].
      destruct (String.eqb head' ""); cbn [negb andb]; [reflexivity |].
      destruct (String.eqb tail' "") eqn:Htail'; cbn [negb]; [reflexivity |].
      specialize (Hhead head' tail' eq_refl Htail').
      cbv [mbind M_bind mret M_ret get os_path_exists except_FileExistsError].
      destruct (negb _); [| reflexivity].
      rewrite (IH turns2 head' s) by lia. reflexivity.
Qed.

End Turns.

Section Directories.

Lemma same_process_refl s : same_process s s.
Proof. now split. Qed.

Lemma same_process_set_fs g s s' :
  same_process s s' -> same_process s (set_fs g s').
Proof. now intros [? ?]. Qed.

Lemma os_mkdir_same_process name s r s' :
  os_mkdir name s = (r, s') -> same_process s s'.
Proof.
  unfold os_mkdir. cbv [mbind M_bind mret M_ret raise get modify].
  destruct (fs s !! name); [now intros [= _ <-] |].
  destruct (_ || _); [now intros [= _ <-] |].
  destruct (fs s !! _) as [[| c] |]; now intros [= _ <-].
Qed.

Lemma makedirs_same_process turns :
  forall name s r s', makedirs turns name s = (r, s') -> same_process s s'.
Proof.
  induction turns as [| turns IH]; intros name s r s'; cbn [makedirs];
    [apply os_mkdir_same_process |].
  destruct (os_path_split name) as [head tail].
  destruct (if String.eqb tail "" then os_path_split head else (head, tail))
    as [head' tail'].
  destruct (_ && _); [| apply os_mkdir_same_process].
  cbv [mbind M_bind mret M_ret get os_path_exists except_FileExistsError].
  destruct (negb _); [| apply os_mkdir_same_process].
  destruct (makedirs turns head' s) as [[[] | e] s''] eqn:Hhead.
  - apply IH in Hhead. destruct (String.eqb tail' ".").
    + now intros [= _ <-].
    + intros H%os_mkdir_same_process. destruct Hhead, H. split; congruence.
  - apply IH in Hhead.
    destruct e; try (now intros [= _ <-]).
    destruct (String.eqb tail' ".").
    + now intros [= _ <-].
    + intros H%os_mkdir_same_process. destruct Hhead, H. split; congruence.
Qed.

End Directories.

Section SubDirs.

Variable root : SubDir.
Variable subdir : string.

(** Unfold the constructor down to the tests it makes. *)
Ltac construct :=
  unfold SubDir_init;
  cbv [mbind M_bind mret M_ret verify raise get os_path_exists os_path_isdir].

(** A directory keeps the extension of the one it is made in. *)
Lemma SubDir_init_ext s d s1 :
  SubDir_init root subdir s = (Ok d, s1) -> d.(ext) = root.(ext).
Proof.
  construct.
  repeat match goal with
         | |- context [if ?b then _ else _] => destruct b
         end;
    try discriminate;
    try (destruct (os_makedirs _ s) as [[[] | e] s']; try discriminate);
    now intros [= <- _].
Qed.

(** The constructor only makes directories. *)
Lemma SubDir_init_same_process s r s1 :
  SubDir_init root subdir s = (r, s1) -> same_process s s1.
Proof.
  construct.
  repeat match goal with
         | |- context [if ?b then _ else _] => destruct b
         end;
    try (now intros [= _ <-]);
    unfold os_makedirs;
    destruct (makedirs _ _ s) as [[[] | e] s'] eqn:Hmade;
    apply makedirs_same_process in Hmade; now intros [= _ <-].
Qed.

(** Once the directory is there, constructing it again in the same working
    directory changes nothing and gives the same [SubDir]. *)
Lemma SubDir_init_again s d s1 s2 :
  SubDir_init root subdir s = (Ok d, s1) ->
  cwd s2 = cwd s ->
  fs s2 !! directory d = Some Dir ->
  SubDir_init root subdir s2 = (Ok d, s2).
Proof.
  unfold directory. intros H Hcwd. revert H. construct.
  repeat (first [ rewrite Hcwd
                | match goal with
                  | |- context [if ?b then _ else _] => destruct b eqn:?
                  end ];
          cbv beta iota);
    try discriminate;
    try (destruct (os_makedirs _ s) as [[[] | e] s']; try discriminate);
    intros [= <- _]; cbn [path]; intros Hdir;
    try rewrite Hdir in *; try discriminate; reflexivity.
Qed.

End SubDirs.

(** ** Calling a directory *)

Section StringCancel.

Lemma string_app_inv_tail (a b x : string) : a ++ x = b ++ x -> a = b.
Proof.
  intros H. apply (f_equal chars) in H. rewrite !chars_app in H.
  apply app_inv_tail in H. rewrite <- (str_chars a), <- (str_chars b).
  now rewrite H.
Qed.

Lemma fullKeyName_apart self d name :
  d.(ext) = self.(ext) ->
  d.(path) <> self.(path) ->
  fullKeyName d name <> fullKeyName self name.
Proof.
  intros Hext Hpath Heq. apply Hpath. unfold fullKeyName in Heq.
  rewrite Hext in Heq.
  destruct (_ && _); now apply string_app_inv_tail in Heq.
Qed.

Lemma fullKeyName_same self d name :
  d.(ext) = self.(ext) ->
  d.(path) = self.(path) ->
  fullKeyName d name = fullKeyName self name.
Proof. intros Hext Hpath. unfold fullKeyName. now rewrite Hext, Hpath. Qed.

Lemma os_path_split_nonempty key sub name :
  os_path_split key = (sub, name) ->
  (0 <? String.length name)%nat = true ->
  (0 <? String.length key)%nat = true.
Proof. destruct key; [| reflexivity]. now intros [= <- <-]. Qed.

Lemma directory_is_no_key self name :
  fullKeyName self name <> directory self \/ self.(path) = "".
Proof.
  destruct (path self) as [| c p] eqn:Hpath; [now right |]. left.
  intros Heq. apply (f_equal String.length) in Heq.
  unfold fullKeyName, directory, slice_drop_last, slice_to in Heq.
  rewrite Hpath in Heq. rewrite str_length, length_firstn, chars_length in Heq.
  destruct (_ && _); rewrite !string_app_length in Heq; cbn in Heq; lia.
Qed.

End StringCancel.

(** X24. Calling a directory with a key that has a directory part reads the
    last name of the key in the directory itself, not in the directory the
    key names. After a value that [pickle.dump] can serialize has been
    written under such a key, which puts it into the directory [d] that
    [SubDir(self, sub)] makes, [self(key, default)] returns the value only
    when [d] is [self] (as for ["./name"]) and the default otherwise, while
    [self(name, default, subdir=sub)] returns the value. *)
Theorem call_reads_the_name_in_its_own_directory
    self key sub name obj default d s s1 :
  os_path_split key = (sub, name) ->
  (0 <? String.length sub)%nat = true ->
  plain_key name ->
  SubDir_init self sub s = (Ok d, s1) ->
  s1.(fs) !! directory d = Some Dir ->
  s.(pickle_error) obj = None ->
  s1.(fs) !! fullKeyName d name <> Some Dir ->
  (d.(path) <> self.(path) -> s1.(fs) !! fullKeyName self name = None) ->
  let written := write self key obj s in
  written.1 = Ok tt
  /\ written.2.(fs) = <[fullKeyName d name := File (Pickled obj)]> s1.(fs)
  /\ __call__ self (Some key) default None written.2
     = (Ok (AValue (if String.eqb d.(path) self.(path) then obj else default)),
        written.2)
  /\ __call__ self (Some name) default (Some sub) written.2
     = (Ok (AValue obj), written.2).
Proof.
  intros Hsplit Hsub Hname Hd Hdir Hdump Hfile Habsent written.
  destruct (SubDir_init_same_process self sub s _ s1 Hd) as [Hpickle Hcwd].
  rewrite <- Hpickle in Hdump.
  assert (Hwritten :
            written
            = (Ok tt, set_fs (insert (fullKeyName d name) (File (Pickled obj))) s1)).
  { subst written. unfold write, _write.
    rewrite (os_path_split_nonempty key sub name Hsplit (proj1 Hname)), Hsplit.
    cbv [verify]. rewrite (proj1 Hname), Hsub.
    unfold mbind at 1 2, M_bind at 1 2, mret, M_ret.
    unfold mbind, M_bind. rewrite Hd.
    cbv [writer mbind M_bind get modify raise]. rewrite Hdump.
    destruct (fs s1 !! fullKeyName d name) as [[| c] |]; congruence. }
  rewrite Hwritten. cbn [fst snd fs set_fs].
  pose proof (SubDir_init_ext self sub s d s1 Hd) as Hext.
  assert (Hlen : (String.length name =? 0)%nat = false)
    by (destruct Hname as [Hlen _]; destruct name; [discriminate | reflexivity]).
  split; [reflexivity |]. split; [reflexivity |]. split.
  - unfold __call__, call_with_key. rewrite Hsplit, Hlen.
    unfold mbind, M_bind.
    destruct (String.eqb_spec (path d) (path self)) as [Hsame | Hother].
    + rewrite (read_pickled self name Hname _ obj); [reflexivity |].
      cbn [fs set_fs].
      rewrite <- (fullKeyName_same self d name Hext Hsame).
      apply lookup_insert_eq.
    + rewrite (read_absent self name Hname); [reflexivity |].
      cbn [fs set_fs].
      rewrite lookup_insert_ne by now apply fullKeyName_apart.
      now apply Habsent.
  - unfold __call__. unfold mbind at 1, M_bind at 1.
    rewrite (SubDir_init_again self sub s d s1); [| exact Hd | exact Hcwd |].
    + unfold call_with_key. rewrite (os_path_split_plain name Hname), Hlen.
      unfold mbind, M_bind.
      rewrite (read_pickled d name Hname _ obj); [reflexivity |].
      cbn [fs set_fs]. apply lookup_insert_eq.
    + cbn [fs set_fs].
      destruct (directory_is_no_key d name) as [Hne | Hempty].
      * now rewrite lookup_insert_ne.
      * rewrite lookup_insert_ne; [exact Hdir |].
        unfold directory, fullKeyName. rewrite Hempty.
        destruct Hname as [Hlen' _]. intros Heq.
        apply (f_equal String.length) in Heq.
        destruct (_ && _); cbn in Heq; rewrite ?string_app_length in Heq;
          apply Nat.ltb_lt in Hlen'; cbn in Heq; lia.
Qed.

Lemma call_reads_the_name_in_its_own_directory_witness :
  let written := write cacheDir "testns/result" (VInt 6) fresh in
  written.1 = Ok tt
  /\ written.2.(fs)
     = <[fullKeyName {| path := "/tmp/caching/testns/"; ext := ".pck" |} "result"
         := File (Pickled (VInt 6))]>
         (SubDir_init cacheDir "testns" fresh).2.(fs)
  /\ __call__ cacheDir (Some "testns/result") (VInt 0) None written.2
     = (Ok (AValue (VInt 0)), written.2)
  /\ __call__ cacheDir (Some "result") (VInt 0) (Some "testns") written.2
     = (Ok (AValue (VInt 6)), written.2).
Proof.
  apply (call_reads_the_name_in_its_own_directory cacheDir "testns/result"
           "testns" "result" (VInt 6) (VInt 0)
           {| path := "/tmp/caching/testns/"; ext := ".pck" |} fresh
           (SubDir_init cacheDir "testns" fresh).2).
  - reflexivity.
  - reflexivity.
  - split; reflexivity.
  - vm_compute. reflexivity.
  - vm_compute. reflexivity.
  - reflexivity.
  - vm_compute. discriminate.
  - intros _. vm_compute. reflexivity.
Defined.

(** The other case, computed: [SubDir(cacheDir, ".")] is [cacheDir], so the
    value written under ["./result"] is the one [cacheDir("./result", 0)]
    returns. *)
Example call_with_the_directory_itself :
  let written := write cacheDir "./result" (VInt 6) fresh in
  (SubDir_init cacheDir "." fresh).1 = Ok cacheDir
  /\ written.1 = Ok tt
  /\ __call__ cacheDir (Some "./result") (VInt 0) None written.2
     = (Ok (AValue (VInt 6)), written.2).
Proof. vm_compute. auto. Qed.
